(** * playground-rag front end: session cache and conversation controller

    A shallow embedding of the session list ([SessionList], the fourth
    component of [front/src/App.tsx]), of the chat component with session
    support ([ChatBot], the first component of [unnamed/part_000]) and of
    the root component that wires them ([App], the second component of
    [front/src/App.tsx]).

    - JavaScript strings are sequences of UTF-16 code units, so [length]
      and [substring] count code units.
    - React state is threaded explicitly through a state and exception
      monad.  A handler reads the variables of its closure, which are the
      state and props of the render it was created in, from its arguments,
      and writes through the setters; a write is visible in the store at
      once and never in the closure.
    - What the environment decides is an argument of the handler: how a
      [fetch] settles, the readings of the clock, the answer to [confirm].
    - The responses have the shape of their TypeScript interfaces.  What
      [JSON.parse] returns from local storage is an arbitrary JSON value,
      since nothing in the code checks it.
    - A visit is a sequence of user events on the page [App] renders.
      Each handler settles before the next event, and after each handler
      React renders again and runs the effect of [ChatBot] on its
      [sessionId] prop when the prop has changed. *)

From Stdlib Require Import ZArith String Ascii DecimalString DecimalPos
  DecimalFacts.
From stdpp Require Import base tactics numbers option list.

Local Open Scope Z_scope.
Set Warnings "-register-all".

(* ================================================================== *)
(** * Platform values *)
(* ================================================================== *)

Module JS.

(** A string value: its UTF-16 code units. *)
Abbreviation jsstring := (list N).

(** Decoding of the UTF-8 bytes of a literal of this file into UTF-16 code
    units; a truncated sequence decodes to U+FFFD. *)
Fixpoint utf16_of_utf8 (bs : list N) : jsstring :=
  match bs with
  | [] => []
  | b0 :: t0 =>
    if (b0 <? 128)%N then b0 :: utf16_of_utf8 t0
    else match t0 with
    | [] => [65533%N]
    | b1 :: t1 =>
      if (b0 <? 224)%N
      then ((b0 mod 32) * 64 + b1 mod 64)%N :: utf16_of_utf8 t1
      else match t1 with
      | [] => [65533%N]
      | b2 :: t2 =>
        if (b0 <? 240)%N
        then ((b0 mod 16) * 4096 + (b1 mod 64) * 64 + b2 mod 64)%N
               :: utf16_of_utf8 t2
        else match t2 with
        | [] => [65533%N]
        | b3 :: t3 =>
          let cp := ((b0 mod 8) * 262144 + (b1 mod 64) * 4096
                     + (b2 mod 64) * 64 + b3 mod 64 - 65536)%N in
          (55296 + cp / 1024)%N :: (56320 + cp mod 1024)%N
            :: utf16_of_utf8 t3
        end
      end
    end
  end.

(** The string value denoted by a source literal. *)
Definition lit (s : string) : jsstring :=
  utf16_of_utf8 (N_of_ascii <$> list_ascii_of_string s).
Global Arguments lit : simpl never.

(** [s.length] *)
Definition length (s : jsstring) : Z := Z.of_nat (List.length s).

(** [s.substring(start, end)]: both indices are clamped to [0, s.length]
    and swapped when [start > end]. *)
Definition substring (s : jsstring) (istart iend : Z) : jsstring :=
  let clamp i := Z.min (Z.max i 0) (length s) in
  let from := Z.min (clamp istart) (clamp iend) in
  let to := Z.max (clamp istart) (clamp iend) in
  take (Z.to_nat (to - from)) (drop (Z.to_nat from) s).

(** [a === b] on strings. *)
Definition strict_eq (a b : jsstring) : bool := bool_decide (a = b).

(** Truthiness of a string: the empty string is the only falsy one. *)
Definition truthy (s : jsstring) : bool :=
  match s with [] => false | _ :: _ => true end.

(** Truthiness of [string | null | undefined]. *)
Definition truthy_opt (o : option jsstring) : bool :=
  match o with Some s => truthy s | None => false end.

(** White space and line terminators, as [String.prototype.trim] strips
    them. *)
Definition isWhiteSpace (c : N) : bool :=
  (bool_decide (c ∈ [9; 10; 11; 12; 13; 32; 160; 5760; 8232; 8233; 8239;
                     8287; 12288; 65279]%N)
   || ((8192 <=? c) && (c <=? 8202)))%N.

Fixpoint trimStart (s : jsstring) : jsstring :=
  match s with
  | c :: s' => if isWhiteSpace c then trimStart s' else s
  | [] => []
  end.

(** [s.trim()] *)
Definition trim (s : jsstring) : jsstring :=
  reverse (trimStart (reverse (trimStart s))).

(** [n.toString()] for an integer-valued number below 1e21. *)
Definition toString (n : Z) : jsstring :=
  lit (NilZero.string_of_int (Z.to_int n)).
Global Arguments toString : simpl never.

(** [arr.findIndex(p)]: the first index whose element satisfies [p],
    or -1. *)
Fixpoint findIndexFrom {A} (p : A → bool) (k : Z) (l : list A) : Z :=
  match l with
  | [] => -1
  | x :: l' => if p x then k else findIndexFrom p (k + 1) l'
  end.

Definition findIndex {A} (p : A → bool) (l : list A) : Z :=
  findIndexFrom p 0 l.

(** [arr.splice(i, 1)]: the removed elements and what is left of [arr]. *)
Definition splice1 {A} (i : nat) (l : list A) : list A * list A :=
  (take 1 (drop i l), take i l ++ drop (S i) l).

(** The errors the modelled code can meet. *)
Inductive Error :=
| TypeError
| SyntaxError
| NetworkError
| ErrorMsg (message : jsstring).

(** How an evaluation ends: with a value or with a thrown error. *)
Inductive completion (A : Type) :=
| Normal (a : A)
| Throw (e : Error).
Global Arguments Normal {A} a.
Global Arguments Throw {A} e.

End JS.

Import JS.

(* ================================================================== *)
(** * JSON text and values: [JSON.parse] and [JSON.stringify] *)
(* ================================================================== *)

Module Json.

(** A parsed JSON value.  A number keeps its decimal value [m * 10^e]
    exactly ([m] not divisible by ten unless it is zero); the platform
    rounds it to a double, which is the same number for the integers below
    2^53 and the short decimals this program meets.  An object keeps its
    members as written; reading a property takes the last member of that
    name. *)
Inductive JSValue :=
| JNull
| JBool (b : bool)
| JNumber (m e : Z)
| JString (s : jsstring)
| JArray (items : list JSValue)
| JObject (members : list (jsstring * JSValue)).

Definition ch (a : ascii) : N := N_of_ascii a.

Definition is_ch (a : ascii) (c : N) : bool := (c =? ch a)%N.

(** JSON white space: space, tab, line feed, carriage return. *)
Definition is_ws (c : N) : bool :=
  ((c =? 32) || (c =? 9) || (c =? 10) || (c =? 13))%N.

Fixpoint skip_ws (s : jsstring) : jsstring :=
  match s with
  | c :: s' => if is_ws c then skip_ws s' else s
  | [] => []
  end.

Definition digit_val (c : N) : option Z :=
  if ((48 <=? c) && (c <=? 57))%N then Some (Z.of_N (c - 48)) else None.

Definition hex_val (c : N) : option N :=
  if ((48 <=? c) && (c <=? 57))%N then Some (c - 48)%N
  else if ((97 <=? c) && (c <=? 102))%N then Some (c - 87)%N
  else if ((65 <=? c) && (c <=? 70))%N then Some (c - 55)%N
  else None.

(** The longest run of decimal digits at the head of [s]: its value
    continued from [acc], how many digits were read, and the rest. *)
Fixpoint read_digits (s : jsstring) (acc : Z) (cnt : nat)
  : Z * nat * jsstring :=
  match s with
  | c :: s' =>
    match digit_val c with
    | Some d => read_digits s' (acc * 10 + d) (S cnt)
    | None => (acc, cnt, s)
    end
  | [] => (acc, cnt, s)
  end.

(** Moves the trailing zeros of the mantissa into the exponent. *)
Fixpoint strip_zeros (fuel : nat) (m e : Z) : Z * Z :=
  match fuel with
  | O => (m, e)
  | S fuel' =>
    if (m =? 0) then (0, 0)
    else if (m mod 10 =? 0) then strip_zeros fuel' (m / 10) (e + 1)
    else (m, e)
  end.

Definition normal_number (m e : Z) : JSValue :=
  let '(m', e') := strip_zeros (S (Z.to_nat (Z.log2 (Z.abs m)))) m e in
  JNumber m' e'.

(** The exponent part of a number, if there is one. *)
Definition read_exponent (s : jsstring) : option (Z * jsstring) :=
  match s with
  | c :: s1 =>
    if is_ch "e" c || is_ch "E" c then
      let '(neg, s2) :=
        match s1 with
        | c2 :: s2 =>
          if is_ch "-" c2 then (true, s2)
          else if is_ch "+" c2 then (false, s2) else (false, s1)
        | [] => (false, s1)
        end in
      match read_digits s2 0 0 with
      | (_, O, _) => None
      | (x, S _, s3) => Some (if neg then - x else x, s3)
      end
    else Some (0, s)
  | [] => Some (0, s)
  end.

(** The fraction part, folded into the mantissa. *)
Definition read_fraction (i : Z) (s : jsstring) : option (Z * Z * jsstring) :=
  match s with
  | c :: s1 =>
    if is_ch "." c then
      match read_digits s1 i 0 with
      | (_, O, _) => None
      | (m, S n, s2) => Some (m, - Z.of_nat (S n), s2)
      end
    else Some (i, 0, s)
  | [] => Some (i, 0, s)
  end.

(** A JSON number: an optional minus sign, an integer part without
    leading zeros, an optional fraction and an optional exponent. *)
Definition parse_number (s : jsstring) : option (JSValue * jsstring) :=
  let '(neg, s1) :=
    match s with
    | c :: s1 => if is_ch "-" c then (true, s1) else (false, s)
    | [] => (false, s)
    end in
  match s1 with
  | [] => None
  | c :: s2 =>
    match
      (if is_ch "0" c then Some (0, s2)
       else match read_digits s1 0 0 with
            | (_, O, _) => None
            | (i, S _, s3) => Some (i, s3)
            end)
    with
    | None => None
    | Some (i, s3) =>
      match read_fraction i s3 with
      | None => None
      | Some (m, e1, s4) =>
        match read_exponent s4 with
        | None => None
        | Some (e2, s5) =>
          Some (normal_number (if neg then - m else m) (e1 + e2), s5)
        end
      end
    end
  end.

(** The characters of a string up to its closing quote; the opening quote
    has been read. *)
Fixpoint parse_string (s : jsstring) : option (jsstring * jsstring) :=
  match s with
  | [] => None
  | c :: s1 =>
    if (c =? 34)%N then Some ([], s1)
    else if (c <? 32)%N then None
    else if (c =? 92)%N then
      match s1 with
      | [] => None
      | x :: s2 =>
        let simple (u : N) :=
          match parse_string s2 with
          | Some (t, r) => Some (u :: t, r)
          | None => None
          end in
        if (x =? 34)%N then simple 34%N
        else if (x =? 92)%N then simple 92%N
        else if is_ch "/" x then simple 47%N
        else if is_ch "b" x then simple 8%N
        else if is_ch "f" x then simple 12%N
        else if is_ch "n" x then simple 10%N
        else if is_ch "r" x then simple 13%N
        else if is_ch "t" x then simple 9%N
        else if is_ch "u" x then
          match s2 with
          | h1 :: h2 :: h3 :: h4 :: s3 =>
            match hex_val h1, hex_val h2, hex_val h3, hex_val h4 with
            | Some a, Some b, Some c', Some d =>
              match parse_string s3 with
              | Some (t, r) =>
                Some ((a * 4096 + b * 256 + c' * 16 + d)%N :: t, r)
              | None => None
              end
            | _, _, _, _ => None
            end
          | _ => None
          end
        else None
      end
    else
      match parse_string s1 with
      | Some (t, r) => Some (c :: t, r)
      | None => None
      end
  end.

Fixpoint strip_prefix (p s : jsstring) : option jsstring :=
  match p, s with
  | [], _ => Some s
  | a :: p', b :: s' => if (a =? b)%N then strip_prefix p' s' else None
  | _ :: _, [] => None
  end.

(** A value at the head of [s] (white space already skipped), the elements
    of an array after its opening bracket, and the members of an object
    after its opening brace.  Every call reads at least one character, so
    fuel above twice the length of the text is never used up. *)
Fixpoint parse_value (fuel : nat) (s : jsstring) {struct fuel}
  : option (JSValue * jsstring) :=
  match fuel with
  | O => None
  | S n =>
    match s with
    | [] => None
    | c :: r =>
      if (c =? 34)%N then
        match parse_string r with
        | Some (t, r1) => Some (JString t, r1)
        | None => None
        end
      else if is_ch "[" c then
        match skip_ws r with
        | [] => None
        | c1 :: r1 =>
          if is_ch "]" c1 then Some (JArray [], r1)
          else match parse_elements n (c1 :: r1) with
               | Some (vs, r2) => Some (JArray vs, r2)
               | None => None
               end
        end
      else if is_ch "{" c then
        match skip_ws r with
        | [] => None
        | c1 :: r1 =>
          if is_ch "}" c1 then Some (JObject [], r1)
          else match parse_members n (c1 :: r1) with
               | Some (ms, r2) => Some (JObject ms, r2)
               | None => None
               end
        end
      else if is_ch "t" c then
        (λ r1, (JBool true, r1)) <$> strip_prefix (lit "true") s
      else if is_ch "f" c then
        (λ r1, (JBool false, r1)) <$> strip_prefix (lit "false") s
      else if is_ch "n" c then
        (λ r1, (JNull, r1)) <$> strip_prefix (lit "null") s
      else parse_number s
    end
  end
with parse_elements (fuel : nat) (s : jsstring) {struct fuel}
  : option (list JSValue * jsstring) :=
  match fuel with
  | O => None
  | S n =>
    match parse_value n s with
    | None => None
    | Some (v, r) =>
      match skip_ws r with
      | [] => None
      | c :: r1 =>
        if is_ch "," c then
          match parse_elements n (skip_ws r1) with
          | Some (vs, r2) => Some (v :: vs, r2)
          | None => None
          end
        else if is_ch "]" c then Some ([v], r1)
        else None
      end
    end
  end
with parse_members (fuel : nat) (s : jsstring) {struct fuel}
  : option (list (jsstring * JSValue) * jsstring) :=
  match fuel with
  | O => None
  | S n =>
    match s with
    | [] => None
    | q :: r =>
      if (q =? 34)%N then
        match parse_string r with
        | None => None
        | Some (k, r1) =>
          match skip_ws r1 with
          | [] => None
          | c1 :: r2 =>
            if is_ch ":" c1 then
              match parse_value n (skip_ws r2) with
              | None => None
              | Some (v, r3) =>
                match skip_ws r3 with
                | [] => None
                | c3 :: r4 =>
                  if is_ch "," c3 then
                    match parse_members n (skip_ws r4) with
                    | Some (ms, r5) => Some ((k, v) :: ms, r5)
                    | None => None
                    end
                  else if is_ch "}" c3 then Some ([(k, v)], r4)
                  else None
                end
              end
            else None
          end
        end
      else None
    end
  end.

(** With the fuel [n] the function [f] gives its result only on a shorter
    rest, and gives it again with any fuel above twice what it has read. *)
Definition fuel_enough {A} (f : nat → jsstring → option (A * jsstring))
    (n : nat) : Prop :=
  ∀ s a r, f n s = Some (a, r) →
    (List.length r < List.length s)%nat
    ∧ ∀ m, (2 * (List.length s - List.length r) <= m)%nat →
           f m s = Some (a, r).

(** [JSON.parse(text)]: the value, or a [SyntaxError]. *)
Definition parse (text : jsstring) : completion JSValue :=
  match parse_value (2 * List.length text + 2) (skip_ws text) with
  | Some (v, r) =>
    match skip_ws r with
    | [] => Normal v
    | _ :: _ => Throw SyntaxError
    end
  | None => Throw SyntaxError
  end.
Global Arguments parse : simpl never.

Definition hex_digit (n : N) : N :=
  if (n <? 10)%N then (48 + n)%N else (87 + n)%N.

(** The escape [\uXXXX] of a code unit. *)
Definition escape_u (c : N) : jsstring :=
  [92; 117; hex_digit (c / 4096); hex_digit (c / 256 mod 16);
   hex_digit (c / 16 mod 16); hex_digit (c mod 16)]%N.

(** The characters of a quoted string: quote, backslash and control
    characters are escaped, and so is a surrogate that is not part of a
    pair. *)
Fixpoint quote_chars (s : jsstring) : jsstring :=
  match s with
  | [] => []
  | c :: s1 =>
    if (c =? 34)%N then [92; 34]%N ++ quote_chars s1
    else if (c =? 92)%N then [92; 92]%N ++ quote_chars s1
    else if (c =? 8)%N then [92; 98]%N ++ quote_chars s1
    else if (c =? 12)%N then [92; 102]%N ++ quote_chars s1
    else if (c =? 10)%N then [92; 110]%N ++ quote_chars s1
    else if (c =? 13)%N then [92; 114]%N ++ quote_chars s1
    else if (c =? 9)%N then [92; 116]%N ++ quote_chars s1
    else if (c <? 32)%N then escape_u c ++ quote_chars s1
    else if ((55296 <=? c) && (c <=? 56319))%N then
      match s1 with
      | d :: s2 =>
        if ((56320 <=? d) && (d <=? 57343))%N
        then c :: d :: quote_chars s2
        else escape_u c ++ quote_chars s1
      | [] => escape_u c
      end
    else if ((56320 <=? c) && (c <=? 57343))%N
    then escape_u c ++ quote_chars s1
    else c :: quote_chars s1
  end.

Definition quote (s : jsstring) : jsstring :=
  [34%N] ++ quote_chars s ++ [34%N].

(** [Number.prototype.toString] of the decimal [m * 10^e], [m] not
    divisible by ten. *)
Definition number_toString (m e : Z) : jsstring :=
  if m =? 0 then lit "0"
  else
    let digits := toString (Z.abs m) in
    let k := JS.length digits in
    let n := k + e in
    (if m <? 0 then lit "-" else [])
    ++ (if (k <=? n) && (n <=? 21)
        then digits ++ replicate (Z.to_nat (n - k)) 48%N
        else if (0 <? n) && (n <=? 21)
        then take (Z.to_nat n) digits ++ lit "." ++ drop (Z.to_nat n) digits
        else if (-6 <? n) && (n <=? 0)
        then lit "0." ++ replicate (Z.to_nat (- n)) 48%N ++ digits
        else take 1 digits
             ++ (if 1 <? k then lit "." ++ drop 1 digits else [])
             ++ lit "e" ++ (if 0 <=? n - 1 then lit "+" else lit "-")
             ++ toString (Z.abs (n - 1))).

Fixpoint join_comma (parts : list jsstring) : jsstring :=
  match parts with
  | [] => []
  | [p] => p
  | p :: ps => p ++ lit "," ++ join_comma ps
  end.

(** [JSON.stringify(value)] *)
Fixpoint stringify (v : JSValue) : jsstring :=
  match v with
  | JNull => lit "null"
  | JBool true => lit "true"
  | JBool false => lit "false"
  | JNumber m e => number_toString m e
  | JString s => quote s
  | JArray items => lit "[" ++ join_comma (stringify <$> items) ++ lit "]"
  | JObject members =>
    lit "{"
    ++ join_comma ((λ kv, quote kv.1 ++ lit ":" ++ stringify kv.2) <$> members)
    ++ lit "}"
  end.

Global Arguments stringify : simpl never.

(** [value[key]] when it is there: the last member of that name. *)
Definition get (key : jsstring) (v : JSValue) : option JSValue :=
  match v with
  | JObject members =>
    snd <$> (snd <$> list_find (λ kv, kv.1 = key) (reverse members))
  | _ => None
  end.

End Json.

(** A JSON text written with apostrophes where the text has double
    quotes. *)
Definition json_text (s : string) : jsstring :=
  (λ c, if (c =? 39)%N then 34%N else c) <$> lit s.

(* ================================================================== *)
(** * State and exceptions *)
(* ================================================================== *)

(** A computation over a store [W] that ends normally or by a throw; the
    writes made before a throw stay. *)
Definition M (W A : Type) : Type := W → completion A * W.

#[global] Instance M_ret {W} : MRet (M W) :=
  λ A a w, (Normal a, w).

#[global] Instance M_bind {W} : MBind (M W) :=
  λ A B k m w,
    match m w with
    | (Normal a, w1) => k a w1
    | (Throw e, w1) => (Throw e, w1)
    end.

Definition throw {W A} (e : Error) : M W A := λ w, (Throw e, w).

(** [await] of a promise that has settled, or the value of an expression
    that may throw. *)
Definition settle {W A} (c : completion A) : M W A := λ w, (c, w).

Definition gets {W A} (f : W → A) : M W A := λ w, (Normal (f w), w).

Definition modify {W} (f : W → W) : M W unit := λ w, (Normal tt, f w).

(** [try { body } catch (error) { handler }] *)
Definition try_catch {W A} (body : M W A) (handler : Error → M W A) : M W A :=
  λ w,
    match body w with
    | (Normal a, w1) => (Normal a, w1)
    | (Throw e, w1) => handler e w1
    end.

(** [try { body } finally { final }] *)
Definition try_finally {W A} (body : M W A) (final : M W unit) : M W A :=
  λ w,
    match body w with
    | (r, w1) =>
      match final w1 with
      | (Normal _, w2) => (r, w2)
      | (Throw e, w2) => (Throw e, w2)
      end
    end.

Definition when {W} (b : bool) (m : M W unit) : M W unit :=
  if b then m else mret tt.

(** A response: its [ok] flag, and what [response.json()] settles to, the
    parsed body or a throw. *)
Record Response (B : Type) := {
  ok : bool;
  json : completion B;
}.
Global Arguments ok {B} _.
Global Arguments json {B} _.

(** How a [fetch] settles: rejected, or resolved with a response. *)
Inductive Fetched (B : Type) :=
| Rejected
| Responded (response : Response B).
Global Arguments Rejected {B}.
Global Arguments Responded {B} response.

(** [await fetch(...)] *)
Definition fetch {W B} (r : Fetched B) : M W (Response B) :=
  match r with
  | Rejected => throw NetworkError
  | Responded response => mret response
  end.

(* ================================================================== *)
(** * Data model *)
(* ================================================================== *)

(** [interface SessionSummary] and the list operations of [SessionList]. *)
Module SessionList.
Import Json.

Record SessionSummary := {
  session_id : jsstring;
  title : jsstring;
  lastMessage : jsstring;
  messageCount : Z;       (* an integer below 2^53, where adding one is exact *)
  updated_at : jsstring;
}.

(** The title taken from a message:
    [lastMessage.length > 30 ? lastMessage.substring(0, 30) + '...' : lastMessage] *)
Definition titleOf (lastMessage : jsstring) : jsstring :=
  if 30 <? JS.length lastMessage
  then substring lastMessage 0 30 ++ lit "..."
  else lastMessage.

(** The function [updateSessionList] passes to [setSessions], up to the
    write to local storage: from the previous list to [updatedSessions].
    [now] is the reading [new Date().toISOString()].  Reading a property of
    [undefined] throws a [TypeError]; a [splice] that removed nothing would
    put [undefined] at the front of the list, which a list of summaries
    cannot hold.  Neither happens: [findIndex] answers with an index of the
    list.  [messageCount + 1] is the sum of the integers, which is what the
    code computes while the count is below [2 ^ 53]; from there on the
    double of the code no longer counts, and the model does not follow
    it. *)
Definition updateSessionList_next (sessionId lastMessage now : jsstring)
    (prevSessions : list SessionSummary) : completion (list SessionSummary) :=
  let existingIndex :=
    findIndex (λ s, strict_eq (session_id s) sessionId) prevSessions in
  if 0 <=? existingIndex then
    let i := Z.to_nat existingIndex in
    let updatedSessions := prevSessions in
    match updatedSessions !! i with
    | None => Throw TypeError
    | Some existingSession =>
      let updatedSessions :=
        <[ i := {| session_id := session_id existingSession;
                   title := if messageCount existingSession =? 0
                            then titleOf lastMessage
                            else title existingSession;
                   lastMessage := lastMessage;
                   messageCount := messageCount existingSession + 1;
                   updated_at := now |} ]> updatedSessions in
      let '(removed, updatedSessions) := splice1 i updatedSessions in
      match removed !! 0%nat with
      | Some updatedSession => Normal (updatedSession :: updatedSessions)
      | None => Throw TypeError
      end
    end
  else
    let newSession :=
      {| session_id := sessionId;
         title := titleOf lastMessage;
         lastMessage := lastMessage;
         messageCount := 1;
         updated_at := now |} in
    Normal (newSession :: prevSessions).

(** The function [deleteSession] passes to [setSessions]:
    [prevSessions.filter(s => s.session_id !== sessionId)] *)
Definition deleteSession_next (sessionId : jsstring)
    (prevSessions : list SessionSummary) : list SessionSummary :=
  filter (λ s, session_id s ≠ sessionId) prevSessions.

(** The JSON value of a summary, its properties in the order a new
    summary is written with. *)
Definition toJSON (s : SessionSummary) : JSValue :=
  JObject [ (lit "session_id", JString (session_id s));
            (lit "title", JString (title s));
            (lit "lastMessage", JString (lastMessage s));
            (lit "messageCount", normal_number (messageCount s) 0);
            (lit "updated_at", JString (updated_at s)) ].

Definition sessionsToJSON (l : list SessionSummary) : JSValue :=
  JArray (toJSON <$> l).

Definition asString (v : JSValue) : option jsstring :=
  match v with JString s => Some s | _ => None end.

Definition asInteger (v : JSValue) : option Z :=
  match v with
  | JNumber m e => if 0 <=? e then Some (m * 10 ^ e) else None
  | _ => None
  end.

(** The summary a JSON value is, when it has the shape of the
    interface. *)
Definition asSummary (v : JSValue) : option SessionSummary :=
  sid ← get (lit "session_id") v ≫= asString;
  ttl ← get (lit "title") v ≫= asString;
  msg ← get (lit "lastMessage") v ≫= asString;
  cnt ← get (lit "messageCount") v ≫= asInteger;
  upd ← get (lit "updated_at") v ≫= asString;
  Some {| session_id := sid; title := ttl; lastMessage := msg;
          messageCount := cnt; updated_at := upd |}.

(** The list of summaries a JSON value is, when it is one. *)
Definition asSessions (v : JSValue) : option (list SessionSummary) :=
  match v with
  | JArray items => mapM asSummary items
  | _ => None
  end.

(** The state of the component as it is at run time, for [loadSessions]
    and the render that follows: [JSON.parse] returns [any], so what it
    returns is stored in [sessions] without a check against
    [SessionSummary[]]. *)
Record Loaded := {
  loaded_sessions : JSValue;
  loaded_isLoading : bool;
  loaded_console : list (jsstring * Error);
}.

(** [loadSessions], run on the item stored under ['chatSessions']
    ([None] when there is none). *)
Definition loadSessions (storedSessions : option jsstring) : M Loaded unit :=
  modify (λ w, {| loaded_sessions := loaded_sessions w;
                  loaded_isLoading := true;
                  loaded_console := loaded_console w |});;
  try_finally
    (try_catch
       (if truthy_opt storedSessions then
          sessionList ← settle (parse (default [] storedSessions));
          modify (λ w, {| loaded_sessions := sessionList;
                          loaded_isLoading := loaded_isLoading w;
                          loaded_console := loaded_console w |})
        else mret tt)
       (λ error,
          modify (λ w, {| loaded_sessions := loaded_sessions w;
                          loaded_isLoading := loaded_isLoading w;
                          loaded_console :=
                            loaded_console w
                            ++ [(lit "세션 목록 로드 실패:", error)] |})))
    (modify (λ w, {| loaded_sessions := loaded_sessions w;
                     loaded_isLoading := false;
                     loaded_console := loaded_console w |})).

(** The component right after it is mounted: [useState([])],
    [useState(false)]. *)
Definition mounted : Loaded :=
  {| loaded_sessions := JArray []; loaded_isLoading := false;
     loaded_console := [] |}.

(** ** What the component renders *)

(** Whether the double [JSON.parse] gives for the decimal [m * 10^e] is
    zero: the decimal is zero, or at most [2^-1075], half of the least
    positive double. *)
Definition is_zero (m e : Z) : bool :=
  (m =? 0) || ((e <? 0) && (Z.abs m * 2 ^ 1075 <=? 10 ^ (- e))).

(** [sessions.length === 0] on what [sessions] holds.  Reading a property
    of [null] throws a [TypeError]; an array and a string have their
    length; an object has the member of that name, if any; a number and a
    boolean have none. *)
Definition length_is_zero (sessions : JSValue) : completion bool :=
  match sessions with
  | JNull => Throw TypeError
  | JArray items => Normal (bool_decide (items = []))
  | JString s => Normal (bool_decide (s = []))
  | JObject _ =>
    Normal (match get (lit "length") sessions with
            | Some (JNumber m e) => is_zero m e
            | _ => false
            end)
  | JBool _ | JNumber _ _ => Normal false
  end.

(** [session.key] for a key of [SessionSummary]: [None] is [undefined]. *)
Definition field (key : jsstring) (session : JSValue)
  : completion (option JSValue) :=
  match session with
  | JNull => Throw TypeError
  | JObject _ => Normal (get key session)
  | _ => Normal None
  end.

(** Whether a value converts to a primitive, as the key of an element
    and the argument of [new Date] are: an object whose own member
    [toString] hides the method does not, since no JSON value is a
    function, nor does an array that holds one; the conversion then throws
    a [TypeError]. *)
Fixpoint coercible (v : JSValue) : bool :=
  match v with
  | JObject members =>
    forallb (λ kv, negb (strict_eq kv.1 (lit "toString"))) members
  | JArray items => forallb coercible items
  | _ => true
  end.

(** The children of a row that come from the summary: [{session.title}]
    and [{session.messageCount}]. *)
Record Row := {
  row_title : option JSValue;
  row_count : option JSValue;
}.

(** The element the callback of [sessions.map] returns for [session].  It
    reads [session_id] for the key and the class, [title],
    [messageCount], and [updated_at] for [formatDate]: [new Date] of it and
    the key of the element convert their value to a primitive, and nothing
    else in the callback can throw. *)
Definition row (session : JSValue) : completion Row :=
  match field (lit "session_id") session with
  | Throw e => Throw e
  | Normal key =>
    match field (lit "title") session with
    | Throw e => Throw e
    | Normal title =>
      match field (lit "messageCount") session with
      | Throw e => Throw e
      | Normal count =>
        match field (lit "updated_at") session with
        | Throw e => Throw e
        | Normal dateString =>
          if from_option coercible true dateString
             && from_option coercible true key
          then Normal {| row_title := title; row_count := count |}
          else Throw TypeError
        end
      end
    end
  end.

(** [sessions.map(callback)] on an array. *)
Fixpoint rows (sessions : list JSValue) : completion (list Row) :=
  match sessions with
  | [] => Normal []
  | session :: sessions' =>
    match row session with
    | Throw e => Throw e
    | Normal r =>
      match rows sessions' with
      | Throw e => Throw e
      | Normal rs => Normal (r :: rs)
      end
    end
  end.

(** Whether React takes a value as a child: text, a number, nothing for
    [null], [undefined] and booleans, and an array of children; an object
    is refused with an error. *)
Fixpoint valid_child (v : JSValue) : bool :=
  match v with
  | JObject _ => false
  | JArray items => forallb valid_child items
  | _ => true
  end.

Definition valid_row (r : Row) : bool :=
  from_option valid_child true (row_title r)
  && from_option valid_child true (row_count r).

(** What the list shows. *)
Inductive View :=
| ViewLoading
| ViewEmpty
| ViewRows (rs : list Row).

(** The render of the list:
    [isLoading ? ... : sessions.length === 0 ? ... : sessions.map(...)].
    Calling [sessions.map] throws a [TypeError] when [sessions] is no
    array, since no JSON value is a function.  An error of the render
    unmounts the page, which has no error boundary. *)
Definition render (w : Loaded) : completion View :=
  if loaded_isLoading w then Normal ViewLoading
  else
    match length_is_zero (loaded_sessions w) with
    | Throw e => Throw e
    | Normal true => Normal ViewEmpty
    | Normal false =>
      match loaded_sessions w with
      | JArray items =>
        match rows items with
        | Throw e => Throw e
        | Normal rs =>
          if forallb valid_row rs then Normal (ViewRows rs)
          else Throw (ErrorMsg (lit "Objects are not valid as a React child"))
        end
      | _ => Throw TypeError
      end
    end.

(** The stored values on which the render throws a [TypeError]: [null], a
    number, a boolean, a string that is not empty, an object without a
    member [length], and an array that holds [null]. *)
Definition unmappable (v : JSValue) : Prop :=
  match v with
  | JArray items => JNull ∈ items
  | JString s => s ≠ []
  | JObject _ => get (lit "length") v = None
  | JNull | JBool _ | JNumber _ _ => True
  end.

End SessionList.

(** The interfaces of [ChatBot]. *)
Module ChatBot.

Record Source := {
  page : jsstring;
  source : jsstring;
}.

(** [interface Message]; [timestamp] in milliseconds. *)
Record Message := {
  id : jsstring;
  text : jsstring;
  isUser : bool;
  timestamp : Z;
  sources : option (list Source);
}.

(** [interface ChatResponse] *)
Module ChatResponse.
Record data_t := {
  answer : jsstring;
  sources : list Source;
  query : jsstring;
  session_id : option jsstring;
}.
Record t := {
  success : bool;
  message : jsstring;
  data : option data_t;
  error : option jsstring;
}.
End ChatResponse.

(** [interface ChatSession] *)
Module ChatSession.
Record message_t := {
  role : jsstring;
  content : jsstring;
  timestamp : jsstring;
}.
Record t := {
  session_id : jsstring;
  messages : list message_t;
  created_at : jsstring;
  updated_at : jsstring;
}.
End ChatSession.

(** The body of a request to [/chat]. *)
Record ChatRequest := {
  message : jsstring;
  session_id : option jsstring;
}.

End ChatBot.

(* ================================================================== *)
(** * The page: the three components, local storage and the console *)
(* ================================================================== *)

Module Page.
Import Json SessionList ChatBot.

(** A request to the sessions of the backend: [POST /sessions],
    [GET /sessions/<id>], [DELETE /sessions/<id>]. *)
Inductive SessionRequest :=
| PostSessions
| GetSession (sessionId : jsstring)
| DeleteSession (sessionId : jsstring).

Record World := {
  currentSessionId : option jsstring;  (* [App]: the selected session *)
  sessionListRef : bool;  (* [App]: whether [sessionListRef.current] is attached *)
  sessions : list SessionSummary;  (* [SessionList]: the cached summaries *)
  messages : list Message;  (* [ChatBot]: the transcript *)
  inputValue : jsstring;  (* [ChatBot] *)
  isLoading : bool;  (* [ChatBot] *)
  sessionId : option jsstring;  (* [ChatBot]: the session of the transcript *)
  localStorage : option jsstring;  (* the item stored under ['chatSessions'] *)
  console : list (jsstring * Error);  (* what [console.error] received *)
  alerts : list jsstring;  (* what [alert] showed *)
  requests : list ChatRequest;  (* the bodies posted to [/chat], for the record *)
  updates : list (jsstring * jsstring);  (* the calls of [onSessionUpdate], for the record *)
  sessionRequests : list SessionRequest;  (* the requests to [/sessions], for the record *)
}.

Definition set_currentSessionId (f : option jsstring → option jsstring) (w : World) : World :=
  {| currentSessionId := f (currentSessionId w);
     sessionListRef := sessionListRef w; sessions := sessions w;
     messages := messages w; inputValue := inputValue w;
     isLoading := isLoading w; sessionId := sessionId w;
     localStorage := localStorage w; console := console w;
     alerts := alerts w; requests := requests w; updates := updates w;
     sessionRequests := sessionRequests w |}.

Definition set_sessionListRef (f : bool → bool) (w : World) : World :=
  {| currentSessionId := currentSessionId w;
     sessionListRef := f (sessionListRef w); sessions := sessions w;
     messages := messages w; inputValue := inputValue w;
     isLoading := isLoading w; sessionId := sessionId w;
     localStorage := localStorage w; console := console w;
     alerts := alerts w; requests := requests w; updates := updates w;
     sessionRequests := sessionRequests w |}.

Definition set_sessions (f : list SessionSummary → list SessionSummary) (w : World) : World :=
  {| currentSessionId := currentSessionId w;
     sessionListRef := sessionListRef w; sessions := f (sessions w);
     messages := messages w; inputValue := inputValue w;
     isLoading := isLoading w; sessionId := sessionId w;
     localStorage := localStorage w; console := console w;
     alerts := alerts w; requests := requests w; updates := updates w;
     sessionRequests := sessionRequests w |}.

Definition set_messages (f : list Message → list Message) (w : World) : World :=
  {| currentSessionId := currentSessionId w;
     sessionListRef := sessionListRef w; sessions := sessions w;
     messages := f (messages w); inputValue := inputValue w;
     isLoading := isLoading w; sessionId := sessionId w;
     localStorage := localStorage w; console := console w;
     alerts := alerts w; requests := requests w; updates := updates w;
     sessionRequests := sessionRequests w |}.

Definition set_inputValue (f : jsstring → jsstring) (w : World) : World :=
  {| currentSessionId := currentSessionId w;
     sessionListRef := sessionListRef w; sessions := sessions w;
     messages := messages w; inputValue := f (inputValue w);
     isLoading := isLoading w; sessionId := sessionId w;
     localStorage := localStorage w; console := console w;
     alerts := alerts w; requests := requests w; updates := updates w;
     sessionRequests := sessionRequests w |}.

Definition set_isLoading (f : bool → bool) (w : World) : World :=
  {| currentSessionId := currentSessionId w;
     sessionListRef := sessionListRef w; sessions := sessions w;
     messages := messages w; inputValue := inputValue w;
     isLoading := f (isLoading w); sessionId := sessionId w;
     localStorage := localStorage w; console := console w;
     alerts := alerts w; requests := requests w; updates := updates w;
     sessionRequests := sessionRequests w |}.

Definition set_sessionId (f : option jsstring → option jsstring) (w : World) : World :=
  {| currentSessionId := currentSessionId w;
     sessionListRef := sessionListRef w; sessions := sessions w;
     messages := messages w; inputValue := inputValue w;
     isLoading := isLoading w; sessionId := f (sessionId w);
     localStorage := localStorage w; console := console w;
     alerts := alerts w; requests := requests w; updates := updates w;
     sessionRequests := sessionRequests w |}.

Definition set_localStorage (f : option jsstring → option jsstring) (w : World) : World :=
  {| currentSessionId := currentSessionId w;
     sessionListRef := sessionListRef w; sessions := sessions w;
     messages := messages w; inputValue := inputValue w;
     isLoading := isLoading w; sessionId := sessionId w;
     localStorage := f (localStorage w); console := console w;
     alerts := alerts w; requests := requests w; updates := updates w;
     sessionRequests := sessionRequests w |}.

Definition set_console (f : list (jsstring * Error) → list (jsstring * Error)) (w : World) : World :=
  {| currentSessionId := currentSessionId w;
     sessionListRef := sessionListRef w; sessions := sessions w;
     messages := messages w; inputValue := inputValue w;
     isLoading := isLoading w; sessionId := sessionId w;
     localStorage := localStorage w; console := f (console w);
     alerts := alerts w; requests := requests w; updates := updates w;
     sessionRequests := sessionRequests w |}.

Definition set_alerts (f : list jsstring → list jsstring) (w : World) : World :=
  {| currentSessionId := currentSessionId w;
     sessionListRef := sessionListRef w; sessions := sessions w;
     messages := messages w; inputValue := inputValue w;
     isLoading := isLoading w; sessionId := sessionId w;
     localStorage := localStorage w; console := console w;
     alerts := f (alerts w); requests := requests w; updates := updates w;
     sessionRequests := sessionRequests w |}.

Definition set_requests (f : list ChatRequest → list ChatRequest) (w : World) : World :=
  {| currentSessionId := currentSessionId w;
     sessionListRef := sessionListRef w; sessions := sessions w;
     messages := messages w; inputValue := inputValue w;
     isLoading := isLoading w; sessionId := sessionId w;
     localStorage := localStorage w; console := console w;
     alerts := alerts w; requests := f (requests w); updates := updates w;
     sessionRequests := sessionRequests w |}.

Definition set_updates (f : list (jsstring * jsstring) → list (jsstring * jsstring)) (w : World) : World :=
  {| currentSessionId := currentSessionId w;
     sessionListRef := sessionListRef w; sessions := sessions w;
     messages := messages w; inputValue := inputValue w;
     isLoading := isLoading w; sessionId := sessionId w;
     localStorage := localStorage w; console := console w;
     alerts := alerts w; requests := requests w; updates := f (updates w);
     sessionRequests := sessionRequests w |}.

Definition set_sessionRequests (f : list SessionRequest → list SessionRequest) (w : World) : World :=
  {| currentSessionId := currentSessionId w;
     sessionListRef := sessionListRef w; sessions := sessions w;
     messages := messages w; inputValue := inputValue w;
     isLoading := isLoading w; sessionId := sessionId w;
     localStorage := localStorage w; console := console w;
     alerts := alerts w; requests := requests w; updates := updates w;
     sessionRequests := f (sessionRequests w) |}.

(** The React setters and the window functions the handlers use. *)
Definition setCurrentSessionId (v : option jsstring) : M World unit :=
  modify (set_currentSessionId (λ _, v)).
Definition setSessions (v : list SessionSummary) : M World unit :=
  modify (set_sessions (λ _, v)).
Definition setMessages (f : list Message → list Message) : M World unit :=
  modify (set_messages f).
Definition setInputValue (v : jsstring) : M World unit :=
  modify (set_inputValue (λ _, v)).
Definition setIsLoading (v : bool) : M World unit :=
  modify (set_isLoading (λ _, v)).
Definition setSessionId (v : option jsstring) : M World unit :=
  modify (set_sessionId (λ _, v)).
Definition localStorage_setItem (v : jsstring) : M World unit :=
  modify (set_localStorage (λ _, Some v)).
Definition console_error (label : jsstring) (e : Error) : M World unit :=
  modify (set_console (λ l, l ++ [(label, e)])).
Definition alert (msg : jsstring) : M World unit :=
  modify (set_alerts (λ l, l ++ [msg])).

(** [a || b] on strings. *)
Definition or_else (a b : jsstring) : jsstring := if truthy a then a else b.

(** ** [SessionList] *)

(** [updateSessionList(sessionId, lastMessage)]; [now] is the reading of
    the clock. *)
Definition updateSessionList (now sessionId lastMessage : jsstring)
  : M World unit :=
  prevSessions ← gets sessions;
  updatedSessions ←
    settle (updateSessionList_next sessionId lastMessage now prevSessions);
  localStorage_setItem (stringify (sessionsToJSON updatedSessions));;
  setSessions updatedSessions.

(** [deleteSession(sessionId)] in a render with the props
    [currentSessionId] and [onNewSession]; [confirmed] is the answer to
    [confirm], [fetched] how the [DELETE] request settles.  The request
    is noted in [sessionRequests]. *)
Definition deleteSession (currentSessionId : option jsstring)
    (onNewSession : M World unit) (confirmed : bool)
    (fetched : Fetched unit) (sessionId : jsstring) : M World unit :=
  if negb confirmed then mret tt
  else
    try_catch
      (modify (set_sessionRequests (λ l, l ++ [DeleteSession sessionId]));;
       response ← fetch fetched;
       if ok response then
         prevSessions ← gets sessions;
         let updatedSessions := deleteSession_next sessionId prevSessions in
         localStorage_setItem (stringify (sessionsToJSON updatedSessions));;
         setSessions updatedSessions;;
         when (bool_decide (currentSessionId = Some sessionId)) onNewSession
       else alert (lit "세션 삭제에 실패했습니다. 다시 시도해주세요."))
      (λ error,
         console_error (lit "세션 삭제 실패:") error;;
         alert (lit "세션 삭제 중 오류가 발생했습니다.")).

(** ** [App] *)

Definition handleSessionSelect (sessionId : jsstring) : M World unit :=
  setCurrentSessionId (Some sessionId).

Definition handleNewSession : M World unit :=
  setCurrentSessionId None.

(** [handleSessionUpdate(sessionId, lastMessage)] of a render in which the
    state is [currentSessionId]. *)
Definition handleSessionUpdate (currentSessionId : option jsstring)
    (now sessionId lastMessage : jsstring) : M World unit :=
  (attached ← gets sessionListRef;
   when attached (updateSessionList now sessionId lastMessage));;
  when (negb (truthy_opt currentSessionId))
       (setCurrentSessionId (Some sessionId)).

(** ** [ChatBot] *)

(** [interface ChatBotProps] *)
Record ChatBotProps := {
  propSessionId : option jsstring;
  onSessionUpdate : option (jsstring → jsstring → M World unit);
  onNewSession : option (M World unit);
}.

(** The props [App] renders [ChatBot] with. *)
Definition App_props (currentSessionId : option jsstring) (now : jsstring)
  : ChatBotProps :=
  {| propSessionId := currentSessionId;
     onSessionUpdate := Some (handleSessionUpdate currentSessionId now);
     onNewSession := Some handleNewSession |}.

Definition greeting : jsstring :=
  lit "안녕하세요! PDF와 관련하여 궁금한 점이 있으시면 언제든 물어보세요. 대화를 이어가며 더 자세한 질문도 하실 수 있습니다.".

Definition fallback_greeting : jsstring :=
  lit "안녕하세요! PDF와 관련하여 궁금한 점이 있으시면 언제든 물어보세요.".

Definition apology : jsstring :=
  lit "죄송합니다. 서버와의 연결에 문제가 발생했습니다.".

Definition no_answer : jsstring := lit "응답을 받지 못했습니다.".

(** [createNewSession()]; [now] is the reading of the clock, [fetched]
    how the [POST] to [/sessions] settles.  The request is noted in
    [sessionRequests]. *)
Definition createNewSession (now : Z) (fetched : Fetched ChatSession.t)
  : M World unit :=
  try_catch
    (modify (set_sessionRequests (λ l, l ++ [PostSessions]));;
     response ← fetch fetched;
     if ok response then
       session ← settle (json response);
       setSessionId (Some (ChatSession.session_id session));;
       setMessages (λ _, [ {| id := lit "1"; text := greeting;
                              isUser := false; timestamp := now;
                              sources := None |} ])
     else mret tt)
    (λ error,
       console_error (lit "세션 생성 실패:") error;;
       setMessages (λ _, [ {| id := lit "1"; text := fallback_greeting;
                              isUser := false; timestamp := now;
                              sources := None |} ])).

(** The readings of the clock one [handleSendMessage] makes. *)
Record SendClock := {
  user_now : Z;       (* [Date.now()] for the user message *)
  user_date : Z;      (* [new Date()] for the user message *)
  reply_now : Z;      (* [Date.now()] for the message after the request *)
  reply_date : Z;     (* [new Date()] for the message after the request *)
}.

(** The call [onSessionUpdate(sessionId, lastMessage)], noted in
    [updates]. *)
Definition call_onSessionUpdate (cb : jsstring → jsstring → M World unit)
    (sessionId lastMessage : jsstring) : M World unit :=
  modify (set_updates (λ l, l ++ [(sessionId, lastMessage)]));;
  cb sessionId lastMessage.

(** [handleSendMessage()] of a render with the props [props] in which the
    state is [inputValue] and [sessionId]; [fetched] is how the [POST] to
    [/chat] settles. *)
Definition handleSendMessage (props : ChatBotProps) (inputValue : jsstring)
    (sessionId : option jsstring) (clock : SendClock)
    (fetched : Fetched ChatResponse.t) : M World unit :=
  if negb (truthy (trim inputValue)) then mret tt
  else
    let userMessage :=
      {| id := toString (user_now clock); text := inputValue;
         isUser := true; timestamp := user_date clock; sources := None |} in
    setMessages (λ prev, prev ++ [userMessage]);;
    let messageToSend := inputValue in
    setInputValue [];;
    setIsLoading true;;
    try_finally
      (try_catch
         (let requestBody :=
            if truthy_opt sessionId
            then {| message := messageToSend; session_id := sessionId |}
            else {| message := messageToSend; session_id := None |} in
          modify (set_requests (λ l, l ++ [requestBody]));;
          response ← fetch fetched;
          if negb (ok response) then throw (ErrorMsg (lit "서버 응답 오류"))
          else
            data ← settle (json response);
            match ChatResponse.success data, ChatResponse.data data with
            | true, Some d =>
              when (truthy_opt (ChatResponse.session_id d)
                    && negb (truthy_opt sessionId))
                   (setSessionId (ChatResponse.session_id d));;
              let botMessage :=
                {| id := toString (reply_now clock + 1);
                   text := ChatResponse.answer d; isUser := false;
                   timestamp := reply_date clock;
                   sources := Some (ChatResponse.sources d) |} in
              setMessages (λ prev, prev ++ [botMessage]);;
              match onSessionUpdate props, sessionId with
              | Some cb, Some sid =>
                when (truthy sid) (call_onSessionUpdate cb sid messageToSend)
              | _, _ => mret tt
              end
            | _, _ =>
              let errorMessage :=
                {| id := toString (reply_now clock + 1);
                   text := or_else (ChatResponse.message data)
                             (or_else (default [] (ChatResponse.error data))
                                      no_answer);
                   isUser := false; timestamp := reply_date clock;
                   sources := None |} in
              setMessages (λ prev, prev ++ [errorMessage])
            end)
         (λ error,
            let errorMessage :=
              {| id := toString (reply_now clock + 1); text := apology;
                 isUser := false; timestamp := reply_date clock;
                 sources := None |} in
            setMessages (λ prev, prev ++ [errorMessage])))
      (setIsLoading false).

(** A send from the latest render: the handler closes over the state as
    it is when the send starts. *)
Definition send (props : ChatBotProps) (clock : SendClock)
    (fetched : Fetched ChatResponse.t) : M World unit :=
  λ w, handleSendMessage props (inputValue w) (sessionId w) clock fetched w.

(** The page after it is mounted, before any request has come back. *)
Definition empty_page : World :=
  {| currentSessionId := None; sessionListRef := true; sessions := [];
     messages := []; inputValue := []; isLoading := false;
     sessionId := None; localStorage := None; console := [];
     alerts := []; requests := []; updates := []; sessionRequests := [] |}.

(** ** [ChatBot], the rest of the component *)

(** [loadSession(sessionId)]; [fetched] is how the [GET] of the session
    settles, [dateOf] the time value of [new Date(text)].  The second
    [console.error] prints a label alone, noted with an empty message. *)
Definition loadSession (dateOf : jsstring → Z)
    (fetched : Fetched ChatSession.t) (sessionId : jsstring) : M World unit :=
  try_catch
    (modify (set_sessionRequests (λ l, l ++ [GetSession sessionId]));;
     response ← fetch fetched;
     if ok response then
       session ← settle (json response);
       let loadedMessages :=
         imap (λ index msg,
                 {| id := lit "loaded-" ++ toString (Z.of_nat index);
                    text := ChatSession.content msg;
                    isUser := strict_eq (ChatSession.role msg) (lit "user");
                    timestamp := dateOf (ChatSession.timestamp msg);
                    sources := None |})
              (ChatSession.messages session) in
       setMessages (λ _, loadedMessages)
     else
       console_error (lit "세션 로드 실패") (ErrorMsg []);;
       setMessages (λ _, []))
    (λ error,
       console_error (lit "세션 로드 오류:") error;;
       setMessages (λ _, [])).

(** The effect that depends on [propSessionId], in a render with the prop
    [propSessionId] and the state [sessionId]. *)
Definition propSessionId_effect (propSessionId sessionId : option jsstring)
    (dateOf : jsstring → Z) (fetched : Fetched ChatSession.t) : M World unit :=
  if bool_decide (propSessionId ≠ sessionId) then
    setSessionId propSessionId;;
    if truthy_opt propSessionId
    then loadSession dateOf fetched (default [] propSessionId)
    else setMessages (λ _, [])
  else mret tt.

(** The effect that runs once the component is mounted. *)
Definition mount_effect (propSessionId : option jsstring) (now : Z)
    (fetched : Fetched ChatSession.t) : M World unit :=
  if negb (truthy_opt propSessionId) then createNewSession now fetched
  else mret tt.

(** [startNewConversation()] *)
Definition startNewConversation (props : ChatBotProps) (now : Z)
    (fetched : Fetched ChatSession.t) : M World unit :=
  setMessages (λ _, []);;
  setSessionId None;;
  match onNewSession props with
  | Some onNewSession => onNewSession
  | None => createNewSession now fetched
  end.

(** What [handleKeyPress] reads of the event. *)
Record KeyboardEvent := {
  key : jsstring;
  shiftKey : bool;
}.

(** [handleKeyPress(e)] in a render whose [handleSendMessage] is
    [handleSendMessage]; the answer is whether [e.preventDefault()] was
    called. *)
Definition handleKeyPress (handleSendMessage : M World unit)
    (e : KeyboardEvent) : M World bool :=
  if strict_eq (key e) (lit "Enter") && negb (shiftKey e) then
    handleSendMessage;;
    mret true
  else mret false.

(** What React does after a handler has run from the page [before]: the
    components are rendered again and, when [App] gives [ChatBot] another
    [sessionId] prop than in the render before, the effect on that prop
    runs. *)
Definition rerender (before : World) (dateOf : jsstring → Z)
    (fetched : Fetched ChatSession.t) : M World unit :=
  λ w,
    if bool_decide (currentSessionId w ≠ currentSessionId before)
    then propSessionId_effect (currentSessionId w) (sessionId w)
           dateOf fetched w
    else (Normal tt, w).

(** A handler followed by that. *)
Definition then_rerender (handler : M World unit) (dateOf : jsstring → Z)
    (fetched : Fetched ChatSession.t) : M World unit :=
  λ w,
    match handler w with
    | (Normal _, w1) => rerender w dateOf fetched w1
    | (Throw e, w1) => (Throw e, w1)
    end.

(** ** [SessionList], the label of a date *)

(** [formatDate(dateString)]: [date] is the time value of
    [new Date(dateString)], a valid date, [now] that of [new Date()], and
    [localeDate] what [date.toLocaleDateString()] gives. *)
Definition formatDate (date now : Z) (localeDate : jsstring) : jsstring :=
  let diffInMinutes := (now - date) / (1000 * 60) in
  if diffInMinutes <? 60 then toString diffInMinutes ++ lit "분 전"
  else if diffInMinutes <? 1440
  then toString (diffInMinutes / 60) ++ lit "시간 전"
  else localeDate.

End Page.

(* ================================================================== *)
(** * The chat component without props *)
(* ================================================================== *)

(** The second component of [unnamed/part_000]: the same state, no props.
    Its [createNewSession] is, word for word, the one above. *)
Module Standalone.
Import ChatBot Page.

Definition createNewSession := Page.createNewSession.

(** [startNewConversation()] *)
Definition startNewConversation (now : Z) (fetched : Fetched ChatSession.t)
  : M World unit :=
  setMessages (λ _, []);;
  setSessionId None;;
  createNewSession now fetched.

(** [handleSendMessage()] of a render in which the state is [inputValue]
    and [sessionId]. *)
Definition handleSendMessage (inputValue : jsstring)
    (sessionId : option jsstring) (clock : SendClock)
    (fetched : Fetched ChatResponse.t) : M World unit :=
  if negb (truthy (trim inputValue)) then mret tt
  else
    let userMessage :=
      {| id := toString (user_now clock); text := inputValue;
         isUser := true; timestamp := user_date clock; sources := None |} in
    setMessages (λ prev, prev ++ [userMessage]);;
    let messageToSend := inputValue in
    setInputValue [];;
    setIsLoading true;;
    try_finally
      (try_catch
         (let requestBody :=
            if truthy_opt sessionId
            then {| message := messageToSend; session_id := sessionId |}
            else {| message := messageToSend; session_id := None |} in
          modify (set_requests (λ l, l ++ [requestBody]));;
          response ← fetch fetched;
          if negb (ok response) then throw (ErrorMsg (lit "서버 응답 오류"))
          else
            data ← settle (json response);
            match ChatResponse.success data, ChatResponse.data data with
            | true, Some d =>
              when (truthy_opt (ChatResponse.session_id d)
                    && negb (truthy_opt sessionId))
                   (setSessionId (ChatResponse.session_id d));;
              let botMessage :=
                {| id := toString (reply_now clock + 1);
                   text := ChatResponse.answer d; isUser := false;
                   timestamp := reply_date clock;
                   sources := Some (ChatResponse.sources d) |} in
              setMessages (λ prev, prev ++ [botMessage])
            | _, _ =>
              let errorMessage :=
                {| id := toString (reply_now clock + 1);
                   text := or_else (ChatResponse.message data)
                             (or_else (default [] (ChatResponse.error data))
                                      no_answer);
                   isUser := false; timestamp := reply_date clock;
                   sources := None |} in
              setMessages (λ prev, prev ++ [errorMessage])
            end)
         (λ error,
            let errorMessage :=
              {| id := toString (reply_now clock + 1); text := apology;
                 isUser := false; timestamp := reply_date clock;
                 sources := None |} in
            setMessages (λ prev, prev ++ [errorMessage])))
      (setIsLoading false).

End Standalone.

(* ================================================================== *)
(** * Sequences of cache operations *)
(* ================================================================== *)

Module Cache.
Import SessionList.

(** The two operations on the cached list: [updateSessionList] and the
    removal of [deleteSession]. *)
Inductive Op :=
| Upsert (sessionId lastMessage now : jsstring)
| Remove (sessionId : jsstring).

Definition step (op : Op) (cache : list SessionSummary)
  : completion (list SessionSummary) :=
  match op with
  | Upsert sessionId lastMessage now =>
    updateSessionList_next sessionId lastMessage now cache
  | Remove sessionId => Normal (deleteSession_next sessionId cache)
  end.

Fixpoint run (ops : list Op) (cache : list SessionSummary)
  : completion (list SessionSummary) :=
  match ops with
  | [] => Normal cache
  | op :: ops' =>
    match step op cache with
    | Normal cache' => run ops' cache'
    | Throw e => Throw e
    end
  end.

(** The summary an upsert writes for a session that has none. *)
Definition fresh (sessionId lastMessage now : jsstring) : SessionSummary :=
  {| session_id := sessionId; title := titleOf lastMessage;
     lastMessage := lastMessage; messageCount := 1; updated_at := now |}.

(** The summary an upsert writes over an existing one. *)
Definition touch (lastMessage now : jsstring) (e : SessionSummary)
  : SessionSummary :=
  {| session_id := session_id e;
     title := if messageCount e =? 0 then titleOf lastMessage else title e;
     lastMessage := lastMessage;
     messageCount := messageCount e + 1;
     updated_at := now |}.

(** The first summary of a session in the list, with its index. *)
Definition first_of (sessionId : jsstring) (cache : list SessionSummary)
  : option (nat * SessionSummary) :=
  list_find (λ s, session_id s = sessionId) cache.

(** Upserts for one session, each with its message and clock reading. *)
Definition upserts (sessionId : jsstring) (ms : list (jsstring * jsstring))
  : list Op :=
  (λ mt, Upsert sessionId mt.1 mt.2) <$> ms.

(** Whether an upsert for the session writes a title: there is no summary
    of it yet, or the one there has counted no message. *)
Definition assigns_title (sessionId : jsstring) (cache : list SessionSummary)
  : bool :=
  match first_of sessionId cache with
  | None => true
  | Some (_, e) => messageCount e =? 0
  end.

(** Every summary has counted a message, and no session has two. *)
Definition well_formed (cache : list SessionSummary) : Prop :=
  Forall (λ s, 1 <= messageCount s) cache ∧ NoDup (session_id <$> cache).

(** The title rule in the words of the specification: the first thirty
    characters and the one character U+2026. *)
Definition spec_title (lastMessage : jsstring) : jsstring :=
  if 30 <? JS.length lastMessage
  then take 30 lastMessage ++ lit "…"
  else lastMessage.

End Cache.

(* ================================================================== *)
(** * How the requests of the chat component can end *)
(* ================================================================== *)

Module Outcome.
Import SessionList ChatBot Page.

(** The chat request failed: it was rejected, the status is not a success
    status, the body cannot be read, or the body does not report a success
    with its data. *)
Definition send_failed (fetched : Fetched ChatResponse.t) : bool :=
  match fetched with
  | Rejected => true
  | Responded response =>
    negb (ok response)
    || match json response with
       | Throw _ => true
       | Normal data =>
         negb (ChatResponse.success data
               && bool_decide (is_Some (ChatResponse.data data)))
       end
  end.

(** The chat request failed before a body was read: rejected, a status
    that is not a success status, or an unreadable body. *)
Definition send_broken (fetched : Fetched ChatResponse.t) : bool :=
  match fetched with
  | Rejected => true
  | Responded response =>
    negb (ok response)
    || match json response with Throw _ => true | Normal _ => false end
  end.

(** The text a failed send shows: the fixed apology when the request
    broke, and otherwise what the body says, its [message], else its
    [error], else a fixed text. *)
Definition failure_text (fetched : Fetched ChatResponse.t) : jsstring :=
  match fetched with
  | Responded {| ok := true; json := Normal data |} =>
    if truthy (ChatResponse.message data) then ChatResponse.message data
    else match ChatResponse.error data with
         | Some e => if truthy e then e else no_answer
         | None => no_answer
         end
  | _ => apology
  end.

(** The session could not be created: the request was rejected, the status
    is not a success status, or the body cannot be read. *)
Definition creation_failed (fetched : Fetched ChatSession.t) : bool :=
  match fetched with
  | Rejected => true
  | Responded response =>
    negb (ok response)
    || match json response with Throw _ => true | Normal _ => false end
  end.

(** The request for a session was answered with a status that is not a
    success status. *)
Definition creation_refused (fetched : Fetched ChatSession.t) : bool :=
  match fetched with
  | Rejected => false
  | Responded response => negb (ok response)
  end.

(** The user message a send appends. *)
Definition user_message (clock : SendClock) (input : jsstring) : Message :=
  {| id := toString (user_now clock); text := input; isUser := true;
     timestamp := user_date clock; sources := None |}.

(** The assistant message with text [t] a send appends after the
    request, without sources. *)
Definition notice (clock : SendClock) (t : jsstring) : Message :=
  {| id := toString (reply_now clock + 1); text := t; isUser := false;
     timestamp := reply_date clock; sources := None |}.

(** The assistant message a successful send appends. *)
Definition answer_message (clock : SendClock) (d : ChatResponse.data_t)
  : Message :=
  {| id := toString (reply_now clock + 1); text := ChatResponse.answer d;
     isUser := false; timestamp := reply_date clock;
     sources := Some (ChatResponse.sources d) |}.

(** A response that reports a success with the data [d]. *)
Definition success_with (msg : jsstring) (d : ChatResponse.data_t)
  : Fetched ChatResponse.t :=
  Responded {| ok := true;
               json := Normal {| ChatResponse.success := true;
                                 ChatResponse.message := msg;
                                 ChatResponse.data := Some d;
                                 ChatResponse.error := None |} |}.

(** The message a transcript is seeded with, with text [t]. *)
Definition seed (now : Z) (t : jsstring) : Message :=
  {| id := lit "1"; text := t; isUser := false; timestamp := now;
     sources := None |}.

(** The page after the user has typed [value] into the input:
    [onChange={(e) => setInputValue(e.target.value)}]. *)
Definition typed (value : jsstring) (w : World) : World :=
  set_inputValue (λ _, value) w.

(** Readings of the clock for the examples. *)
Definition sample_clock : SendClock :=
  {| user_now := 1700000000000; user_date := 1700000000000;
     reply_now := 1700000000850; reply_date := 1700000000850 |}.

(** The props [App] gives [ChatBot] on the page [w]; the summary of an
    update is stamped [now]. *)
Definition props_on (w : World) (now : jsstring) : ChatBotProps :=
  App_props (currentSessionId w) now.

(** Whether a [DELETE] request was answered with a success status. *)
Definition deleted_remotely (fetched : Fetched unit) : bool :=
  match fetched with
  | Rejected => false
  | Responded response => ok response
  end.

End Outcome.

(* ================================================================== *)
(** * What a render shows and a request carries *)
(* ================================================================== *)

Module Lifecycle.
Import SessionList ChatBot Page.

(** The body of the request a send posts: the session id goes with the
    message when the render has one. *)
Definition request_of (w : World) : ChatRequest :=
  {| message := inputValue w;
     session_id := if truthy_opt (sessionId w) then sessionId w else None |}.

(** The messages of the session a request has brought; none when the
    request was rejected, refused, or answered with an unreadable body. *)
Definition loaded (fetched : Fetched ChatSession.t)
  : list ChatSession.message_t :=
  match fetched with
  | Responded {| ok := true; json := Normal session |} =>
    ChatSession.messages session
  | _ => []
  end.

(** The stored item is the cached list, as JSON. *)
Definition in_sync (w : World) : Prop :=
  localStorage w = Some (Json.stringify (sessionsToJSON (sessions w))).

(** What the code leaves in the list: every summary has counted a message
    and has a title of at most 33 code units, and no session has two
    summaries. *)
Definition tidy (cache : list SessionSummary) : Prop :=
  Forall (λ s, 1 <= messageCount s ∧ JS.length (title s) <= 33) cache
  ∧ NoDup (SessionList.session_id <$> cache).

End Lifecycle.

(* ================================================================== *)
(** * The page in use: what the user can do, one thing after another *)
(* ================================================================== *)

Module Events.
Import SessionList ChatBot Page Lifecycle.

(** What the user does, with what the environment decides meanwhile.  A
    row of the list is meant by its index. *)
Inductive Event :=
| Typed (value : jsstring)
| SendClicked (now : jsstring) (clock : SendClock)
    (fetched : Fetched ChatResponse.t)
| KeyPressed (e : KeyboardEvent) (now : jsstring) (clock : SendClock)
    (fetched : Fetched ChatResponse.t)
| SessionClicked (index : nat)
| NewClicked
| DeleteClicked (index : nat) (confirmed : bool) (fetched : Fetched unit).

(** The handler React calls for an event, with the props and state of the
    render the page is in. *)
Definition handle (ev : Event) : M World unit :=
  λ w,
    match ev with
    | Typed value => setInputValue value w
    | SendClicked now clock fetched =>
      send (App_props (currentSessionId w) now) clock fetched w
    | KeyPressed e now clock fetched =>
      (handleKeyPress
         (send (App_props (currentSessionId w) now) clock fetched) e;;
       mret tt) w
    | SessionClicked index =>
      match sessions w !! index with
      | Some session => handleSessionSelect (SessionList.session_id session) w
      | None => (Normal tt, w)
      end
    | NewClicked => handleNewSession w
    | DeleteClicked index confirmed fetched =>
      match sessions w !! index with
      | Some session =>
        deleteSession (currentSessionId w) handleNewSession confirmed fetched
          (SessionList.session_id session) w
      | None => (Normal tt, w)
      end
    end.

(** An event, with how a load of a session would go if the event leads to
    one. *)
Record Step := {
  event : Event;
  dateOf : jsstring → Z;
  session : Fetched ChatSession.t;
}.

Fixpoint play (steps : list Step) : M World unit :=
  match steps with
  | [] => mret tt
  | step :: steps' =>
    then_rerender (handle (event step)) (dateOf step) (session step);;
    play steps'
  end.

(** The page on a first visit, once mounted: nothing is stored, no
    session is selected, and [ChatBot] has asked for a session. *)
Definition first_visit (now : Z) (created : Fetched ChatSession.t) : World :=
  (mount_effect None now created empty_page).2.

(** A short visit: the user types a question, sends it with the Enter
    key and gets an answer, then types another and sends it with the
    button while the server is down. *)
Definition sample_visit : list Step :=
  let answer :=
    Responded
      {| ok := true;
         json := Normal
           {| ChatResponse.success := true;
              ChatResponse.message := lit "ok";
              ChatResponse.data :=
                Some {| ChatResponse.answer := lit "hi there";
                        ChatResponse.sources := [];
                        ChatResponse.query := lit "hello";
                        ChatResponse.session_id := Some (lit "s1") |};
              ChatResponse.error := None |} |} in
  let clock :=
    {| user_now := 1700000000000; user_date := 1700000000001;
       reply_now := 1700000000800; reply_date := 1700000000801 |} in
  (λ ev, {| event := ev; dateOf := λ _, 0; session := Rejected |})
    <$> [ Typed (lit "hello");
          KeyPressed {| key := lit "Enter"; shiftKey := false |}
            (lit "2023-11-14T22:13:20.850Z") clock answer;
          Typed (lit "and then?");
          SendClicked (lit "2023-11-14T22:14:00.000Z") clock Rejected ].

(** What holds of the page between two events. *)
Record consistent (w : World) : Prop := {
  list_tidy : tidy (sessions w);
  ids_truthy : Forall (λ s, truthy (SessionList.session_id s) = true)
                      (sessions w);
  storage_mirrors :
    (localStorage w = None ∧ sessions w = []) ∨ in_sync w;
  selection_shown :
    currentSessionId w = None
    ∨ (currentSessionId w = sessionId w
       ∧ ∃ s, s ∈ sessions w
              ∧ currentSessionId w = Some (SessionList.session_id s));
  not_loading : isLoading w = false;
  list_attached : sessionListRef w = true;
}.

End Events.

(* ================================================================== *)
(** * What a session has been through *)
(* ================================================================== *)

Module History.
Import SessionList Cache.

(** The upserts a session has had since it was last removed, or since the
    start: each with its message and its reading of the clock. *)
Definition record (sessionId : jsstring) (h : list (jsstring * jsstring))
    (op : Op) : list (jsstring * jsstring) :=
  match op with
  | Upsert b lastMessage now =>
    if bool_decide (b = sessionId) then h ++ [(lastMessage, now)] else h
  | Remove b => if bool_decide (b = sessionId) then [] else h
  end.

Definition history (sessionId : jsstring) (ops : list Op)
  : list (jsstring * jsstring) :=
  foldl (record sessionId) [] ops.

(** The summary that goes with a history: none for the empty one;
    otherwise the title of the first message, the last message with its
    time, and the number of messages. *)
Definition summary_of (sessionId : jsstring) (h : list (jsstring * jsstring))
  : list SessionSummary :=
  match h with
  | [] => []
  | (first, _) :: _ =>
    [ {| session_id := sessionId;
         title := titleOf first;
         lastMessage := (List.last h (first, [])).1;
         messageCount := Z.of_nat (List.length h);
         updated_at := (List.last h (first, [])).2 |} ]
  end.

End History.

(* ================================================================== *)
(** * Decimal numerals, as [toString] writes them *)
(* ================================================================== *)

Module Numeral.

(** The code units of the digits of a decimal numeral. *)
Fixpoint units (d : Decimal.uint) : jsstring :=
  match d with
  | Decimal.Nil => []
  | Decimal.D0 d' => 48%N :: units d'
  | Decimal.D1 d' => 49%N :: units d'
  | Decimal.D2 d' => 50%N :: units d'
  | Decimal.D3 d' => 51%N :: units d'
  | Decimal.D4 d' => 52%N :: units d'
  | Decimal.D5 d' => 53%N :: units d'
  | Decimal.D6 d' => 54%N :: units d'
  | Decimal.D7 d' => 55%N :: units d'
  | Decimal.D8 d' => 56%N :: units d'
  | Decimal.D9 d' => 57%N :: units d'
  end.

(** The number a numeral denotes, continued from [acc]. *)
Fixpoint value (d : Decimal.uint) (acc : Z) : Z :=
  match d with
  | Decimal.Nil => acc
  | Decimal.D0 d' => value d' (acc * 10 + 0)
  | Decimal.D1 d' => value d' (acc * 10 + 1)
  | Decimal.D2 d' => value d' (acc * 10 + 2)
  | Decimal.D3 d' => value d' (acc * 10 + 3)
  | Decimal.D4 d' => value d' (acc * 10 + 4)
  | Decimal.D5 d' => value d' (acc * 10 + 5)
  | Decimal.D6 d' => value d' (acc * 10 + 6)
  | Decimal.D7 d' => value d' (acc * 10 + 7)
  | Decimal.D8 d' => value d' (acc * 10 + 8)
  | Decimal.D9 d' => value d' (acc * 10 + 9)
  end.

(** What ends a number in a JSON text written by [stringify]. *)
Definition closes_number (c : N) : bool :=
  bool_decide (c ∈ [44; 93; 125]%N).

End Numeral.

(* ================================================================== *)
(** * The parser has fuel enough *)
(* ================================================================== *)

Module JsonFacts.
Import Json.

Lemma skip_ws_le (s : jsstring) :
  (List.length (skip_ws s) <= List.length s)%nat.
Proof.
  induction s as [|c s IH]; simpl; [lia|].
  destruct (is_ws c); simpl; lia.
Qed.

Lemma strip_prefix_length (p s r : jsstring) :
  strip_prefix p s = Some r →
  List.length s = (List.length p + List.length r)%nat.
Proof.
  revert s. induction p as [|a p IH]; intros s H; simpl in H.
  - by inversion H.
  - destruct s as [|b s]; [discriminate|].
    destruct (a =? b)%N; [|discriminate]. simpl. by rewrite (IH s).
Qed.

Lemma read_digits_length (s : jsstring) (acc : Z) (cnt : nat)
    (x : Z) (cnt' : nat) (r : jsstring) :
  read_digits s acc cnt = (x, cnt', r) →
  (List.length r + cnt' = List.length s + cnt)%nat.
Proof.
  revert acc cnt. induction s as [|c s IH]; intros acc cnt H; simpl in H.
  - inversion H. lia.
  - destruct (digit_val c) as [d|].
    + apply IH in H. simpl. lia.
    + inversion H. simpl. lia.
Qed.

Lemma read_fraction_le (i : Z) (s : jsstring) (m e : Z) (r : jsstring) :
  read_fraction i s = Some (m, e, r) →
  (List.length r <= List.length s)%nat.
Proof.
  unfold read_fraction. intros H.
  destruct s as [|c s]; [by inversion H|].
  destruct (is_ch "." c).
  - destruct (read_digits s i 0) as [[x [|n]] r'] eqn:Hd; [discriminate|].
    apply read_digits_length in Hd. inversion H; subst. simpl. lia.
  - by inversion H.
Qed.

Lemma read_exponent_le (s : jsstring) (e : Z) (r : jsstring) :
  read_exponent s = Some (e, r) →
  (List.length r <= List.length s)%nat.
Proof.
  unfold read_exponent. intros H.
  destruct s as [|c s]; [by inversion H|].
  destruct (is_ch "e" c || is_ch "E" c); [|by inversion H].
  destruct (match s with
            | [] => (false, s)
            | c2 :: s2 =>
              if is_ch "-" c2 then (true, s2)
              else if is_ch "+" c2 then (false, s2) else (false, s)
            end) as [neg s2] eqn:Hsign.
  assert (List.length s2 <= List.length s)%nat.
  { destruct s as [|c2 s']; [by inversion Hsign|].
    destruct (is_ch "-" c2); [inversion Hsign; simpl; lia|].
    destruct (is_ch "+" c2); inversion Hsign; simpl; lia. }
  destruct (read_digits s2 0 0) as [[x [|n]] r'] eqn:Hd; [discriminate|].
  apply read_digits_length in Hd. inversion H; subst. simpl. lia.
Qed.

Lemma parse_number_lt (s : jsstring) (v : JSValue) (r : jsstring) :
  parse_number s = Some (v, r) → (List.length r < List.length s)%nat.
Proof.
  unfold parse_number. intros H.
  destruct (match s with
            | [] => (false, s)
            | c :: s1 => if is_ch "-" c then (true, s1) else (false, s)
            end) as [neg s1] eqn:Hsign.
  assert (Hs1 : (List.length s1 <= List.length s)%nat).
  { destruct s as [|c s']; [by inversion Hsign|].
    destruct (is_ch "-" c); inversion Hsign; simpl; lia. }
  destruct s1 as [|c s2]; [discriminate|].
  destruct (if is_ch "0" c then Some (0, s2)
            else match read_digits (c :: s2) 0 0 with
                 | (_, O, _) => None
                 | (i, S _, s3) => Some (i, s3)
                 end) as [[i s3]|] eqn:Hint; [|discriminate].
  assert (Hs3 : (List.length s3 < List.length (c :: s2))%nat).
  { destruct (is_ch "0" c); [inversion Hint; simpl; lia|].
    destruct (read_digits (c :: s2) 0 0) as [[x [|n]] r'] eqn:Hd;
      [discriminate|].
    apply read_digits_length in Hd. inversion Hint; subst. lia. }
  destruct (read_fraction i s3) as [[[m e1] s4]|] eqn:Hf; [|discriminate].
  apply read_fraction_le in Hf.
  destruct (read_exponent s4) as [[e2 s5]|] eqn:He; [|discriminate].
  apply read_exponent_le in He. inversion H; subst. lia.
Qed.

Lemma parse_string_lt (s t r : jsstring) :
  parse_string s = Some (t, r) → (List.length r < List.length s)%nat.
Proof.
  remember (List.length s) as n eqn:Hn. revert s t r Hn.
  induction n as [n IH] using lt_wf_ind. intros s t r Hn H.
  assert (Hrec : ∀ s' t' r',
            (List.length s' < n)%nat → parse_string s' = Some (t', r') →
            (List.length r' < List.length s')%nat).
  { intros s' t' r' Hlt. by apply (IH (List.length s')). }
  clear IH. subst n.
  destruct s as [|c s1]; [discriminate|]. simpl in H.
  repeat case_match; simplify_eq; simpl in *;
    repeat match goal with
           | Hp : parse_string ?s' = Some _ |- _ =>
             apply Hrec in Hp; [|simpl; lia]
           end;
    simpl in *; lia.
Qed.

(** Collects what is known of the lengths of the texts at hand. *)
Ltac note_lengths :=
  repeat match goal with
         | H : parse_string _ = Some _ |- _ => apply parse_string_lt in H
         | H : parse_number _ = Some _ |- _ => apply parse_number_lt in H
         | H : strip_prefix (lit ?x) _ = Some _ |- _ =>
           apply strip_prefix_length in H;
           let n := eval vm_compute in (List.length (lit x)) in
           change (List.length (lit x)) with n in H
         end;
  repeat match goal with
         | H : context [skip_ws ?s] |- _ =>
           lazymatch goal with
           | _ : (List.length (skip_ws s) <= List.length s)%nat |- _ => fail
           | _ => pose proof (skip_ws_le s)
           end
         end;
  repeat match goal with
         | Hs : skip_ws ?s = _, Hn : context [List.length (skip_ws ?s)] |- _ =>
           rewrite Hs in Hn
         end;
  simpl List.length in *.

(** Splits a successful parse into its steps, and notes what the
    hypotheses on smaller fuel say of the nested ones. *)
Ltac crack :=
  repeat case_match; simplify_eq;
  repeat match goal with
         | Hf : _ <$> _ = Some _ |- _ =>
           apply fmap_Some in Hf as (? & ? & ?)
         end;
  simplify_eq.

(** Replays the steps of a parse on the same text with other fuel. *)
Ltac replay :=
  repeat first
    [ match goal with
      | Heq : ?x = _ |- context [?x] => rewrite Heq
      end
    | match goal with
      | Hfuel : ∀ m, _ → ?f m ?s = Some _ |- context [?f _ ?s] =>
        rewrite Hfuel by (note_lengths; lia)
      end
    | progress cbn [fmap option_fmap option_map] ];
  try reflexivity.

Lemma parse_fuel (n : nat) :
  fuel_enough parse_value n ∧ fuel_enough parse_elements n
  ∧ fuel_enough parse_members n.
Proof.
  induction n as [|n (IHv & IHe & IHm)].
  { split_and!; intros s a r H; discriminate H. }
  split_and!; intros s a r H.
  - destruct s as [|c r0]; [discriminate H|].
    cbn [parse_value] in H. crack.
    all: repeat match goal with
                | Hp : parse_elements _ _ = Some _ |- _ =>
                  apply IHe in Hp as [? ?]
                | Hp : parse_members _ _ = Some _ |- _ =>
                  apply IHm in Hp as [? ?]
                end.
    all: split;
      [note_lengths; lia
      |intros [|m] Hm; [exfalso; note_lengths; lia|]].
    all: cbn [parse_value]; replay.
  - cbn [parse_elements] in H. crack.
    all: repeat match goal with
                | Hp : parse_elements _ _ = Some _ |- _ =>
                  apply IHe in Hp as [? ?]
                | Hp : parse_value _ _ = Some _ |- _ =>
                  apply IHv in Hp as [? ?]
                end.
    all: split;
      [note_lengths; lia
      |intros [|m] Hm; [exfalso; note_lengths; lia|]].
    all: cbn [parse_elements]; replay.
  - cbn [parse_members] in H. crack.
    all: repeat match goal with
                | Hp : parse_members _ _ = Some _ |- _ =>
                  apply IHm in Hp as [? ?]
                | Hp : parse_value _ _ = Some _ |- _ =>
                  apply IHv in Hp as [? ?]
                end.
    all: split;
      [note_lengths; lia
      |intros [|m] Hm; [exfalso; note_lengths; lia|]].
    all: cbn [parse_members]; replay.
Qed.

(** [JSON.parse] in the model does not depend on the fuel it starts with:
    what any fuel parses, the fuel of [parse] parses. *)
Theorem parse_fuel_suffices (text : jsstring) (fuel : nat) (v : JSValue)
    (r : jsstring) :
  parse_value fuel (skip_ws text) = Some (v, r) →
  parse_value (2 * List.length text + 2) (skip_ws text) = Some (v, r).
Proof.
  intros H. destruct (parse_fuel fuel) as (Hv & _ & _).
  destruct (Hv _ _ _ H) as [Hlt Hm]. apply Hm.
  pose proof (skip_ws_le text). lia.
Qed.

Lemma parse_any_fuel (text : jsstring) (v : JSValue) :
  parse text = Normal v
  ↔ ∃ fuel r, parse_value fuel (skip_ws text) = Some (v, r) ∧ skip_ws r = [].
Proof.
  unfold parse. split.
  - intros H.
    destruct (parse_value _ (skip_ws text)) as [[v' r]|] eqn:Hp; [|discriminate].
    destruct (skip_ws r) eqn:Hr; [|discriminate].
    inversion H; subst. by eexists _, _.
  - intros (fuel & r & Hp & Hr).
    by rewrite (parse_fuel_suffices _ _ _ _ Hp), Hr.
Qed.

End JsonFacts.

(* ================================================================== *)
(** * Properties of the session list *)
(* ================================================================== *)

Module CacheFacts.
Import Json SessionList Cache.

Lemma findIndexFrom_none {A} (p : A → bool) (k : Z) (l : list A) :
  Forall (λ x, p x = false) l → findIndexFrom p k l = -1.
Proof.
  intros H. revert k.
  induction H as [|x l Hx _ IH]; intros k; simpl; [done|].
  rewrite Hx. apply IH.
Qed.

Lemma findIndexFrom_found {A} (p : A → bool) (k : Z) (l1 l2 : list A) (x : A) :
  Forall (λ y, p y = false) l1 → p x = true →
  findIndexFrom p k (l1 ++ x :: l2) = k + Z.of_nat (List.length l1).
Proof.
  intros H Hx. revert k.
  induction H as [|y l1 Hy _ IH]; intros k; simpl.
  - rewrite Hx. lia.
  - rewrite Hy, IH. lia.
Qed.

(** A list either has no summary of the session, or splits at the first
    one. *)
Lemma first_of_cases (sid : jsstring) (cache : list SessionSummary) :
  (first_of sid cache = None ∧ Forall (λ s, session_id s ≠ sid) cache)
  ∨ (∃ l1 e l2,
      cache = l1 ++ e :: l2 ∧ Forall (λ s, session_id s ≠ sid) l1
      ∧ session_id e = sid
      ∧ first_of sid cache = Some (List.length l1, e)).
Proof.
  unfold first_of.
  destruct (list_find _ cache) as [[i e]|] eqn:Hf.
  - right. apply list_find_Some in Hf as (Hi & He & Hlt).
    exists (take i cache), e, (drop (S i) cache).
    assert (i < List.length cache)%nat by (by eapply lookup_lt_Some).
    split_and!.
    + by rewrite <- (take_drop_middle cache i e) at 1.
    + apply Forall_lookup. intros j s Hj.
      assert (j < i)%nat.
      { apply lookup_lt_Some in Hj. rewrite length_take in Hj. lia. }
      rewrite lookup_take_lt in Hj by done. eauto.
    + done.
    + rewrite length_take. do 2 f_equal. lia.
  - left. split; [done|].
    apply list_find_None in Hf. done.
Qed.

Lemma strict_eq_false (a b : jsstring) : a ≠ b → strict_eq a b = false.
Proof. intros. unfold strict_eq. by rewrite bool_decide_eq_false. Qed.

Lemma strict_eq_true (a : jsstring) : strict_eq a a = true.
Proof. unfold strict_eq. by rewrite bool_decide_eq_true. Qed.

Lemma no_match (sid : jsstring) (l : list SessionSummary) :
  Forall (λ s, session_id s ≠ sid) l →
  Forall (λ s, strict_eq (session_id s) sid = false) l.
Proof. induction 1; constructor; auto using strict_eq_false. Qed.

(** An upsert for a session without a summary puts a new one in front. *)
Lemma next_absent (sid m now : jsstring) (prev : list SessionSummary) :
  Forall (λ s, session_id s ≠ sid) prev →
  updateSessionList_next sid m now prev = Normal (fresh sid m now :: prev).
Proof.
  intros H. unfold updateSessionList_next, findIndex.
  by rewrite findIndexFrom_none by by apply no_match.
Qed.

(** An upsert for a session with a summary rewrites the first one and
    moves it to the front. *)
Lemma next_present (sid m now : jsstring) (l1 l2 : list SessionSummary)
    (e : SessionSummary) :
  Forall (λ s, session_id s ≠ sid) l1 → session_id e = sid →
  updateSessionList_next sid m now (l1 ++ e :: l2)
  = Normal (touch m now e :: l1 ++ l2).
Proof.
  intros H He. unfold updateSessionList_next, findIndex.
  rewrite (findIndexFrom_found _ 0 l1 l2 e).
  2:{ by apply no_match. }
  2:{ rewrite He. apply strict_eq_true. }
  rewrite Z.add_0_l, Nat2Z.id.
  rewrite (proj2 (Z.leb_le 0 _)) by lia.
  rewrite list_lookup_middle by done.
  unfold splice1.
  rewrite insert_app_r_alt, Nat.sub_diag by done. simpl.
  rewrite drop_app_length, take_app_length. simpl.
  rewrite drop_app_ge by lia.
  by replace (S (List.length l1) - List.length l1)%nat with 1%nat by lia.
Qed.

Lemma next_front (sid m now : jsstring) (e : SessionSummary)
    (cache : list SessionSummary) :
  session_id e = sid →
  updateSessionList_next sid m now (e :: cache)
  = Normal (touch m now e :: cache).
Proof. intros He. by apply (next_present sid m now [] cache e). Qed.

(** What an upsert returns, in every case. *)
Lemma next_spec (sid m now : jsstring) (prev : list SessionSummary) :
  updateSessionList_next sid m now prev
  = Normal (match first_of sid prev with
            | Some (i, e) => touch m now e :: delete i prev
            | None => fresh sid m now :: prev
            end).
Proof.
  destruct (first_of_cases sid prev)
    as [[-> H]|(l1 & e & l2 & -> & H1 & He & ->)].
  - by apply next_absent.
  - rewrite next_present by done. by rewrite delete_middle.
Qed.

Lemma substring_take (s : jsstring) (n : Z) :
  0 <= n <= JS.length s → substring s 0 n = take (Z.to_nat n) s.
Proof.
  intros Hn. unfold substring.
  rewrite (Z.max_l 0 0), (Z.max_l n 0) by lia.
  rewrite (Z.min_l 0 (JS.length s)), (Z.min_l n (JS.length s)) by lia.
  rewrite (Z.min_l 0 n), (Z.max_r 0 n) by lia.
  by rewrite Z.sub_0_r.
Qed.

(** The title rule of the code: above thirty code units, the first thirty
    and three full stops. *)
Lemma titleOf_spec (m : jsstring) :
  titleOf m = if 30 <? JS.length m then take 30 m ++ lit "..." else m.
Proof.
  unfold titleOf. destruct (Z.ltb_spec 30 (JS.length m)); [|done].
  by rewrite substring_take by lia.
Qed.

(** Further upserts for the session at the front of the list keep its
    title, once it has counted a message. *)
Lemma upserts_front (sid : jsstring) (ms : list (jsstring * jsstring))
    (e0 : SessionSummary) (cache : list SessionSummary) :
  session_id e0 = sid → 1 <= messageCount e0 →
  ∃ e, run (upserts sid ms) (e0 :: cache) = Normal (e :: cache)
       ∧ session_id e = sid ∧ title e = title e0
       ∧ messageCount e = messageCount e0 + Z.of_nat (List.length ms).
Proof.
  revert e0. induction ms as [|[m t] ms IH]; intros e0 Hid Hcnt.
  - exists e0. simpl. split_and!; [done..|lia].
  - simpl. rewrite next_front by done.
    destruct (IH (touch m t e0)) as (e & Hrun & He & Ht & Hc);
      [done|simpl; lia|].
    exists e. split_and!; [done..| |].
    + rewrite Ht. simpl. by rewrite (proj2 (Z.eqb_neq _ 0)) by lia.
    + rewrite Hc. simpl. lia.
Qed.

Lemma remove_well_formed (sid : jsstring) (cache : list SessionSummary) :
  well_formed cache → well_formed (deleteSession_next sid cache).
Proof.
  unfold well_formed, deleteSession_next.
  induction cache as [|x l IH]; [done|]. intros [Hc Hd].
  apply Forall_cons_1 in Hc as [Hx Hc].
  rewrite fmap_cons in Hd. apply NoDup_cons in Hd as [Hn Hd].
  destruct (IH (conj Hc Hd)) as [IHc IHd].
  rewrite filter_cons. case_decide; [|done].
  split; [by constructor|].
  rewrite fmap_cons. apply NoDup_cons. split; [|done].
  intros Hin. apply Hn.
  apply list_elem_of_fmap in Hin as (y & -> & Hy).
  apply list_elem_of_filter in Hy as [_ Hy].
  by apply list_elem_of_fmap_2.
Qed.

Lemma step_well_formed (op : Op) (cache : list SessionSummary) :
  well_formed cache → ∃ cache', step op cache = Normal cache' ∧ well_formed cache'.
Proof.
  intros [Hc Hd]. destruct op as [sid m now|sid]; simpl.
  - destruct (first_of_cases sid cache)
      as [[_ H]|(l1 & e & l2 & -> & H1 & He & _)].
    + rewrite next_absent by done. eexists; split; [done|]. split.
      * constructor; [simpl; lia|done].
      * simpl. constructor; [|done].
        intros Hin. apply list_elem_of_fmap in Hin as (s & Hs & Hin).
        rewrite Forall_lookup in H. apply list_elem_of_lookup in Hin as [i Hi].
        by apply (H i s).
    + rewrite next_present by done. eexists; split; [done|].
      apply Forall_app in Hc as [Hc1 Hc2]. apply Forall_cons_1 in Hc2 as [Hce Hc2].
      rewrite fmap_app, fmap_cons in Hd.
      apply NoDup_app in Hd as (Hd1 & Hd12 & Hd2).
      apply NoDup_cons in Hd2 as [Hde Hd2].
      split.
      * constructor; [simpl; lia|]. by apply Forall_app.
      * simpl. rewrite fmap_app. constructor.
        -- rewrite elem_of_app. intros [Hin|Hin]; [|done].
           apply (Hd12 _ Hin). left.
        -- apply NoDup_app. split_and!; [done| |done].
           intros x Hx Hx2. apply (Hd12 x Hx). by right.
  - eexists; split; [done|]. by apply remove_well_formed.
Qed.

Lemma run_well_formed (ops : list Op) (cache : list SessionSummary) :
  well_formed cache → ∃ cache', run ops cache = Normal cache' ∧ well_formed cache'.
Proof.
  revert cache. induction ops as [|op ops IH]; intros cache Hwf; simpl.
  - by exists cache.
  - destruct (step_well_formed op cache Hwf) as (c1 & -> & Hwf1). by apply IH.
Qed.

(** ** The claims about the cached list *)

(** C3, as the code has it.  Title immutability: starting from a list
    with no summary of the session, after [upsert(id, m1)], ...,
    [upsert(id, mn)] the summary of the session is at the front and has
    counted [n] messages, the rest of the list is as it was, and the title
    is the truncation of [m1], whatever [m2], ..., [mn] are: [m1] itself
    when it has at most 30 code units, and otherwise its first 30 code
    units followed by the three full stops ['...'], which the code appends
    where the specification has the one character U+2026. *)
Theorem title_immutable (sid m1 t1 : jsstring)
    (ms : list (jsstring * jsstring)) (cache : list SessionSummary) :
  Forall (λ s, session_id s ≠ sid) cache →
  ∃ e, run (Upsert sid m1 t1 :: upserts sid ms) cache = Normal (e :: cache)
       ∧ session_id e = sid
       ∧ title e = (if 30 <? JS.length m1
                    then take 30 m1 ++ lit "..."
                    else m1)
       ∧ messageCount e = 1 + Z.of_nat (List.length ms).
Proof.
  intros H. simpl. rewrite next_absent by done.
  destruct (upserts_front sid ms (fresh sid m1 t1) cache)
    as (e & Hrun & He & Ht & Hc); [done|simpl; lia|].
  exists e. split_and!; [exact Hrun|exact He| |exact Hc].
  rewrite Ht. cbn [title fresh]. apply titleOf_spec.
Qed.

Lemma title_immutable_witness :
  let other := fresh (lit "s0") (lit "older") (lit "2025-01-01T00:00:00.000Z") in
  let m1 := lit "Summarise the second chapter of the uploaded report" in
  Forall (λ s, session_id s ≠ lit "s1") [other]
  ∧ ∃ e, run (Upsert (lit "s1") m1 (lit "t1")
              :: upserts (lit "s1") [(lit "and then?", lit "t2");
                                     (lit "thanks", lit "t3")]) [other]
         = Normal (e :: [other])
         ∧ session_id e = lit "s1"
         ∧ title e = (if 30 <? JS.length m1
                      then take 30 m1 ++ lit "..."
                      else m1)
         ∧ messageCount e = 1 + Z.of_nat 2.
Proof.
  assert (H : Forall (λ s, session_id s ≠ lit "s1")
                [fresh (lit "s0") (lit "older") (lit "2025-01-01T00:00:00.000Z")]).
  { repeat constructor. vm_compute. discriminate. }
  cbv zeta. split; [exact H|].
  exact (title_immutable (lit "s1")
           (lit "Summarise the second chapter of the uploaded report")
           (lit "t1")
           [(lit "and then?", lit "t2"); (lit "thanks", lit "t3")] _ H).
Defined.

(** C3 as the specification words it, with its truncation to 30
    characters and the one character U+2026, fails on a first message of
    51 code units: after the first upsert and after a second one the title
    ends in three full stops and has 33 code units, not 31. *)
Lemma title_immutable_counterexample :
  let m1 := lit "Summarise the second chapter of the uploaded report" in
  let kept := lit "Summarise the second chapter o..." in
  JS.length m1 = 51
  ∧ run [Upsert (lit "s1") m1 (lit "t1")] []
    = Normal [ {| session_id := lit "s1"; title := kept;
                  lastMessage := m1; messageCount := 1;
                  updated_at := lit "t1" |} ]
  ∧ run (Upsert (lit "s1") m1 (lit "t1")
         :: upserts (lit "s1") [(lit "and then?", lit "t2")]) []
    = Normal [ {| session_id := lit "s1"; title := kept;
                  lastMessage := lit "and then?"; messageCount := 2;
                  updated_at := lit "t2" |} ]
  ∧ spec_title m1 = lit "Summarise the second chapter o…"
  ∧ JS.length kept = 33
  ∧ JS.length (spec_title m1) = 31
  ∧ kept ≠ spec_title m1.
Proof. vm_compute. split_and!; [done..|discriminate]. Qed.

(** C4, as the code has it.  When an upsert writes a title (the session
    has no summary yet, or its summary has counted no message), the title
    is the message itself when that has at most thirty code units, and
    otherwise its first thirty code units followed by three full stops
    ['...'], not by the single character U+2026. *)
Theorem title_truncation (sid m now : jsstring) (cache : list SessionSummary) :
  assigns_title sid cache = true →
  ∃ e rest, updateSessionList_next sid m now cache = Normal (e :: rest)
            ∧ session_id e = sid
            ∧ title e = (if 30 <? JS.length m
                         then take 30 m ++ lit "..." else m).
Proof.
  unfold assigns_title. intros H. rewrite next_spec.
  destruct (first_of_cases sid cache)
    as [[Hf _]|(l1 & e & l2 & -> & H1 & He & Hf)]; rewrite Hf in *.
  - eexists _, _. split; [done|]. split; [done|]. simpl. apply titleOf_spec.
  - eexists _, _. split; [done|]. split; [done|]. simpl.
    rewrite H. apply titleOf_spec.
Qed.

Lemma title_truncation_witness :
  let m := lit "What does chapter three say about retrieval?" in
  assigns_title (lit "s1") [] = true
  ∧ ∃ e rest, updateSessionList_next (lit "s1") m (lit "t1") []
              = Normal (e :: rest)
              ∧ session_id e = lit "s1"
              ∧ title e = (if 30 <? JS.length m
                           then take 30 m ++ lit "..." else m).
Proof.
  split; [reflexivity|].
  exact (title_truncation (lit "s1")
           (lit "What does chapter three say about retrieval?")
           (lit "t1") [] eq_refl).
Defined.

(** C4 as the specification words it fails: for a message of 44 code
    units the title written is the first thirty and ['...'], which is not
    [spec_title], the first thirty and U+2026. *)
Lemma title_truncation_counterexample :
  let m := lit "What does chapter three say about retrieval?" in
  JS.length m = 44
  ∧ updateSessionList_next (lit "s1") m (lit "t1") []
    = Normal [ {| session_id := lit "s1";
                  title := lit "What does chapter three say ab...";
                  lastMessage := m; messageCount := 1;
                  updated_at := lit "t1" |} ]
  ∧ spec_title m = lit "What does chapter three say ab…"
  ∧ lit "What does chapter three say ab..." ≠ spec_title m.
Proof. vm_compute. split_and!; [done..|discriminate]. Qed.

(** C5. Move to front: an upsert puts the summary of its session at the
    front, a new one when the session had none, and otherwise the first
    one of the session, taken out of its place, the others keeping their
    order; so [upsert(A)], [upsert(B)], [upsert(A)] on the empty list gives
    the order [A, B]. *)
Theorem upsert_moves_to_front :
  (∀ (sid m now : jsstring) (cache : list SessionSummary),
     ∃ e, session_id e = sid
          ∧ updateSessionList_next sid m now cache
            = Normal (e :: match first_of sid cache with
                           | Some (i, _) => delete i cache
                           | None => cache
                           end))
  ∧ (∀ A B mA tA mB tB mA' tA' : jsstring,
       A ≠ B →
       ∃ cache, run [Upsert A mA tA; Upsert B mB tB; Upsert A mA' tA'] []
                = Normal cache
                ∧ session_id <$> cache = [A; B]).
Proof.
  split.
  - intros sid m now cache. rewrite next_spec.
    destruct (first_of_cases sid cache)
      as [[Hf _]|(l1 & e & l2 & -> & H1 & He & Hf)]; rewrite Hf.
    + by exists (fresh sid m now).
    + by exists (touch m now e).
  - intros A B mA tA mB tB mA' tA' HAB. cbn [run step].
    rewrite (next_absent A mA tA []) by constructor.
    rewrite (next_absent B mB tB) by (repeat constructor; done).
    pose proof (next_present A mA' tA' [fresh B mB tB] [] (fresh A mA tA))
      as Hthird.
    simpl in Hthird. rewrite Hthird; [by eexists| |done].
    constructor; [simpl; congruence|constructor].
Qed.

Lemma upsert_moves_to_front_witness :
  lit "A" ≠ lit "B"
  ∧ ∃ cache, run [Upsert (lit "A") (lit "first") (lit "t1");
                  Upsert (lit "B") (lit "second") (lit "t2");
                  Upsert (lit "A") (lit "third") (lit "t3")] []
             = Normal cache
             ∧ session_id <$> cache = [lit "A"; lit "B"].
Proof.
  assert (H : lit "A" ≠ lit "B") by (vm_compute; discriminate).
  split; [exact H|].
  exact (proj2 upsert_moves_to_front (lit "A") (lit "B") (lit "first")
           (lit "t1") (lit "second") (lit "t2") (lit "third") (lit "t3") H).
Defined.

(** C8. Removal: on a list with no summary of the session the removal
    changes nothing; on a list in which the session has one summary it
    takes out that summary and nothing else. *)
Theorem remove_absent_or_exact (sid : jsstring) :
  (∀ cache : list SessionSummary,
     Forall (λ s, session_id s ≠ sid) cache →
     deleteSession_next sid cache = cache)
  ∧ (∀ (l1 l2 : list SessionSummary) (e : SessionSummary),
       Forall (λ s, session_id s ≠ sid) l1 →
       Forall (λ s, session_id s ≠ sid) l2 →
       session_id e = sid →
       deleteSession_next sid (l1 ++ e :: l2) = l1 ++ l2).
Proof.
  assert (Hkeep : ∀ cache : list SessionSummary,
            Forall (λ s, session_id s ≠ sid) cache →
            deleteSession_next sid cache = cache).
  { unfold deleteSession_next. induction 1 as [|x l Hx _ IH]; [done|].
    by rewrite filter_cons_True, IH. }
  split; [exact Hkeep|].
  intros l1 l2 e H1 H2 He. unfold deleteSession_next.
  rewrite filter_app, filter_cons_False by (intros Hne; by apply Hne).
  fold (deleteSession_next sid l1). fold (deleteSession_next sid l2).
  by rewrite !Hkeep.
Qed.

Lemma remove_absent_or_exact_witness :
  let a := fresh (lit "A") (lit "first") (lit "t1") in
  let b := fresh (lit "B") (lit "second") (lit "t2") in
  let c := fresh (lit "C") (lit "third") (lit "t3") in
  deleteSession_next (lit "B") [a; c] = [a; c]
  ∧ deleteSession_next (lit "B") ([a] ++ b :: [c]) = [a] ++ [c].
Proof.
  assert (Ha : Forall (λ s, session_id s ≠ lit "B")
                 [fresh (lit "A") (lit "first") (lit "t1")])
    by (repeat constructor; vm_compute; discriminate).
  assert (Hc : Forall (λ s, session_id s ≠ lit "B")
                 [fresh (lit "C") (lit "third") (lit "t3")])
    by (repeat constructor; vm_compute; discriminate).
  split.
  - apply (proj1 (remove_absent_or_exact (lit "B"))).
    repeat constructor; vm_compute; discriminate.
  - exact (proj2 (remove_absent_or_exact (lit "B")) _ _
             (fresh (lit "B") (lit "second") (lit "t2")) Ha Hc eq_refl).
Defined.

(** C9. Every list reached from the empty one by upserts and removals is
    reached without a throw, and every summary in it has counted at least
    one message; so the test [existingSession.messageCount === 0], under
    which an upsert rewrites the title of an existing summary, is false for
    every summary an upsert can find there. *)
Theorem messageCount_positive (ops : list Op) :
  ∃ cache, run ops [] = Normal cache
           ∧ Forall (λ s, 1 <= messageCount s) cache
           ∧ Forall (λ s, (messageCount s =? 0) = false) cache.
Proof.
  destruct (run_well_formed ops []) as (cache & Hrun & Hc & _).
  { split; constructor. }
  exists cache. split_and!; [done..|].
  clear Hrun. induction Hc as [|x l Hx _ IH]; [constructor|].
  constructor; [|done]. apply Z.eqb_neq. lia.
Qed.

(** C10. Frame of an upsert: the summaries of the other sessions stay, each
    with all its fields, and in the same order. *)
Theorem upsert_frame (sid m now : jsstring) (cache : list SessionSummary) :
  ∃ cache', updateSessionList_next sid m now cache = Normal cache'
            ∧ filter (λ s, session_id s ≠ sid) cache'
              = filter (λ s, session_id s ≠ sid) cache.
Proof.
  destruct (first_of_cases sid cache)
    as [[_ H]|(l1 & e & l2 & -> & H1 & He & _)].
  - rewrite next_absent by done. eexists; split; [done|].
    by rewrite filter_cons_False by (intros Hne; by apply Hne).
  - rewrite next_present by done. eexists; split; [done|].
    rewrite filter_cons_False by (intros Hne; by apply Hne).
    rewrite !filter_app.
    by rewrite (filter_cons_False _ e) by (intros Hne; by apply Hne).
Qed.

End CacheFacts.

(* ================================================================== *)
(** * Properties of loading, creating and sending *)
(* ================================================================== *)

Module ControllerFacts.
Import Json SessionList ChatBot Page Outcome.

(** Settles a closed statement by evaluation. *)
Ltac evaluate :=
  cbv zeta;
  repeat match goal with |- _ ∧ _ => split end;
  first [ vm_compute; reflexivity | vm_compute; discriminate ].

(** Reads the field [p] through the setters of the other fields. *)
Ltac read_through p :=
  repeat match goal with
         | |- context [p (?set ?g ?w0)] =>
           first [ change (p (set g w0)) with (p w0)
                 | change (p (set g w0)) with (g (p w0)) ]
         end.

(** Unfolds the computations of [M]. *)
Ltac run_M :=
  cbv [mbind mret M_bind M_ret try_catch try_finally modify gets settle
       throw fetch when].

(** What [loadSessions] does with an item that is absent, empty, or no
    JSON text: it does not throw, leaves the list as it was, which is the
    empty list when the component has just been mounted, and logs the
    error of [JSON.parse] in the last case. *)
Lemma loadSessions_unparsable (storedSessions : option jsstring) (w : Loaded) :
  ∃ w', loadSessions storedSessions w = (Normal tt, w')
        ∧ loaded_isLoading w' = false
        ∧ match storedSessions with
          | None | Some [] =>
            loaded_sessions w' = loaded_sessions w
            ∧ loaded_console w' = loaded_console w
          | Some (c :: s) =>
            ∀ e, parse (c :: s) = Throw e →
                 loaded_sessions w' = loaded_sessions w
                 ∧ loaded_console w'
                   = loaded_console w ++ [(lit "세션 목록 로드 실패:", e)]
          end.
Proof.
  unfold loadSessions. run_M.
  destruct storedSessions as [[|c s]|]; simpl;
    [|destruct (parse (c :: s))|]; eexists; split_and!;
    try reflexivity; try discriminate.
  intros e' He. inversion He; subst. split; reflexivity.
Qed.

(** What [loadSessions] does with a JSON text: the value it parses to
    becomes the list, unchecked. *)
Lemma loadSessions_parsed (text : jsstring) (v : JSValue) (w : Loaded) :
  parse text = Normal v →
  loadSessions (Some text) w
  = (Normal tt,
     {| loaded_sessions := v; loaded_isLoading := false;
        loaded_console := loaded_console w |}).
Proof.
  intros Hparse. destruct text as [|c s].
  { vm_compute in Hparse. discriminate Hparse. }
  unfold loadSessions. run_M. simpl. by rewrite Hparse.
Qed.

(** The callback of [sessions.map] throws nothing but a [TypeError]. *)
Lemma row_throws (session : JSValue) (e : Error) :
  row session = Throw e → e = TypeError.
Proof.
  unfold row, field.
  destruct session; try discriminate;
    repeat match goal with
           | |- context [if ?b then _ else _] => destruct b
           end;
    intros H; inversion H; reflexivity.
Qed.

Lemma rows_null (items : list JSValue) :
  JNull ∈ items → rows items = Throw TypeError.
Proof.
  induction items as [|item items IH]; intros Hin.
  { by apply elem_of_nil in Hin. }
  apply elem_of_cons in Hin as [<-|Hin]; [reflexivity|].
  cbn [rows]. destruct (row item) as [r|e] eqn:Hrow.
  - by rewrite IH.
  - by rewrite (row_throws item e Hrow).
Qed.

(** C7, where the code goes wrong.  [loadSessions] is written to survive
    a bad item: [JSON.parse] is inside a [try] whose [catch] logs that the
    list could not be loaded.  But it guards against texts that are not
    JSON only.  A text that is JSON becomes the list whatever it denotes:
    [loadSessions] returns, logs nothing, and the render that follows
    throws a [TypeError] when the value is [null], a number, a boolean, a
    string that is not empty, an object without a member [length], or an
    array that holds [null], where the specification has the list be the
    empty sequence. *)
Theorem loadSessions_render_throws (text : jsstring) (v : JSValue)
    (w : Loaded) :
  parse text = Normal v →
  unmappable v →
  ∃ w', loadSessions (Some text) w = (Normal tt, w')
        ∧ loaded_isLoading w' = false
        ∧ loaded_console w' = loaded_console w
        ∧ asSessions v ≠ Some []
        ∧ render w' = Throw TypeError.
Proof.
  intros Hparse Hv. eexists. split; [by apply loadSessions_parsed|].
  split; [reflexivity|]. split; [reflexivity|].
  unfold render. cbn [loaded_isLoading loaded_sessions].
  destruct v as [|b|m e|s|items|members]; cbn [unmappable] in Hv.
  - split; [discriminate|reflexivity].
  - split; [discriminate|reflexivity].
  - split; [discriminate|reflexivity].
  - split; [discriminate|]. cbn [length_is_zero].
    by rewrite bool_decide_eq_false_2.
  - assert (Hne : items ≠ []).
    { intros ->. by apply elem_of_nil in Hv. }
    split.
    + destruct items; [done|]. cbn [asSessions].
      intros H. apply mapM_Some in H. inversion H.
    + cbn [length_is_zero]. rewrite bool_decide_eq_false_2 by exact Hne.
      by rewrite rows_null.
  - split; [discriminate|]. cbn [length_is_zero]. by rewrite Hv.
Qed.

Lemma loadSessions_render_throws_witness :
  parse (json_text "{'sessions': []}")
  = Normal (JObject [(lit "sessions", JArray [])])
  ∧ unmappable (JObject [(lit "sessions", JArray [])])
  ∧ ∃ w', loadSessions (Some (json_text "{'sessions': []}")) mounted
          = (Normal tt, w')
          ∧ loaded_isLoading w' = false
          ∧ loaded_console w' = loaded_console mounted
          ∧ asSessions (JObject [(lit "sessions", JArray [])]) ≠ Some []
          ∧ render w' = Throw TypeError.
Proof.
  assert (Hparse : parse (json_text "{'sessions': []}")
                   = Normal (JObject [(lit "sessions", JArray [])]))
    by (vm_compute; reflexivity).
  assert (Hv : unmappable (JObject [(lit "sessions", JArray [])]))
    by (vm_compute; reflexivity).
  exact (conj Hparse (conj Hv
           (loadSessions_render_throws _ _ mounted Hparse Hv))).
Defined.

(** What [createNewSession] does, for every way the request can end. *)
Lemma createNewSession_spec (now : Z) (fetched : Fetched ChatSession.t)
    (w : World) :
  createNewSession now fetched w
  = (Normal tt,
     let w := set_sessionRequests (λ l, l ++ [PostSessions]) w in
     match fetched with
     | Rejected =>
       set_messages (λ _, [seed now fallback_greeting])
         (set_console (λ l, l ++ [(lit "세션 생성 실패:", NetworkError)]) w)
     | Responded {| ok := false |} => w
     | Responded {| ok := true; json := Throw e |} =>
       set_messages (λ _, [seed now fallback_greeting])
         (set_console (λ l, l ++ [(lit "세션 생성 실패:", e)]) w)
     | Responded {| ok := true; json := Normal session |} =>
       set_messages (λ _, [seed now greeting])
         (set_sessionId (λ _, Some (ChatSession.session_id session)) w)
     end).
Proof.
  unfold createNewSession, setSessionId, setMessages, console_error. run_M.
  destruct fetched as [|[[] [session|e]]]; reflexivity.
Qed.

(** C6, as the code has it.  A failed creation never throws and leaves
    [sessionId] as it was, [null] when it was [null].  When the request was
    rejected or its body could not be read, the transcript is seeded with
    one greeting, which is not the greeting of the success path but its
    first sentence. *)
Theorem createNewSession_failure (now : Z) (fetched : Fetched ChatSession.t)
    (w : World) :
  creation_failed fetched = true →
  ∃ w', createNewSession now fetched w = (Normal tt, w')
        ∧ sessionId w' = sessionId w
        ∧ (creation_refused fetched = false →
           messages w' = [seed now fallback_greeting])
        ∧ greeting
          = fallback_greeting
            ++ lit " 대화를 이어가며 더 자세한 질문도 하실 수 있습니다.".
Proof.
  intros Hfail. rewrite createNewSession_spec.
  eexists; split; [reflexivity|].
  split; [|split; [|vm_compute; reflexivity]];
    destruct fetched as [|[[] [session|e]]];
    first [ discriminate Hfail | reflexivity | intros; discriminate
          | intros; reflexivity ].
Qed.

Lemma createNewSession_failure_witness :
  creation_failed Rejected = true
  ∧ ∃ w', createNewSession 1700000000000 Rejected empty_page = (Normal tt, w')
          ∧ sessionId w' = sessionId empty_page
          ∧ (creation_refused Rejected = false →
             messages w' = [seed 1700000000000 fallback_greeting])
          ∧ greeting
            = fallback_greeting
              ++ lit " 대화를 이어가며 더 자세한 질문도 하실 수 있습니다.".
Proof.
  split; [reflexivity|].
  exact (createNewSession_failure 1700000000000 Rejected empty_page eq_refl).
Defined.

(** C6 as the specification words it fails: after a rejected request the
    transcript holds the short greeting, not the greeting of the success
    path; after a status that is not a success status it holds no greeting
    at all. *)
Lemma createNewSession_counterexample :
  let created :=
    Responded {| ok := true;
                 json := Normal {| ChatSession.session_id := lit "s1";
                                   ChatSession.messages := [];
                                   ChatSession.created_at := lit "t0";
                                   ChatSession.updated_at := lit "t0" |} |} in
  let refused := Responded {| ok := false; json := Throw SyntaxError |} in
  text <$> messages (createNewSession 0 created empty_page).2 = [greeting]
  ∧ text <$> messages (createNewSession 0 Rejected empty_page).2
    = [fallback_greeting]
  ∧ fallback_greeting ≠ greeting
  ∧ messages (createNewSession 0 refused empty_page).2 = [].
Proof. evaluate. Qed.

(** The text of the message shown when the body does not report a
    success is [failure_text]. *)
Lemma or_else_failure_text (b : bool) (data : ChatResponse.t) :
  or_else (ChatResponse.message data)
    (or_else (default [] (ChatResponse.error data)) no_answer)
  = failure_text (Responded {| ok := true; json := Normal data |}).
Proof.
  unfold or_else, failure_text.
  destruct (truthy (ChatResponse.message data)); [reflexivity|].
  destruct (ChatResponse.error data) as [e|]; reflexivity.
Qed.

(** C2, as the code has it.  A send that fails appends, after the user
    message, exactly one assistant message, never calls [onSessionUpdate]
    and leaves the cached list and the stored item as they were.  The
    message is the fixed apology when the request was rejected, answered
    with a status that is not a success status, or answered with an
    unreadable body.  When the body was read and does not report a success,
    the message is not fixed: it is the [message] of the body, or else its
    [error], or else a fixed text, other than the apology. *)
Theorem send_failure (props : ChatBotProps) (clock : SendClock)
    (fetched : Fetched ChatResponse.t) (w : World) :
  truthy (trim (inputValue w)) = true →
  send_failed fetched = true →
  ∃ w', send props clock fetched w = (Normal tt, w')
        ∧ messages w'
          = messages w ++ [user_message clock (inputValue w);
                           notice clock (failure_text fetched)]
        ∧ (send_broken fetched = true → failure_text fetched = apology)
        ∧ updates w' = updates w
        ∧ sessions w' = sessions w
        ∧ localStorage w' = localStorage w
        ∧ sessionId w' = sessionId w
        ∧ currentSessionId w' = currentSessionId w
        ∧ isLoading w' = false.
Proof.
  intros Hinput Hfail. unfold send, handleSendMessage.
  rewrite Hinput. cbn [negb].
  unfold setMessages, setInputValue, setIsLoading, setSessionId. run_M.
  destruct fetched as [|[is_ok [data|e]]]; [|destruct is_ok..];
    cbn [negb ok json].
  - (* rejected *)
    eexists; split; [reflexivity|]; cbn.
    rewrite <- app_assoc. split_and!; reflexivity.
  - (* the body was read *)
    assert (Hno : match ChatResponse.success data, ChatResponse.data data with
                  | true, Some _ => False
                  | _, _ => True
                  end).
    { cbn in Hfail. destruct (ChatResponse.success data); [|exact I].
      destruct (ChatResponse.data data); [|exact I].
      discriminate Hfail. }
    rewrite <- (or_else_failure_text true data).
    destruct (ChatResponse.success data), (ChatResponse.data data);
      try contradiction;
      (eexists; split; [reflexivity|]; cbn;
       rewrite <- app_assoc; split_and!; try reflexivity; intros; discriminate).
  - (* a status that is not a success status *)
    eexists; split; [reflexivity|]; cbn.
    rewrite <- app_assoc. split_and!; reflexivity.
  - (* an unreadable body *)
    eexists; split; [reflexivity|]; cbn.
    rewrite <- app_assoc. split_and!; reflexivity.
  - eexists; split; [reflexivity|]; cbn.
    rewrite <- app_assoc. split_and!; reflexivity.
Qed.

Lemma send_failure_witness :
  let w := typed (lit "hello") empty_page in
  truthy (trim (inputValue w)) = true
  ∧ send_failed Rejected = true
  ∧ ∃ w', send (props_on w (lit "t1")) sample_clock Rejected w = (Normal tt, w')
          ∧ messages w'
            = messages w ++ [user_message sample_clock (inputValue w);
                             notice sample_clock (failure_text Rejected)]
          ∧ updates w' = updates w
          ∧ sessions w' = sessions w
          ∧ localStorage w' = localStorage w.
Proof.
  cbv zeta. split; [reflexivity|]. split; [reflexivity|].
  destruct (send_failure (props_on (typed (lit "hello") empty_page) (lit "t1"))
              sample_clock Rejected (typed (lit "hello") empty_page)
              eq_refl eq_refl)
    as (w' & Hrun & Hmsg & _ & Hupd & Hses & Hsto & _).
  exists w'. split; [exact Hrun|]. split; [exact Hmsg|].
  split; [exact Hupd|]. split; [exact Hses|exact Hsto].
Defined.

(** C2 as the specification words it fails when the body reports the
    failure: the message appended is the text the server sent, not the
    fixed apology. *)
Lemma send_failure_counterexample :
  let w := typed (lit "hello") empty_page in
  let fetched :=
    Responded
      {| ok := true;
         json := Normal {| ChatResponse.success := false;
                           ChatResponse.message :=
                             lit "No document has been uploaded yet.";
                           ChatResponse.data := None;
                           ChatResponse.error := None |} |} in
  send_failed fetched = true
  ∧ text <$> messages (send (props_on w (lit "t1")) sample_clock fetched w).2
    = [lit "hello"; lit "No document has been uploaded yet."]
  ∧ lit "No document has been uploaded yet." ≠ apology
  ∧ updates (send (props_on w (lit "t1")) sample_clock fetched w).2 = []
  ∧ sessions (send (props_on w (lit "t1")) sample_clock fetched w).2 = [].
Proof. evaluate. Qed.

(** C1 fails on the code: a successful send that started without a
    session id takes the id of the response into [sessionId] and appends
    the answer, but does not call [onSessionUpdate], whatever the props:
    the test before the call reads the [sessionId] of the render the
    handler was created in, which is still [null].  The cached list and the
    stored item stay as they were. *)
Theorem send_adopted_session_not_reported (props : ChatBotProps)
    (clock : SendClock) (msg : jsstring) (d : ChatResponse.data_t)
    (w : World) :
  truthy (trim (inputValue w)) = true →
  truthy_opt (sessionId w) = false →
  ∃ w', send props clock (success_with msg d) w = (Normal tt, w')
        ∧ sessionId w'
          = (if truthy_opt (ChatResponse.session_id d)
             then ChatResponse.session_id d else sessionId w)
        ∧ messages w'
          = messages w ++ [user_message clock (inputValue w);
                           answer_message clock d]
        ∧ updates w' = updates w
        ∧ sessions w' = sessions w
        ∧ localStorage w' = localStorage w
        ∧ currentSessionId w' = currentSessionId w.
Proof.
  intros Hinput Hnone. unfold send, handleSendMessage, success_with.
  rewrite Hinput, Hnone. cbn [negb ok json andb].
  unfold setMessages, setInputValue, setIsLoading, setSessionId. run_M.
  cbn [negb ok json ChatResponse.success ChatResponse.data].
  rewrite andb_true_r.
  assert (Hskip : ∀ w1 : World,
            match onSessionUpdate props, sessionId w with
            | Some cb, Some sid =>
              if truthy sid
              then λ w2, let (c, w3) :=
                           (Normal tt,
                            set_updates (λ l, l ++ [(sid, inputValue w)]) w2) in
                         match c with
                         | Normal a => cb sid (inputValue w) w3
                         | Throw e => (Throw e, w3)
                         end
              else λ w2, (Normal tt, w2)
            | _, _ => λ w2, (Normal tt, w2)
            end w1 = (Normal tt, w1)).
  { intros w1. destruct (onSessionUpdate props); [|reflexivity].
    destruct (sessionId w) as [sid|]; [|reflexivity].
    cbn in Hnone. rewrite Hnone. reflexivity. }
  destruct (truthy_opt (ChatResponse.session_id d)).
  - unfold call_onSessionUpdate. run_M. rewrite Hskip.
    eexists; split; [reflexivity|]; cbn.
    rewrite <- app_assoc. split_and!; reflexivity.
  - unfold call_onSessionUpdate. run_M. rewrite Hskip.
    eexists; split; [reflexivity|]; cbn.
    rewrite <- app_assoc. split_and!; reflexivity.
Qed.

Lemma send_adopted_session_not_reported_witness :
  let w := typed (lit "hello")
             (createNewSession 1699999990000 Rejected empty_page).2 in
  let d := {| ChatResponse.answer := lit "hi there";
              ChatResponse.sources := [];
              ChatResponse.query := lit "hello";
              ChatResponse.session_id := Some (lit "s1") |} in
  truthy (trim (inputValue w)) = true
  ∧ truthy_opt (sessionId w) = false
  ∧ ∃ w', send (props_on w (lit "t1")) sample_clock (success_with (lit "ok") d) w
          = (Normal tt, w')
          ∧ sessionId w'
            = (if truthy_opt (ChatResponse.session_id d)
               then ChatResponse.session_id d else sessionId w)
          ∧ messages w'
            = messages w ++ [user_message sample_clock (inputValue w);
                             answer_message sample_clock d]
          ∧ updates w' = updates w
          ∧ sessions w' = sessions w
          ∧ localStorage w' = localStorage w
          ∧ currentSessionId w' = currentSessionId w.
Proof.
  cbv zeta. split; [reflexivity|]. split; [reflexivity|].
  exact (send_adopted_session_not_reported
           (props_on (typed (lit "hello")
                        (createNewSession 1699999990000 Rejected empty_page).2)
                     (lit "t1"))
           sample_clock (lit "ok")
           {| ChatResponse.answer := lit "hi there";
              ChatResponse.sources := [];
              ChatResponse.query := lit "hello";
              ChatResponse.session_id := Some (lit "s1") |}
           (typed (lit "hello")
              (createNewSession 1699999990000 Rejected empty_page).2)
           eq_refl eq_refl).
Defined.

(** The failing input of C1, evaluated: the session the response names is
    adopted, nothing is reported and nothing is cached; the next send then
    reports its own message, so the title of the session comes from the
    second message. *)
Lemma send_adopted_session_evaluated :
  let w0 := typed (lit "hello")
              (createNewSession 1699999990000 Rejected empty_page).2 in
  let d1 := {| ChatResponse.answer := lit "hi there";
               ChatResponse.sources := [];
               ChatResponse.query := lit "hello";
               ChatResponse.session_id := Some (lit "s1") |} in
  let w1 := (send (props_on w0 (lit "t1")) sample_clock
               (success_with (lit "ok") d1) w0).2 in
  let d2 := {| ChatResponse.answer := lit "it is about retrieval";
               ChatResponse.sources := [];
               ChatResponse.query := lit "what is chapter 3 about?";
               ChatResponse.session_id := Some (lit "s1") |} in
  let w2 := (send (props_on w1 (lit "t2")) sample_clock
               (success_with (lit "ok") d2)
               (typed (lit "what is chapter 3 about?") w1)).2 in
  sessionId w0 = None
  ∧ sessionId w1 = Some (lit "s1")
  ∧ text <$> messages w1 = [fallback_greeting; lit "hello"; lit "hi there"]
  ∧ updates w1 = []
  ∧ sessions w1 = []
  ∧ localStorage w1 = None
  ∧ updates w2 = [(lit "s1", lit "what is chapter 3 about?")]
  ∧ title <$> sessions w2 = [lit "what is chapter 3 about?"]
  ∧ messageCount <$> sessions w2 = [1].
Proof. evaluate. Qed.

(** A successful send from a render that has a session id calls
    [onSessionUpdate] once, with that id and the text the user sent; with
    the props of [App] the call upserts the cached list, stores it, and
    selects the session when none was selected. *)
Theorem send_success_reported (clock : SendClock) (now msg : jsstring)
    (d : ChatResponse.data_t) (w : World) (sid : jsstring) :
  truthy (trim (inputValue w)) = true →
  sessionId w = Some sid → truthy sid = true →
  sessionListRef w = true →
  ∃ w' cache,
    send (props_on w now) clock (success_with msg d) w = (Normal tt, w')
    ∧ updates w' = updates w ++ [(sid, inputValue w)]
    ∧ updateSessionList_next sid (inputValue w) now (sessions w)
      = Normal cache
    ∧ sessions w' = cache
    ∧ localStorage w' = Some (stringify (sessionsToJSON cache))
    ∧ sessionId w' = Some sid
    ∧ currentSessionId w'
      = (if truthy_opt (currentSessionId w)
         then currentSessionId w else Some sid)
    ∧ messages w'
      = messages w ++ [user_message clock (inputValue w);
                       answer_message clock d].
Proof.
  intros Hinput Hsid Htruthy Href.
  pose proof (CacheFacts.next_spec sid (inputValue w) now (sessions w)) as Hnext.
  unfold send, handleSendMessage, success_with, props_on, App_props.
  rewrite Hinput, Hsid.
  unfold call_onSessionUpdate, handleSessionUpdate, updateSessionList,
    setMessages, setInputValue, setIsLoading, setSessionId, setSessions,
    setCurrentSessionId, localStorage_setItem.
  run_M.
  cbn [negb ok json andb truthy_opt onSessionUpdate
       ChatResponse.success ChatResponse.data].
  rewrite Htruthy. cbn [negb andb]. rewrite andb_false_r.
  read_through sessionListRef. rewrite Href. cbv beta iota.
  read_through sessions. rewrite Hnext.
  destruct (truthy_opt (currentSessionId w));
    (eexists _, _; split; [reflexivity|]; cbn;
     rewrite <- app_assoc, Hsid; split_and!; reflexivity).
Qed.

Lemma send_success_reported_witness :
  let w := typed (lit "hello")
             (set_sessionId (λ _, Some (lit "s1")) empty_page) in
  let d := {| ChatResponse.answer := lit "hi there";
              ChatResponse.sources := [];
              ChatResponse.query := lit "hello";
              ChatResponse.session_id := Some (lit "s1") |} in
  ∃ w' cache,
    send (props_on w (lit "t1")) sample_clock (success_with (lit "ok") d) w
    = (Normal tt, w')
    ∧ updates w' = updates w ++ [(lit "s1", inputValue w)]
    ∧ updateSessionList_next (lit "s1") (inputValue w) (lit "t1") (sessions w)
      = Normal cache
    ∧ sessions w' = cache.
Proof.
  cbv zeta.
  destruct (send_success_reported sample_clock (lit "t1") (lit "ok")
              {| ChatResponse.answer := lit "hi there";
                 ChatResponse.sources := [];
                 ChatResponse.query := lit "hello";
                 ChatResponse.session_id := Some (lit "s1") |}
              (typed (lit "hello")
                 (set_sessionId (λ _, Some (lit "s1")) empty_page))
              (lit "s1") eq_refl eq_refl eq_refl eq_refl)
    as (w' & cache & Hrun & Hupd & Hnext & Hses & _).
  exists w', cache. split; [exact Hrun|]. split; [exact Hupd|].
  split; [exact Hnext|exact Hses].
Defined.

(** The scenario of the specification: a session is created with the id
    ["s1"], then ["hello"] is sent and answered ["hi there"].  The
    transcript has the greeting and the two messages; the cached list has
    one summary, of ["s1"], entitled ["hello"], with one message; the
    stored item is that list as JSON, and parses back to it; [App] has
    selected the session. *)
Lemma end_to_end_scenario :
  let created :=
    Responded {| ok := true;
                 json := Normal {| ChatSession.session_id := lit "s1";
                                   ChatSession.messages := [];
                                   ChatSession.created_at := lit "t0";
                                   ChatSession.updated_at := lit "t0" |} |} in
  let d := {| ChatResponse.answer := lit "hi there";
              ChatResponse.sources := [];
              ChatResponse.query := lit "hello";
              ChatResponse.session_id := Some (lit "s1") |} in
  let w0 := typed (lit "hello")
              (createNewSession 1699999990000 created empty_page).2 in
  let w1 := (send (props_on w0 (lit "2023-11-14T22:13:20.850Z")) sample_clock
               (success_with (lit "ok") d) w0).2 in
  let summary := {| SessionList.session_id := lit "s1"; title := lit "hello";
                    lastMessage := lit "hello"; messageCount := 1;
                    updated_at := lit "2023-11-14T22:13:20.850Z" |} in
  text <$> messages w1 = [greeting; lit "hello"; lit "hi there"]
  ∧ isUser <$> messages w1 = [false; true; false]
  ∧ sessions w1 = [summary]
  ∧ updates w1 = [(lit "s1", lit "hello")]
  ∧ localStorage w1
    = Some (json_text "[{'session_id':'s1','title':'hello','lastMessage':'hello','messageCount':1,'updated_at':'2023-11-14T22:13:20.850Z'}]")
  ∧ (parse <$> localStorage w1) = Some (Normal (sessionsToJSON [summary]))
  ∧ asSessions (sessionsToJSON [summary]) = Some [summary]
  ∧ currentSessionId w1 = Some (lit "s1")
  ∧ sessionId w1 = Some (lit "s1").
Proof. evaluate. Qed.

Lemma snoc_ne {A} (l : list A) (x : A) : l ++ [x] ≠ l.
Proof.
  intros H. apply (f_equal List.length) in H.
  rewrite length_app in H. simpl in H. lia.
Qed.

(** A deletion that is not confirmed, or that the remote store does not
    acknowledge, changes neither the cached list nor the stored item nor
    the selection. *)
Theorem deleteSession_refused (cur : option jsstring) (onNew : M World unit)
    (confirmed : bool) (fetched : Fetched unit) (sid : jsstring) (w : World) :
  confirmed && deleted_remotely fetched = false →
  ∃ w', deleteSession cur onNew confirmed fetched sid w = (Normal tt, w')
        ∧ sessions w' = sessions w
        ∧ localStorage w' = localStorage w
        ∧ currentSessionId w' = currentSessionId w
        ∧ (confirmed = true → alerts w' ≠ alerts w).
Proof.
  intros Hno. unfold deleteSession, alert, console_error. run_M.
  destruct confirmed; cbn [negb].
  - destruct fetched as [|[[] body]]; [|discriminate Hno|]; cbn [ok];
      (eexists; split; [reflexivity|]; cbn; split_and!; try reflexivity;
       intros _; apply snoc_ne).
  - eexists; split; [reflexivity|]. split_and!; try reflexivity. discriminate.
Qed.

Lemma deleteSession_refused_witness :
  true && deleted_remotely (Responded {| ok := false; json := Normal tt |})
  = false
  ∧ ∃ w', deleteSession None handleNewSession true
            (Responded {| ok := false; json := Normal tt |}) (lit "s1")
            empty_page
          = (Normal tt, w')
          ∧ sessions w' = sessions empty_page
          ∧ localStorage w' = localStorage empty_page
          ∧ currentSessionId w' = currentSessionId empty_page
          ∧ (true = true → alerts w' ≠ alerts empty_page).
Proof.
  split; [reflexivity|].
  exact (deleteSession_refused None handleNewSession true
           (Responded {| ok := false; json := Normal tt |}) (lit "s1")
           empty_page eq_refl).
Defined.

(** A confirmed deletion the remote store acknowledges takes the session
    out of the cached list, stores the list, and, when the session was the
    selected one, has [App] unselect it. *)
Theorem deleteSession_done (cur : option jsstring) (body : completion unit)
    (sid : jsstring) (w : World) :
  ∃ w', deleteSession cur handleNewSession true
          (Responded {| ok := true; json := body |}) sid w
        = (Normal tt, w')
        ∧ sessions w' = deleteSession_next sid (sessions w)
        ∧ localStorage w'
          = Some (stringify (sessionsToJSON (deleteSession_next sid (sessions w))))
        ∧ currentSessionId w'
          = (if bool_decide (cur = Some sid) then None else currentSessionId w).
Proof.
  unfold deleteSession, handleNewSession, setSessions, setCurrentSessionId,
    localStorage_setItem.
  run_M. cbn [negb ok].
  destruct (bool_decide (cur = Some sid));
    (eexists; split; [reflexivity|]; cbn; split_and!; reflexivity).
Qed.

End ControllerFacts.

(* ================================================================== *)
(** * Properties of the rest of the chat component *)
(* ================================================================== *)

Module LifecycleFacts.
Import Json SessionList ChatBot Page Outcome Lifecycle.

Ltac run_M := ControllerFacts.run_M.
Ltac read_through p := ControllerFacts.read_through p.

Lemma trimStart_nil (s : jsstring) :
  trimStart s = [] ↔ Forall (λ c, isWhiteSpace c = true) s.
Proof.
  induction s as [|c s IH]; simpl; [by split|].
  destruct (isWhiteSpace c) eqn:Hc.
  - rewrite IH. split; [by constructor|]. by inversion 1.
  - split; [discriminate|]. inversion 1; congruence.
Qed.

Lemma trimStart_suffix (s : jsstring) :
  ∃ blanks, s = blanks ++ trimStart s
            ∧ Forall (λ c, isWhiteSpace c = true) blanks.
Proof.
  induction s as [|c s (blanks & Hs & Hb)]; simpl; [by exists []|].
  destruct (isWhiteSpace c) eqn:Hc.
  - exists (c :: blanks). split; [simpl; congruence|by constructor].
  - by exists [].
Qed.

(** [s.trim()] is empty exactly when [s] is white space throughout. *)
Lemma trim_nil (s : jsstring) :
  trim s = [] ↔ Forall (λ c, isWhiteSpace c = true) s.
Proof.
  unfold trim. split.
  - intros H. apply (f_equal reverse) in H.
    rewrite reverse_involutive, reverse_nil in H.
    apply trimStart_nil, Forall_reverse in H.
    destruct (trimStart_suffix s) as (blanks & Hs & Hb).
    rewrite reverse_involutive in H.
    rewrite Hs. apply Forall_app. split; [exact Hb|exact H].
  - intros H. apply trimStart_nil in H. by rewrite H.
Qed.

(** A send of an input that is empty or white space throughout does
    nothing: no message, no request, no change of any state; neither by
    the button nor by a key. *)
Theorem send_blank_ignored (props : ChatBotProps) (clock : SendClock)
    (fetched : Fetched ChatResponse.t) (e : KeyboardEvent) (w : World) :
  Forall (λ c, isWhiteSpace c = true) (inputValue w) →
  send props clock fetched w = (Normal tt, w)
  ∧ ∃ prevented,
      handleKeyPress (send props clock fetched) e w = (Normal prevented, w).
Proof.
  intros Hblank. apply trim_nil in Hblank.
  assert (Hsend : send props clock fetched w = (Normal tt, w)).
  { unfold send, handleSendMessage. by rewrite Hblank. }
  split; [exact Hsend|].
  unfold handleKeyPress.
  destruct (strict_eq (key e) (lit "Enter") && negb (shiftKey e)).
  - exists true. run_M. by rewrite Hsend.
  - by exists false.
Qed.

Lemma send_blank_ignored_witness :
  let w := typed (lit "  	 ") empty_page in
  Forall (λ c, isWhiteSpace c = true) (inputValue w)
  ∧ send (props_on w (lit "t1")) sample_clock Rejected w = (Normal tt, w).
Proof.
  assert (H : Forall (λ c, isWhiteSpace c = true)
                (inputValue (typed (lit "  	 ") empty_page))).
  { vm_compute. repeat constructor. }
  cbv zeta. split; [exact H|].
  exact (proj1 (send_blank_ignored
                  (props_on (typed (lit "  	 ") empty_page) (lit "t1"))
                  sample_clock Rejected
                  {| key := lit "Enter"; shiftKey := false |}
                  (typed (lit "  	 ") empty_page) H)).
Defined.

(** What every send of an input that is not blank comes to, with the
    props of [App]. *)
Lemma send_App_fields (cur : option jsstring) (now : jsstring)
    (clock : SendClock) (fetched : Fetched ChatResponse.t) (w : World) :
  truthy (trim (inputValue w)) = true →
  ∃ w' reply,
    send (App_props cur now) clock fetched w = (Normal tt, w')
    ∧ messages w' = messages w ++ [user_message clock (inputValue w); reply]
    ∧ isUser reply = false
    ∧ requests w' = requests w ++ [request_of w]
    ∧ inputValue w' = []
    ∧ isLoading w' = false
    ∧ (currentSessionId w' = currentSessionId w
       ∨ currentSessionId w' = sessionId w').
Proof.
  intros Hinput. unfold send, handleSendMessage, App_props, request_of.
  rewrite Hinput.
  unfold call_onSessionUpdate, handleSessionUpdate, updateSessionList,
    setMessages, setInputValue, setIsLoading, setSessionId, setSessions,
    setCurrentSessionId, localStorage_setItem.
  run_M. cbn [negb onSessionUpdate].
  destruct fetched as [|[is_ok [data|e]]]; [|destruct is_ok..];
    cbn [negb ok json].
  2:{ destruct (ChatResponse.success data), (ChatResponse.data data) as [d|].
      2-4: destruct (truthy_opt (sessionId w));
        (eexists _, _; split; [reflexivity|]; cbn;
         rewrite <- app_assoc; split_and!;
         first [reflexivity | left; reflexivity]).
      destruct (sessionId w) as [sid|] eqn:Hsid; cbn [truthy_opt].
      - destruct (truthy sid); cbn [negb andb]; rewrite ?andb_false_r;
          cbv beta iota.
        + read_through sessionListRef.
          destruct (sessionListRef w); cbv beta iota.
          * read_through sessions.
            rewrite (CacheFacts.next_spec sid (inputValue w) now (sessions w)).
            destruct (truthy_opt cur);
              (eexists _, _; split; [reflexivity|]; cbn;
               rewrite <- app_assoc, Hsid; split_and!;
               first [reflexivity | left; reflexivity | right; reflexivity]).
          * destruct (truthy_opt cur);
              (eexists _, _; split; [reflexivity|]; cbn;
               rewrite <- app_assoc, Hsid; split_and!;
               first [reflexivity | left; reflexivity | right; reflexivity]).
        + destruct (truthy_opt (ChatResponse.session_id d));
            (eexists _, _; split; [reflexivity|]; cbn;
             rewrite <- app_assoc; split_and!;
             first [reflexivity | left; reflexivity]).
      - rewrite andb_true_r.
        destruct (truthy_opt (ChatResponse.session_id d));
          (eexists _, _; split; [reflexivity|]; cbn;
           rewrite <- app_assoc; split_and!;
           first [reflexivity | left; reflexivity]). }
  all: destruct (truthy_opt (sessionId w));
    (eexists _, _; split; [reflexivity|]; cbn;
     rewrite <- app_assoc; split_and!;
     first [reflexivity | left; reflexivity]).
Qed.

(** With the props of [App], a send of an input that is not blank
    never throws, whatever the request comes to: it posts exactly one
    request, with the session id of the render when there is one, appends
    the user message and after it exactly one assistant message, clears the
    input and ends with [isLoading] false. *)
Theorem send_accepted_shape (cur : option jsstring) (now : jsstring)
    (clock : SendClock) (fetched : Fetched ChatResponse.t) (w : World) :
  truthy (trim (inputValue w)) = true →
  ∃ w' reply,
    send (App_props cur now) clock fetched w = (Normal tt, w')
    ∧ messages w' = messages w ++ [user_message clock (inputValue w); reply]
    ∧ isUser reply = false
    ∧ requests w' = requests w ++ [request_of w]
    ∧ inputValue w' = []
    ∧ isLoading w' = false.
Proof.
  intros Hinput.
  destruct (send_App_fields cur now clock fetched w Hinput)
    as (w' & reply & Hrun & Hmsg & Hbot & Hreq & Hin & Hload & _).
  exists w', reply. split_and!; assumption.
Qed.

Lemma send_accepted_shape_witness :
  let w := typed (lit "hello") empty_page in
  truthy (trim (inputValue w)) = true
  ∧ ∃ w' reply,
      send (App_props None (lit "t1")) sample_clock Rejected w = (Normal tt, w')
      ∧ messages w' = messages w ++ [user_message sample_clock (inputValue w);
                                     reply]
      ∧ isUser reply = false
      ∧ requests w' = requests w ++ [request_of w]
      ∧ inputValue w' = []
      ∧ isLoading w' = false.
Proof.
  cbv zeta. split; [reflexivity|].
  exact (send_accepted_shape None (lit "t1") sample_clock Rejected
           (typed (lit "hello") empty_page) eq_refl).
Defined.

(** A send never makes the chat load or clear its transcript: when
    the first answered send of a session has [App] select that session,
    the effect on the [sessionId] prop finds the chat already on it, and
    in every other case the prop does not change. *)
Theorem send_never_reloads (now : jsstring) (clock : SendClock)
    (fetched : Fetched ChatResponse.t) (dateOf : jsstring → Z)
    (session : Fetched ChatSession.t) (w : World) :
  then_rerender (send (props_on w now) clock fetched) dateOf session w
  = send (props_on w now) clock fetched w.
Proof.
  unfold then_rerender.
  destruct (truthy (trim (inputValue w))) eqn:Hinput.
  - destruct (send_App_fields (currentSessionId w) now clock fetched w Hinput)
      as (w' & reply & Hrun & _ & _ & _ & _ & _ & Hsel).
    unfold props_on. rewrite Hrun. unfold rerender, propSessionId_effect.
    destruct Hsel as [Hsel|Hsel]; rewrite Hsel.
    + by rewrite bool_decide_eq_false_2 by (intros Hne; by apply Hne).
    + rewrite (bool_decide_eq_false_2 (sessionId w' ≠ sessionId w'))
        by (intros Hne; by apply Hne).
      by case_bool_decide.
  - assert (Hsame : send (props_on w now) clock fetched w = (Normal tt, w)).
    { unfold send, handleSendMessage. by rewrite Hinput. }
    rewrite Hsame. unfold rerender.
    by rewrite bool_decide_eq_false_2 by (intros Hne; by apply Hne).
Qed.

(** What [loadSession] leaves, for every way the request can end. *)
Lemma loadSession_fields (dateOf : jsstring → Z)
    (fetched : Fetched ChatSession.t) (sid : jsstring) (w : World) :
  ∃ w', loadSession dateOf fetched sid w = (Normal tt, w')
        ∧ text <$> messages w' = ChatSession.content <$> loaded fetched
        ∧ isUser <$> messages w'
          = (λ m, bool_decide (ChatSession.role m = lit "user"))
              <$> loaded fetched
        ∧ (∀ i m, messages w' !! i = Some m →
                  id m = lit "loaded-" ++ toString (Z.of_nat i)
                  ∧ sources m = None)
        ∧ sessionId w' = sessionId w
        ∧ currentSessionId w' = currentSessionId w
        ∧ sessions w' = sessions w
        ∧ localStorage w' = localStorage w
        ∧ requests w' = requests w
        ∧ updates w' = updates w.
Proof.
  unfold loadSession, setMessages, console_error. run_M.
  destruct fetched as [|[[] [session|e]]]; cbn [ok json loaded];
    (eexists; split; [reflexivity|]); cbn; split_and!; try reflexivity;
    try (intros i m Hm; rewrite lookup_nil in Hm; discriminate Hm).
  - rewrite fmap_imap. apply imap_const.
  - rewrite fmap_imap. apply imap_const.
  - intros i m Hm. rewrite list_lookup_imap in Hm.
    destruct (ChatSession.messages session !! i); inversion Hm.
    split; reflexivity.
Qed.

(** [loadSession] never throws and replaces the transcript.  When the
    session arrives, the transcript has its messages in their order, each
    with the text of its content, from the user exactly when its role is
    ["user"], with the id ["loaded-"] and its index, and without sources.
    When the request is rejected, refused or unreadable, the transcript
    becomes empty instead of keeping what it showed.  The session id of
    the chat, the selection, the cached list and the stored item are not
    touched. *)
Theorem loadSession_replaces (dateOf : jsstring → Z)
    (fetched : Fetched ChatSession.t) (sid : jsstring) (w : World) :
  ∃ w', loadSession dateOf fetched sid w = (Normal tt, w')
        ∧ text <$> messages w' = ChatSession.content <$> loaded fetched
        ∧ isUser <$> messages w'
          = (λ m, bool_decide (ChatSession.role m = lit "user"))
              <$> loaded fetched
        ∧ (∀ i m, messages w' !! i = Some m →
                  id m = lit "loaded-" ++ toString (Z.of_nat i)
                  ∧ sources m = None)
        ∧ sessionId w' = sessionId w
        ∧ currentSessionId w' = currentSessionId w
        ∧ sessions w' = sessions w
        ∧ localStorage w' = localStorage w.
Proof.
  destruct (loadSession_fields dateOf fetched sid w)
    as (w' & Hrun & Ht & Hu & Hid & Hs & Hc & Hl & Hst & _).
  exists w'. split_and!; assumption.
Qed.

(** Choosing in the list a session that is neither selected nor the
    one of the chat selects it, puts the chat on it and replaces the
    transcript by what [loadSession] brings, empty when the load fails;
    the cached list is not touched. *)
Theorem select_session_switches (dateOf : jsstring → Z)
    (fetched : Fetched ChatSession.t) (sid : jsstring) (w : World) :
  truthy sid = true →
  currentSessionId w ≠ Some sid →
  sessionId w ≠ Some sid →
  ∃ w', then_rerender (handleSessionSelect sid) dateOf fetched w
        = (Normal tt, w')
        ∧ currentSessionId w' = Some sid
        ∧ sessionId w' = Some sid
        ∧ text <$> messages w' = ChatSession.content <$> loaded fetched
        ∧ sessions w' = sessions w
        ∧ localStorage w' = localStorage w.
Proof.
  intros Hsid Hcur Hchat.
  unfold then_rerender, handleSessionSelect, setCurrentSessionId. run_M.
  unfold rerender. cbn [currentSessionId set_currentSessionId].
  rewrite bool_decide_eq_true_2 by congruence.
  unfold propSessionId_effect.
  read_through sessionId.
  rewrite bool_decide_eq_true_2 by congruence.
  cbn [truthy_opt]. rewrite Hsid.
  change (default [] (Some sid)) with sid.
  unfold setSessionId. run_M.
  destruct (loadSession_fields dateOf fetched sid
              (set_sessionId (λ _, Some sid)
                 (set_currentSessionId (λ _, Some sid) w)))
    as (w' & Hrun & Ht & _ & _ & Hs & Hc & Hl & Hst & _).
  rewrite Hrun. exists w'. split_and!; try assumption; reflexivity.
Qed.

Lemma select_session_switches_witness :
  let fetched :=
    Responded
      {| ok := true;
         json := Normal
           {| ChatSession.session_id := lit "s2";
              ChatSession.messages :=
                [ {| ChatSession.role := lit "user";
                     ChatSession.content := lit "hello";
                     ChatSession.timestamp := lit "2025-01-01T10:00:00" |};
                  {| ChatSession.role := lit "assistant";
                     ChatSession.content := lit "hi there";
                     ChatSession.timestamp := lit "2025-01-01T10:00:01" |} ];
              ChatSession.created_at := lit "2025-01-01T10:00:00";
              ChatSession.updated_at := lit "2025-01-01T10:00:01" |} |} in
  ∃ w', then_rerender (handleSessionSelect (lit "s2")) (λ _, 0) fetched
          empty_page
        = (Normal tt, w')
        ∧ currentSessionId w' = Some (lit "s2")
        ∧ sessionId w' = Some (lit "s2")
        ∧ text <$> messages w' = ChatSession.content <$> loaded fetched
        ∧ sessions w' = sessions empty_page
        ∧ localStorage w' = localStorage empty_page.
Proof.
  cbv zeta.
  refine (select_session_switches (λ _, 0) _ (lit "s2") empty_page
            eq_refl _ _); discriminate.
Defined.

(** Choosing a session changes nothing in the chat when it is the
    one already selected, and only the selection when the chat is
    already on it: no load, and the transcript stays. *)
Theorem select_session_same (dateOf : jsstring → Z)
    (fetched : Fetched ChatSession.t) (sid : jsstring) (w : World) :
  currentSessionId w = Some sid ∨ sessionId w = Some sid →
  ∃ w', then_rerender (handleSessionSelect sid) dateOf fetched w
        = (Normal tt, w')
        ∧ currentSessionId w' = Some sid
        ∧ sessionId w' = sessionId w
        ∧ messages w' = messages w
        ∧ console w' = console w.
Proof.
  intros Hsame.
  unfold then_rerender, handleSessionSelect, setCurrentSessionId. run_M.
  unfold rerender. cbn [currentSessionId set_currentSessionId].
  case_bool_decide as Hchange.
  - destruct Hsame as [Hcur|Hchat]; [congruence|].
    unfold propSessionId_effect. read_through sessionId.
    rewrite bool_decide_eq_false_2 by (intros Hne; by apply Hne).
    eexists; split; [reflexivity|]. by split_and!.
  - eexists; split; [reflexivity|]. by split_and!.
Qed.

Lemma select_session_same_witness :
  let w := set_currentSessionId (λ _, Some (lit "s1"))
             (set_sessionId (λ _, Some (lit "s1")) empty_page) in
  (currentSessionId w = Some (lit "s1") ∨ sessionId w = Some (lit "s1"))
  ∧ ∃ w', then_rerender (handleSessionSelect (lit "s1")) (λ _, 0) Rejected w
          = (Normal tt, w')
          ∧ currentSessionId w' = Some (lit "s1")
          ∧ sessionId w' = sessionId w
          ∧ messages w' = messages w
          ∧ console w' = console w.
Proof.
  cbv zeta. split; [left; reflexivity|].
  exact (select_session_same (λ _, 0) Rejected (lit "s1")
           (set_currentSessionId (λ _, Some (lit "s1"))
              (set_sessionId (λ _, Some (lit "s1")) empty_page))
           (or_introl eq_refl)).
Defined.

(** Deleting the session that is selected and shown, once confirmed
    and acknowledged, takes it out of the cached list, stores the list,
    unselects it, and leaves the chat without session and with an empty
    transcript.  The [DELETE] is the only request made: nothing is posted
    to [/chat], no session is created and none is loaded. *)
Theorem delete_selected_resets (dateOf : jsstring → Z)
    (session : Fetched ChatSession.t) (body : completion unit)
    (sid : jsstring) (w : World) :
  currentSessionId w = Some sid →
  sessionId w = Some sid →
  ∃ w', then_rerender
          (deleteSession (currentSessionId w) handleNewSession true
             (Responded {| ok := true; json := body |}) sid)
          dateOf session w
        = (Normal tt, w')
        ∧ currentSessionId w' = None
        ∧ sessionId w' = None
        ∧ messages w' = []
        ∧ sessions w' = deleteSession_next sid (sessions w)
        ∧ localStorage w'
          = Some (stringify (sessionsToJSON (deleteSession_next sid (sessions w))))
        ∧ requests w' = requests w
        ∧ sessionRequests w' = sessionRequests w ++ [DeleteSession sid].
Proof.
  intros Hcur Hchat.
  unfold then_rerender, deleteSession, handleNewSession, setSessions,
    setCurrentSessionId, localStorage_setItem.
  run_M. cbn [negb ok]. rewrite Hcur.
  rewrite bool_decide_eq_true_2 by reflexivity. cbv beta iota.
  unfold rerender. read_through currentSessionId. rewrite Hcur.
  rewrite bool_decide_eq_true_2 by discriminate.
  unfold propSessionId_effect. read_through sessionId. rewrite Hchat.
  rewrite bool_decide_eq_true_2 by discriminate.
  unfold setSessionId, setMessages. run_M. cbn [truthy_opt].
  eexists; split; [reflexivity|]. cbn. split_and!; reflexivity.
Qed.

Lemma delete_selected_resets_witness :
  let w := set_currentSessionId (λ _, Some (lit "s1"))
             (set_sessionId (λ _, Some (lit "s1"))
                (set_sessions
                   (λ _, [Cache.fresh (lit "s1") (lit "hello") (lit "t1")])
                   empty_page)) in
  ∃ w', then_rerender
          (deleteSession (currentSessionId w) handleNewSession true
             (Responded {| ok := true; json := Normal tt |}) (lit "s1"))
          (λ _, 0) Rejected w
        = (Normal tt, w')
        ∧ currentSessionId w' = None
        ∧ sessionId w' = None
        ∧ messages w' = []
        ∧ sessions w' = deleteSession_next (lit "s1") (sessions w)
        ∧ localStorage w'
          = Some (stringify
                    (sessionsToJSON (deleteSession_next (lit "s1") (sessions w))))
        ∧ requests w' = requests w
        ∧ sessionRequests w' = sessionRequests w ++ [DeleteSession (lit "s1")].
Proof.
  cbv zeta.
  exact (delete_selected_resets (λ _, 0) Rejected (Normal tt) (lit "s1")
           (set_currentSessionId (λ _, Some (lit "s1"))
              (set_sessionId (λ _, Some (lit "s1"))
                 (set_sessions
                    (λ _, [Cache.fresh (lit "s1") (lit "hello") (lit "t1")])
                    empty_page)))
           eq_refl eq_refl).
Defined.

(** The button for a new conversation, which calls [handleNewSession],
    makes no request at all: nothing is posted to [/chat], and no session
    is created, loaded or deleted.  When a session was selected and the
    chat was on one, the chat is left without session and with an empty
    transcript.  When no session was selected, nothing changes at all: the
    chat keeps its session and its transcript. *)
Theorem new_conversation_resets (dateOf : jsstring → Z)
    (session : Fetched ChatSession.t) (w : World) :
  ∃ w', then_rerender handleNewSession dateOf session w = (Normal tt, w')
        ∧ currentSessionId w' = None
        ∧ requests w' = requests w
        ∧ sessionRequests w' = sessionRequests w
        ∧ sessions w' = sessions w
        ∧ (currentSessionId w ≠ None → sessionId w ≠ None →
           sessionId w' = None ∧ messages w' = [])
        ∧ (currentSessionId w = None →
           sessionId w' = sessionId w ∧ messages w' = messages w).
Proof.
  unfold then_rerender, handleNewSession, setCurrentSessionId. run_M.
  unfold rerender. cbn [currentSessionId set_currentSessionId].
  case_bool_decide as Hchange.
  - unfold propSessionId_effect. read_through sessionId.
    case_bool_decide as Hchat.
    + unfold setSessionId, setMessages. run_M. cbn [truthy_opt].
      eexists; split; [reflexivity|]. cbn.
      split_and!; try reflexivity; [by intros|congruence].
    + eexists; split; [reflexivity|]. cbn.
      split_and!; try reflexivity; [|by intros].
      intros _ Hs. exfalso. apply Hs. apply dec_stable. congruence.
  - eexists; split; [reflexivity|]. cbn.
    split_and!; try reflexivity; [|by intros].
    intros Hs. exfalso. apply Hs. apply dec_stable. congruence.
Qed.

(** The chat component without props sends as the one with props does
    when it is given no callback, and starts a new conversation as that
    one does when it is given no [onNewSession]: it empties the
    transcript, forgets the session and asks for a new one. *)
Theorem standalone_agrees (p : option jsstring) (input : jsstring)
    (sid : option jsstring) (clock : SendClock)
    (fetched : Fetched ChatResponse.t) (now : Z)
    (created : Fetched ChatSession.t) (w : World) :
  Standalone.handleSendMessage input sid clock fetched w
  = handleSendMessage {| propSessionId := p; onSessionUpdate := None;
                         onNewSession := None |} input sid clock fetched w
  ∧ Standalone.startNewConversation now created w
    = startNewConversation {| propSessionId := p; onSessionUpdate := None;
                              onNewSession := None |} now created w
  ∧ ∃ w', Standalone.startNewConversation now created w = (Normal tt, w')
          ∧ (creation_failed created = false →
             text <$> messages w' = [greeting] ∧ sessionId w' ≠ None)
          ∧ (creation_failed created = true → sessionId w' = None).
Proof.
  split; [|split].
  - unfold Standalone.handleSendMessage, handleSendMessage.
    destruct (negb (truthy (trim input))); [reflexivity|].
    unfold setMessages, setInputValue, setIsLoading, setSessionId. run_M.
    cbn [onSessionUpdate].
    destruct fetched as [|[is_ok [data|e]]]; [|destruct is_ok..];
      cbn [negb ok json]; reflexivity.
  - reflexivity.
  - unfold Standalone.startNewConversation, Standalone.createNewSession,
      setMessages, setSessionId.
    run_M. rewrite ControllerFacts.createNewSession_spec.
    eexists; split; [reflexivity|].
    destruct created as [|[[] [session|e]]]; cbn;
      split; intros H; try discriminate H; try reflexivity.
    split; [reflexivity|discriminate].
Qed.

End LifecycleFacts.

(* ================================================================== *)
(** * More on the cached list *)
(* ================================================================== *)

Module CacheMore.
Import Json SessionList Cache Lifecycle.

Lemma titleOf_length (m : jsstring) :
  JS.length (titleOf m) = if 30 <? JS.length m then 33 else JS.length m.
Proof.
  rewrite CacheFacts.titleOf_spec.
  destruct (Z.ltb_spec 30 (JS.length m)) as [Hlong|Hshort]; [|reflexivity].
  unfold JS.length in *. rewrite length_app, length_take.
  change (List.length (lit "...")) with 3%nat. lia.
Qed.

Lemma step_tidy (op : Op) (cache : list SessionSummary) :
  tidy cache → ∃ cache', step op cache = Normal cache' ∧ tidy cache'.
Proof.
  intros [Hall Hdup].
  assert (Hwf : well_formed cache).
  { split; [|exact Hdup]. eapply Forall_impl; [exact Hall|]. by intros s []. }
  destruct (CacheFacts.step_well_formed op cache Hwf) as (cache' & Hstep & _ & Hdup').
  exists cache'. split; [exact Hstep|]. split; [|exact Hdup'].
  destruct op as [sid m now|sid]; simpl in Hstep.
  - rewrite CacheFacts.next_spec in Hstep. inversion Hstep as [Hc]. clear Hstep.
    pose proof (titleOf_length m) as Hlen.
    assert (Hnew : JS.length (titleOf m) <= 33)
      by (rewrite Hlen; destruct (Z.ltb_spec 30 (JS.length m)); lia).
    destruct (CacheFacts.first_of_cases sid cache)
      as [[Hf _]|(l1 & e & l2 & -> & H1 & He & Hf)]; rewrite Hf.
    + constructor; [simpl; lia|exact Hall].
    + rewrite delete_middle.
      apply Forall_app in Hall as [Hall1 Hall2].
      apply Forall_cons_1 in Hall2 as [[Hce Hte] Hall2].
      constructor; [|by apply Forall_app].
      simpl. split; [lia|]. by destruct (messageCount e =? 0).
  - inversion Hstep. unfold deleteSession_next.
    clear -Hall. induction Hall as [|x l Hx _ IH]; [constructor|].
    rewrite filter_cons. case_decide; [by constructor|exact IH].
Qed.

(** Every list reached from the empty one by upserts and removals
    has at most one summary for a session, and every title in it has at
    most 33 code units: thirty of the message and the three full stops.  A
    title is longer than its message when the message has 31 or 32 code
    units. *)
Theorem reachable_tidy (ops : list Op) :
  (∃ cache, run ops [] = Normal cache
            ∧ NoDup (session_id <$> cache)
            ∧ Forall (λ s, JS.length (title s) <= 33) cache)
  ∧ ∀ m, JS.length (titleOf m)
         = if 30 <? JS.length m then 33 else JS.length m.
Proof.
  split; [|exact titleOf_length].
  assert (Hrun : ∀ ops cache, tidy cache →
            ∃ cache', run ops cache = Normal cache' ∧ tidy cache').
  { clear ops. intros ops. induction ops as [|op ops IH]; intros cache Ht.
    - by exists cache.
    - simpl. destruct (step_tidy op cache Ht) as (c1 & -> & Ht1).
      by apply IH. }
  destruct (Hrun ops []) as (cache & Hr & Hall & Hdup).
  { split; constructor. }
  exists cache. split; [exact Hr|]. split; [exact Hdup|].
  eapply Forall_impl; [exact Hall|]. by intros s [].
Qed.

(** What an upsert leaves at the front of a list whose counts are
    integers below [2 ^ 53], where adding one is exact: the summary of the
    session, with the message as [lastMessage], the reading of the clock as
    [updated_at], and a count of one more than the session had, or one.
    The list grows by one exactly when the session had no summary. *)
Theorem upsert_front (sid m now : jsstring) (cache : list SessionSummary) :
  Forall (λ s, 0 <= messageCount s < 2 ^ 53) cache →
  ∃ e rest,
    updateSessionList_next sid m now cache = Normal (e :: rest)
    ∧ first_of sid (e :: rest) = Some (0%nat, e)
    ∧ lastMessage e = m
    ∧ updated_at e = now
    ∧ messageCount e = match first_of sid cache with
                       | Some (_, old) => messageCount old + 1
                       | None => 1
                       end
    ∧ 1 <= messageCount e <= 2 ^ 53
    ∧ List.length (e :: rest)
      = match first_of sid cache with
        | Some _ => List.length cache
        | None => S (List.length cache)
        end.
Proof.
  intros Hsafe. rewrite CacheFacts.next_spec.
  assert (Hfront : ∀ e rest, session_id e = sid →
            first_of sid (e :: rest) = Some (0%nat, e)).
  { intros e rest He. unfold first_of. simpl. by rewrite decide_True. }
  destruct (CacheFacts.first_of_cases sid cache)
    as [[Hf _]|(l1 & e & l2 & -> & H1 & He & Hf)]; rewrite Hf.
  - eexists _, _. split; [reflexivity|].
    split; [by apply Hfront|]. split_and!; try reflexivity; simpl; lia.
  - apply Forall_app in Hsafe as [_ Hsafe].
    apply Forall_cons_1 in Hsafe as [[Hlo Hhi] _].
    eexists _, _. split; [reflexivity|].
    split; [by apply Hfront|]. split_and!; try reflexivity.
    + simpl. lia.
    + simpl. lia.
    + rewrite delete_middle. simpl. rewrite !length_app. simpl. lia.
Qed.

Lemma upsert_front_witness :
  Forall (λ s, 0 <= messageCount s < 2 ^ 53)
    [fresh (lit "s2") (lit "other") (lit "t0");
     fresh (lit "s1") (lit "hello") (lit "t1")]
  ∧ ∃ e rest,
      updateSessionList_next (lit "s1") (lit "again") (lit "t2")
        [fresh (lit "s2") (lit "other") (lit "t0");
         fresh (lit "s1") (lit "hello") (lit "t1")]
      = Normal (e :: rest)
      ∧ first_of (lit "s1") (e :: rest) = Some (0%nat, e)
      ∧ lastMessage e = lit "again"
      ∧ updated_at e = lit "t2"
      ∧ messageCount e
        = match first_of (lit "s1")
                  [fresh (lit "s2") (lit "other") (lit "t0");
                   fresh (lit "s1") (lit "hello") (lit "t1")] with
          | Some (_, old) => messageCount old + 1
          | None => 1
          end
      ∧ 1 <= messageCount e <= 2 ^ 53
      ∧ List.length (e :: rest)
        = match first_of (lit "s1")
                  [fresh (lit "s2") (lit "other") (lit "t0");
                   fresh (lit "s1") (lit "hello") (lit "t1")] with
          | Some _ =>
            List.length [fresh (lit "s2") (lit "other") (lit "t0");
                         fresh (lit "s1") (lit "hello") (lit "t1")]
          | None =>
            S (List.length [fresh (lit "s2") (lit "other") (lit "t0");
                            fresh (lit "s1") (lit "hello") (lit "t1")])
          end.
Proof.
  assert (H : Forall (λ s, 0 <= messageCount s < 2 ^ 53)
                [fresh (lit "s2") (lit "other") (lit "t0");
                 fresh (lit "s1") (lit "hello") (lit "t1")]).
  { repeat constructor; discriminate. }
  split; [exact H|].
  exact (upsert_front (lit "s1") (lit "again") (lit "t2") _ H).
Defined.

(** Removals commute and repeat without effect, and after a removal
    the session has no summary, so that an upsert for it starts a new one,
    with the count one and the title of the new message: what the session
    had counted is lost. *)
Theorem remove_algebra (a b m now : jsstring) (cache : list SessionSummary) :
  deleteSession_next a (deleteSession_next b cache)
  = deleteSession_next b (deleteSession_next a cache)
  ∧ deleteSession_next a (deleteSession_next a cache)
    = deleteSession_next a cache
  ∧ first_of a (deleteSession_next a cache) = None
  ∧ updateSessionList_next a m now (deleteSession_next a cache)
    = Normal (fresh a m now :: deleteSession_next a cache).
Proof.
  unfold deleteSession_next.
  assert (Hnone : Forall (λ s, session_id s ≠ a)
                    (filter (λ s, session_id s ≠ a) cache)).
  { apply Forall_forall. intros s Hs. by apply list_elem_of_filter in Hs as []. }
  split_and!.
  - rewrite !list_filter_filter. apply list_filter_iff. intros s. tauto.
  - rewrite list_filter_filter. apply list_filter_iff. intros s. tauto.
  - destruct (CacheFacts.first_of_cases a (filter (λ s, session_id s ≠ a) cache))
      as [[Hf _]|(l1 & e & l2 & Heq & _ & He & _)]; [exact Hf|].
    exfalso. rewrite Heq in Hnone.
    apply Forall_app in Hnone as [_ Hnone].
    by apply Forall_cons_1 in Hnone as [Hne _].
  - by apply CacheFacts.next_absent.
Qed.

End CacheMore.

(* ================================================================== *)
(** * The page stays consistent, whatever the user does *)
(* ================================================================== *)

Module PageFacts.
Import Json SessionList ChatBot Page Outcome Cache Lifecycle Events.

Ltac run_M := ControllerFacts.run_M.
Ltac read_through p := ControllerFacts.read_through p.

(** An upsert leaves the summary of its session in front. *)
Lemma upsert_head (sid m now : jsstring) (cache cache' : list SessionSummary) :
  updateSessionList_next sid m now cache = Normal cache' →
  ∃ e rest, cache' = e :: rest ∧ SessionList.session_id e = sid.
Proof.
  rewrite CacheFacts.next_spec. intros Hc. inversion Hc as [Hc']. clear Hc Hc'.
  destruct (CacheFacts.first_of_cases sid cache)
    as [[Hf _]|(l1 & e & l2 & -> & H1 & He & Hf)]; rewrite Hf.
  - by eexists _, _.
  - by eexists _, _.
Qed.

(** An upsert for a session with a non-empty id keeps every id of the
    list non-empty. *)
Lemma upsert_truthy (sid m now : jsstring) (cache cache' : list SessionSummary) :
  truthy sid = true →
  Forall (λ s, truthy (SessionList.session_id s) = true) cache →
  updateSessionList_next sid m now cache = Normal cache' →
  Forall (λ s, truthy (SessionList.session_id s) = true) cache'.
Proof.
  intros Hsid Hall. rewrite CacheFacts.next_spec.
  intros Hc. inversion Hc as [Hc']. clear Hc Hc'.
  destruct (CacheFacts.first_of_cases sid cache)
    as [[Hf _]|(l1 & e & l2 & -> & H1 & He & Hf)]; rewrite Hf.
  - by constructor.
  - rewrite delete_middle.
    apply Forall_app in Hall as [Hall1 Hall2].
    apply Forall_cons_1 in Hall2 as [He' Hall2].
    constructor; [exact He'|by apply Forall_app].
Qed.

Lemma remove_Forall (P : SessionSummary → Prop) (sid : jsstring)
    (cache : list SessionSummary) :
  Forall P cache → Forall P (deleteSession_next sid cache).
Proof.
  unfold deleteSession_next. induction 1 as [|x l Hx _ IH]; [constructor|].
  rewrite filter_cons. case_decide; [by constructor|exact IH].
Qed.

(** The effect on the [sessionId] prop has nothing to do when the
    selection is as it was or is the session of the chat. *)
Lemma rerender_idle (dateOf : jsstring → Z) (session : Fetched ChatSession.t)
    (w w' : World) :
  currentSessionId w' = currentSessionId w
  ∨ currentSessionId w' = sessionId w' →
  rerender w dateOf session w' = (Normal tt, w').
Proof.
  unfold rerender, propSessionId_effect. intros [Hsel|Hsel].
  - by rewrite bool_decide_eq_false_2 by (intros Hne; by apply Hne).
  - case_bool_decide; [|reflexivity].
    by rewrite bool_decide_eq_false_2 by (intros Hne; by apply Hne).
Qed.

(** [loadSession] touches the transcript and the console only. *)
Lemma loadSession_frame (dateOf : jsstring → Z)
    (fetched : Fetched ChatSession.t) (sid : jsstring) (w : World) :
  ∃ w', loadSession dateOf fetched sid w = (Normal tt, w')
        ∧ sessionId w' = sessionId w
        ∧ currentSessionId w' = currentSessionId w
        ∧ sessions w' = sessions w
        ∧ localStorage w' = localStorage w
        ∧ isLoading w' = isLoading w
        ∧ sessionListRef w' = sessionListRef w.
Proof.
  unfold loadSession, setMessages, console_error. run_M.
  destruct fetched as [|[[] [session|e]]]; cbn [ok json];
    (eexists; split; [reflexivity|]); cbn; split_and!; reflexivity.
Qed.

(** What a send of an input that is not blank does to the list, the
    stored item and the selection, with the props of [App] and the list
    attached. *)
Lemma send_App_cache (now : jsstring) (clock : SendClock)
    (fetched : Fetched ChatResponse.t) (w : World) :
  truthy (trim (inputValue w)) = true →
  sessionListRef w = true →
  ∃ w',
    send (App_props (currentSessionId w) now) clock fetched w = (Normal tt, w')
    ∧ isLoading w' = false
    ∧ sessionListRef w' = true
    ∧ ((sessions w' = sessions w
        ∧ localStorage w' = localStorage w
        ∧ currentSessionId w' = currentSessionId w
        ∧ (sessionId w' = sessionId w ∨ truthy_opt (sessionId w) = false))
       ∨ (∃ sid,
            sessionId w = Some sid ∧ truthy sid = true
            ∧ sessionId w' = Some sid
            ∧ updateSessionList_next sid (inputValue w) now (sessions w)
              = Normal (sessions w')
            ∧ in_sync w'
            ∧ currentSessionId w'
              = if truthy_opt (currentSessionId w)
                then currentSessionId w else Some sid)).
Proof.
  intros Hinput Href. unfold send, handleSendMessage, App_props, in_sync.
  rewrite Hinput.
  unfold call_onSessionUpdate, handleSessionUpdate, updateSessionList,
    setMessages, setInputValue, setIsLoading, setSessionId, setSessions,
    setCurrentSessionId, localStorage_setItem.
  run_M. cbn [negb onSessionUpdate].
  destruct fetched as [|[is_ok [data|e]]]; [|destruct is_ok..];
    cbn [negb ok json].
  2:{ destruct (ChatResponse.success data), (ChatResponse.data data) as [d|].
      2-4: destruct (truthy_opt (sessionId w));
        (eexists; split; [reflexivity|]; cbn;
         split; [reflexivity|]; split; [exact Href|];
         left; split_and!; first [reflexivity | left; reflexivity]).
      destruct (sessionId w) as [sid|] eqn:Hsid; cbn [truthy_opt].
      - destruct (truthy sid) eqn:Htruthy; cbn [negb andb];
          rewrite ?andb_false_r; cbv beta iota.
        + read_through sessionListRef. rewrite Href. cbv beta iota.
          read_through sessions.
          rewrite (CacheFacts.next_spec sid (inputValue w) now (sessions w)).
          destruct (truthy_opt (currentSessionId w));
            (eexists; split; [reflexivity|]; cbn;
             split; [reflexivity|]; split; [exact Href|];
             right; exists sid; rewrite Hsid; split_and!;
             first [reflexivity | exact Htruthy
                   | apply CacheFacts.next_spec]).
        + destruct (truthy_opt (ChatResponse.session_id d));
            (eexists; split; [reflexivity|]; cbn;
             split; [reflexivity|]; split; [exact Href|];
             left; rewrite ?Hsid; split_and!;
             first [reflexivity | right; reflexivity | left; reflexivity]).
      - rewrite andb_true_r.
        destruct (truthy_opt (ChatResponse.session_id d));
          (eexists; split; [reflexivity|]; cbn;
           split; [reflexivity|]; split; [exact Href|];
           left; rewrite ?Hsid; split_and!;
           first [reflexivity | right; reflexivity]). }
  all: destruct (truthy_opt (sessionId w));
    (eexists; split; [reflexivity|]; cbn;
     split; [reflexivity|]; split; [exact Href|];
     left; split_and!; first [reflexivity | left; reflexivity]).
Qed.

(** A send keeps the page consistent and gives the effect on the
    [sessionId] prop nothing to do. *)
Lemma send_consistent (now : jsstring) (clock : SendClock)
    (fetched : Fetched ChatResponse.t) (w : World) :
  consistent w →
  ∃ w',
    send (App_props (currentSessionId w) now) clock fetched w = (Normal tt, w')
    ∧ consistent w'
    ∧ (currentSessionId w' = currentSessionId w
       ∨ currentSessionId w' = sessionId w').
Proof.
  intros [Htidy Hids Hstore Hsel Hload Href].
  unfold in_sync in Hstore.
  destruct (truthy (trim (inputValue w))) eqn:Hinput.
  2:{ exists w. split; [|split; [by constructor|by left]].
      unfold send, handleSendMessage. by rewrite Hinput. }
  destruct (send_App_cache now clock fetched w Hinput Href)
    as (w' & Hrun & Hload' & Href' & Hcases).
  exists w'. split; [exact Hrun|].
  destruct Hcases as [(Hs & Hst & Hcur & Hsid)
                     |(sid & Hsid & Htruthy & Hsid' & Hnext & Hsync & Hcur)].
  - split; [|by left].
    constructor; unfold in_sync; rewrite ?Hs, ?Hst, ?Hcur; try assumption.
    destruct Hsel as [Hnone|(Hshown & s & Hin & Hs')]; [by left|].
    right. split; [|by exists s].
    destruct Hsid as [->|Hfalsy]; [exact Hshown|].
    exfalso. rewrite <- Hshown, Hs' in Hfalsy. cbn in Hfalsy.
    rewrite Forall_forall in Hids. rewrite (Hids s Hin) in Hfalsy.
    discriminate Hfalsy.
  - destruct (CacheMore.step_tidy (Upsert sid (inputValue w) now) (sessions w)
                Htidy) as (cache' & Hstep & Htidy').
    simpl in Hstep. rewrite Hnext in Hstep. inversion Hstep as [Hc].
    destruct (upsert_head _ _ _ _ _ Hnext) as (e & rest & Hhead & He).
    assert (Hcur' : currentSessionId w' = Some sid).
    { rewrite Hcur.
      destruct Hsel as [->|(Hshown & _)]; [reflexivity|].
      rewrite Hshown, Hsid. cbn. by rewrite Htruthy. }
    split; [|right; by rewrite Hcur', Hsid'].
    constructor; try assumption.
    + by rewrite Hc.
    + by eapply upsert_truthy.
    + by right.
    + right. split; [by rewrite Hcur', Hsid'|].
      exists e. rewrite Hhead, Hcur', He. split; [apply list_elem_of_here|done].
Qed.

(** One event, with what React does after it, keeps the page
    consistent. *)
Lemma event_consistent (step : Step) (w : World) :
  consistent w →
  ∃ w',
    then_rerender (handle (event step)) (dateOf step) (session step) w
    = (Normal tt, w')
    ∧ consistent w'.
Proof.
  intros Hw. pose proof Hw as [Htidy Hids Hstore Hsel Hload Href].
  destruct step as [ev dateOf session]. cbn [event Events.dateOf Events.session].
  unfold then_rerender.
  destruct ev as [value|now clock fetched|e now clock fetched|index|
                  |index confirmed fetched]; cbn [handle].
  - (* typing *)
    unfold setInputValue. run_M.
    rewrite rerender_idle by (by left).
    eexists; split; [reflexivity|]. by constructor.
  - (* the button *)
    destruct (send_consistent now clock fetched w Hw) as (w' & -> & Hw' & Hidle).
    rewrite rerender_idle by exact Hidle. by exists w'.
  - (* a key *)
    unfold handleKeyPress.
    destruct (strict_eq (key e) (lit "Enter") && negb (shiftKey e)).
    + destruct (send_consistent now clock fetched w Hw)
        as (w' & Hrun & Hw' & Hidle).
      run_M. rewrite Hrun.
      rewrite rerender_idle by exact Hidle. by exists w'.
    + run_M. rewrite rerender_idle by (by left). by exists w.
  - (* a row of the list *)
    destruct (sessions w !! index) as [s|] eqn:Hs.
    2:{ rewrite rerender_idle by (by left). by exists w. }
    assert (Hin : s ∈ sessions w) by (by eapply list_elem_of_lookup_2).
    assert (Htruthy : truthy (SessionList.session_id s) = true).
    { rewrite Forall_forall in Hids. by apply Hids. }
    set (sid := SessionList.session_id s) in *.
    unfold handleSessionSelect, setCurrentSessionId. run_M.
    unfold rerender, propSessionId_effect, setSessionId. run_M.
    read_through currentSessionId. read_through sessionId.
    cbn [truthy_opt]. rewrite Htruthy.
    destruct (bool_decide (Some sid ≠ currentSessionId w)) eqn:Hchanged;
      [destruct (bool_decide (Some sid ≠ sessionId w)) eqn:Hother|];
      cbv beta iota.
    + change (default [] (Some sid)) with sid.
      destruct (loadSession_frame dateOf session sid
                  (set_sessionId (λ _, Some sid)
                     (set_currentSessionId (λ _, Some sid) w)))
        as (w' & -> & Hsid & Hcur & Hss & Hst & Hld & Hrf).
      exists w'. split; [reflexivity|].
      cbn in Hsid, Hcur, Hss, Hst, Hld, Hrf.
      constructor; unfold in_sync; rewrite ?Hss, ?Hst, ?Hcur, ?Hsid, ?Hld,
        ?Hrf; try assumption.
      right. split; [reflexivity|]. by exists s.
    + apply bool_decide_eq_false, dec_stable in Hother.
      eexists; split; [reflexivity|].
      constructor; try assumption.
      right. cbn. split; [exact Hother|]. by exists s.
    + apply bool_decide_eq_false, dec_stable in Hchanged.
      eexists; split; [reflexivity|].
      constructor; try assumption.
      right. cbn.
      destruct Hsel as [Hnone|(Hshown & _)]; [congruence|].
      split; [congruence|]. by exists s.
  - (* the button for a new conversation *)
    unfold handleNewSession, setCurrentSessionId. run_M.
    unfold rerender, propSessionId_effect.
    read_through currentSessionId. read_through sessionId.
    unfold setSessionId, setMessages. run_M. cbn [truthy_opt].
    case_bool_decide; [case_bool_decide|];
      (eexists; split; [reflexivity|]; constructor; try assumption; by left).
  - (* the button that deletes a row *)
    destruct (sessions w !! index) as [s|] eqn:Hs.
    2:{ rewrite rerender_idle by (by left). by exists w. }
    assert (Hin : s ∈ sessions w) by (by eapply list_elem_of_lookup_2).
    set (sid := SessionList.session_id s).
    unfold deleteSession, handleNewSession, alert, console_error,
      setSessions, setCurrentSessionId, localStorage_setItem.
    run_M.
    destruct confirmed; cbn [negb].
    2:{ rewrite rerender_idle by (by left). by exists w. }
    destruct fetched as [|[[] body]]; cbn [ok].
    1,3: rewrite rerender_idle by (by left);
      (eexists; split; [reflexivity|]; by constructor).
    assert (Htidy' : tidy (deleteSession_next sid (sessions w))).
    { destruct (CacheMore.step_tidy (Remove sid) (sessions w) Htidy)
        as (c & Hc & Hc'). simpl in Hc. by inversion Hc; subst c. }
    assert (Hids' : Forall (λ s, truthy (SessionList.session_id s) = true)
                      (deleteSession_next sid (sessions w))).
    { by apply remove_Forall. }
    case_bool_decide as Hselected; cbv beta iota.
    + unfold rerender, propSessionId_effect.
      read_through currentSessionId. read_through sessionId.
      unfold setSessionId, setMessages. run_M. cbn [truthy_opt].
      case_bool_decide; [case_bool_decide|];
        (eexists; split; [reflexivity|]; constructor; try assumption;
         first [by left | by right]).
    + rewrite rerender_idle by (by left).
      eexists; split; [reflexivity|]. constructor; try assumption.
      * by right.
      * cbn. destruct Hsel as [Hnone|(Hshown & s' & Hin' & Hs')]; [by left|].
        right. split; [exact Hshown|]. exists s'. split; [|exact Hs'].
        unfold deleteSession_next. apply list_elem_of_filter. split; [|exact Hin'].
        intros Heq. apply Hselected. by rewrite Hs', Heq.
Qed.

(** The effect on the [sessionId] prop leaves the list alone. *)
Lemma rerender_sessions (before : World) (dateOf : jsstring → Z)
    (fetched : Fetched ChatSession.t) (w1 w2 : World) (c : completion unit) :
  rerender before dateOf fetched w1 = (c, w2) → sessions w2 = sessions w1.
Proof.
  unfold rerender, propSessionId_effect, setSessionId, setMessages. run_M.
  case_bool_decide; [|by inversion 1].
  case_bool_decide; [|by inversion 1].
  destruct (truthy_opt (currentSessionId w1)).
  - destruct (loadSession_frame dateOf fetched
                (default [] (currentSessionId w1))
                (set_sessionId (λ _, currentSessionId w1) w1))
      as (w' & -> & _ & _ & Hss & _).
    intros Heq. inversion Heq; subst. exact Hss.
  - by inversion 1.
Qed.

(** A send changes the list by one upsert, or not at all. *)
Lemma send_moves (now : jsstring) (clock : SendClock)
    (fetched : Fetched ChatResponse.t) (w w1 : World) (c : completion unit) :
  sessionListRef w = true →
  send (App_props (currentSessionId w) now) clock fetched w = (c, w1) →
  ∃ ops, (List.length ops <= 1)%nat
         ∧ run ops (sessions w) = Normal (sessions w1).
Proof.
  intros Href Hsend.
  destruct (truthy (trim (inputValue w))) eqn:Hinput.
  2:{ unfold send, handleSendMessage in Hsend. rewrite Hinput in Hsend.
      inversion Hsend; subst. exists []. split; [simpl; lia|reflexivity]. }
  destruct (send_App_cache now clock fetched w Hinput Href)
    as (w' & Hrun & _ & _ & Hcases).
  rewrite Hrun in Hsend. inversion Hsend; subst.
  destruct Hcases as [(Hs & _)|(sid & _ & _ & _ & Hnext & _)].
  - exists []. split; [simpl; lia|]. by rewrite Hs.
  - exists [Upsert sid (inputValue w) now]. split; [simpl; lia|].
    cbn [run step]. by rewrite Hnext.
Qed.

(** A handler changes the list by one upsert or one removal, or not at
    all. *)
Lemma handle_moves (ev : Event) (w w1 : World) (c : completion unit) :
  sessionListRef w = true →
  handle ev w = (c, w1) →
  ∃ ops, (List.length ops <= 1)%nat
         ∧ run ops (sessions w) = Normal (sessions w1).
Proof.
  intros Href.
  assert (Hsame : ∀ w2, sessions w2 = sessions w →
            ∃ ops, (List.length ops <= 1)%nat
                   ∧ run ops (sessions w) = Normal (sessions w2)).
  { intros w2 Hs. exists []. split; [simpl; lia|]. by rewrite Hs. }
  destruct ev as [value|now clock fetched|e now clock fetched|index|
                  |index confirmed fetched]; cbn [handle].
  - unfold setInputValue. run_M. intros H. inversion H; subst. by apply Hsame.
  - by apply send_moves.
  - unfold handleKeyPress.
    destruct (strict_eq (key e) (lit "Enter") && negb (shiftKey e)); run_M.
    + destruct (send (App_props (currentSessionId w) now) clock fetched w)
        as [[[]|err] w2] eqn:Hsend; intros H; inversion H; subst;
        by eapply send_moves.
    + intros H. inversion H; subst. by apply Hsame.
  - destruct (sessions w !! index) as [s|];
      unfold handleSessionSelect, setCurrentSessionId; run_M;
      intros H; inversion H; subst; by apply Hsame.
  - unfold handleNewSession, setCurrentSessionId. run_M.
    intros H. inversion H; subst. by apply Hsame.
  - destruct (sessions w !! index) as [s|].
    2:{ intros H. inversion H; subst. by apply Hsame. }
    unfold deleteSession, handleNewSession, alert, console_error,
      setSessions, setCurrentSessionId, localStorage_setItem.
    run_M.
    destruct confirmed; cbn [negb].
    2:{ intros H. inversion H; subst. by apply Hsame. }
    destruct fetched as [|[[] body]]; cbn [ok].
    1,3: intros H; inversion H; subst; by apply Hsame.
    case_bool_decide; cbv beta iota; intros Heq; inversion Heq; subst;
      (exists [Remove (SessionList.session_id s)];
       split; [simpl; lia|reflexivity]).
Qed.

Lemma run_app (ops1 ops2 : list Op) (c0 c1 c2 : list SessionSummary) :
  run ops1 c0 = Normal c1 → run ops2 c1 = Normal c2 →
  run (ops1 ++ ops2) c0 = Normal c2.
Proof.
  revert c0. induction ops1 as [|op ops1 IH]; intros c0 H1 H2.
  - cbn in H1. inversion H1; subst. exact H2.
  - cbn [app run] in *. destruct (step op c0); [|discriminate H1]. by apply IH.
Qed.

(** However many steps are played from a consistent page, no handler
    throws, the page is consistent again, and its list is reached from the
    one before by at most as many upserts and removals as steps. *)
Lemma play_reaches (steps : list Step) (w : World) :
  consistent w →
  ∃ w' ops,
    play steps w = (Normal tt, w')
    ∧ consistent w'
    ∧ (List.length ops <= List.length steps)%nat
    ∧ run ops (sessions w) = Normal (sessions w').
Proof.
  revert w. induction steps as [|step steps IH]; intros w Hw.
  - exists w, []. by split_and!.
  - destruct (event_consistent step w Hw) as (w1 & Hrun & Hw1).
    destruct (IH w1 Hw1) as (w' & ops & Hplay & Hw' & Hlen & Hops).
    assert (Hmove : ∃ ops1, (List.length ops1 <= 1)%nat
                            ∧ run ops1 (sessions w) = Normal (sessions w1)).
    { unfold then_rerender in Hrun.
      destruct (handle (event step) w) as [[[]|err] w0] eqn:Hh;
        [|discriminate Hrun].
      apply rerender_sessions in Hrun. rewrite Hrun.
      eapply handle_moves; [apply Hw|exact Hh]. }
    destruct Hmove as (ops1 & Hlen1 & Hops1).
    exists w', (ops1 ++ ops). split_and!.
    + cbn [play]. run_M. by rewrite Hrun.
    + exact Hw'.
    + rewrite length_app. cbn [List.length]. lia.
    + by eapply run_app.
Qed.

Lemma play_consistent (steps : list Step) (w : World) :
  consistent w →
  ∃ w', play steps w = (Normal tt, w') ∧ consistent w'.
Proof.
  intros Hw. destruct (play_reaches steps w Hw) as (w' & _ & Hplay & Hw' & _).
  by exists w'.
Qed.

Lemma first_visit_consistent (now : Z) (created : Fetched ChatSession.t) :
  consistent (first_visit now created).
Proof.
  unfold first_visit, mount_effect. cbn [truthy_opt negb].
  rewrite ControllerFacts.createNewSession_spec.
  destruct created as [|[[] [session|e]]]; cbn [snd];
    (constructor; cbn;
     [split; constructor|constructor|by left|by left|reflexivity|reflexivity]).
Qed.

(** On a first visit, whatever the user does and however the requests
    end (each handler settling before the next event), no handler
    throws and between two events the page is consistent: the list has at
    most one summary for a session, each with a non-empty id, a count of at
    least one and a title of at most 33 code units; the stored item is
    absent while the list has never been written and is the list as JSON
    ever after; the selected session, when there is one, has a summary in
    the list and is the session of the chat; and [isLoading] is false. *)
Theorem page_stays_consistent (now : Z) (created : Fetched ChatSession.t)
    (steps : list Step) :
  ∃ w, play steps (first_visit now created) = (Normal tt, w)
       ∧ consistent w.
Proof. apply play_consistent, first_visit_consistent. Qed.

(** On a first visit, whatever the user does, the list the page shows is
    one that upserts and removals reach from the empty list, at most one
    of them for each event: nothing else writes the list. *)
Theorem page_list_reachable (now : Z) (created : Fetched ChatSession.t)
    (steps : list Step) :
  ∃ w ops,
    play steps (first_visit now created) = (Normal tt, w)
    ∧ (List.length ops <= List.length steps)%nat
    ∧ run ops [] = Normal (sessions w).
Proof.
  destruct (play_reaches steps (first_visit now created)
              (first_visit_consistent now created))
    as (w & ops & Hplay & _ & Hlen & Hops).
  exists w, ops. split_and!; [exact Hplay|exact Hlen|].
  assert (Hnone : sessions (first_visit now created) = []).
  { unfold first_visit, mount_effect. cbn [truthy_opt negb].
    rewrite ControllerFacts.createNewSession_spec.
    by destruct created as [|[[] [session|e]]]. }
  by rewrite <- Hnone.
Qed.

End PageFacts.

(* ================================================================== *)
(** * The label of a date *)
(* ================================================================== *)

Module DateFacts.
Import Page.

(** The label [formatDate] gives, by the age of the date in milliseconds:
    under an hour, the minutes; from an hour to under a day, the hours,
    between 1 and 23; from a day on, the locale date.  A date in the
    future, of negative age, is labelled with a negative number of
    minutes, at most -1. *)
Theorem formatDate_ranges (date now : Z) (localeDate : jsstring) :
  (now - date < 3600000 →
   formatDate date now localeDate
   = toString ((now - date) / 60000) ++ lit "분 전"
   ∧ (now - date) / 60000 < 60
   ∧ (now < date → (now - date) / 60000 <= -1))
  ∧ (3600000 <= now - date < 86400000 →
     formatDate date now localeDate
     = toString ((now - date) / 3600000) ++ lit "시간 전"
     ∧ 1 <= (now - date) / 3600000 <= 23)
  ∧ (86400000 <= now - date → formatDate date now localeDate = localeDate).
Proof.
  unfold formatDate. change (1000 * 60) with 60000.
  set (age := now - date).
  assert (Hhours : age / 60000 / 60 = age / 3600000).
  { rewrite Z.div_div by lia. reflexivity. }
  split_and!.
  - intros Hage.
    assert (Hmin : age / 60000 < 60)
      by (apply Z.div_lt_upper_bound; lia).
    rewrite (proj2 (Z.ltb_lt _ _) Hmin). split_and!; [reflexivity|exact Hmin|].
    intros Hfuture.
    assert (age / 60000 < 0) by (apply Z.div_lt_upper_bound; lia). lia.
  - intros [Hlo Hhi].
    assert (Hmin : 60 <= age / 60000)
      by (apply Z.div_le_lower_bound; lia).
    assert (Hday : age / 60000 < 1440)
      by (apply Z.div_lt_upper_bound; lia).
    rewrite (proj2 (Z.ltb_ge _ _) Hmin), (proj2 (Z.ltb_lt _ _) Hday), Hhours.
    split; [reflexivity|]. split.
    + apply Z.div_le_lower_bound; lia.
    + assert (age / 3600000 < 24) by (apply Z.div_lt_upper_bound; lia). lia.
  - intros Hage.
    assert (Hday : 1440 <= age / 60000)
      by (apply Z.div_le_lower_bound; lia).
    rewrite (proj2 (Z.ltb_ge _ _) Hday).
    by rewrite (proj2 (Z.ltb_ge (age / 60000) 60)) by lia.
Qed.

End DateFacts.

(* ================================================================== *)
(** * The decimal of an integer is read back *)
(* ================================================================== *)

Module NumeralFacts.
Import Json Numeral.

Lemma lit_units (d : Decimal.uint) :
  lit (NilEmpty.string_of_uint d) = units d.
Proof.
  unfold lit. induction d; cbn; try rewrite IHd; reflexivity.
Qed.

Lemma units_length (d : Decimal.uint) :
  List.length (units d) = Decimal.nb_digits d.
Proof. induction d; cbn; congruence. Qed.

Lemma value_of_uint_acc (d : Decimal.uint) (acc : positive) :
  Z.pos (Pos.of_uint_acc d acc) = value d (Z.pos acc).
Proof.
  revert acc. induction d; intros acc; cbn [Pos.of_uint_acc value];
    [reflexivity|rewrite IHd; f_equal; lia..].
Qed.

Lemma value_of_uint (d : Decimal.uint) :
  Z.of_N (Pos.of_uint d) = value d 0.
Proof.
  induction d; cbn [Pos.of_uint value]; try exact IHd; try reflexivity;
    rewrite N2Z.inj_pos, value_of_uint_acc; reflexivity.
Qed.

Lemma value_to_uint (p : positive) : value (Pos.to_uint p) 0 = Z.pos p.
Proof.
  by rewrite <- value_of_uint, DecimalPos.Unsigned.of_to.
Qed.

(** A numeral of a positive number starts with a digit other than 0. *)
Lemma to_uint_head (p : positive) :
  match Pos.to_uint p with
  | Decimal.Nil | Decimal.D0 _ => False
  | _ => True
  end.
Proof.
  pose proof (DecimalPos.Unsigned.to_of (Pos.to_uint p)) as Hn.
  rewrite DecimalPos.Unsigned.of_to in Hn. cbn [N.to_uint] in Hn.
  pose proof (Unsigned.to_uint_nonnil p) as Hnil.
  pose proof (Unsigned.to_uint_nonzero p) as Hzero.
  destruct (Pos.to_uint p) as [|d| | | | | | | | | ] eqn:Hd; try exact I.
  - by apply Hnil.
  - rewrite unorm_D0 in Hn. unfold Decimal.unorm in Hn.
    pose proof (nzhead_nonzero d d) as Hnz.
    destruct (Decimal.nzhead d) eqn:Hh; try discriminate Hn.
    + inversion Hn. subst d. by apply Hzero.
    + by apply Hnz.
Qed.

Lemma value_lower (d : Decimal.uint) (acc : Z) :
  0 <= acc → acc * 10 ^ Z.of_nat (Decimal.nb_digits d) <= value d acc.
Proof.
  revert acc. induction d; intros acc Hacc; cbn [value Decimal.nb_digits].
  1: change (Z.of_nat 0) with 0; lia.
  all: rewrite Nat2Z.inj_succ, Z.pow_succ_r by lia.
  all: assert (0 < 10 ^ Z.of_nat (Decimal.nb_digits d))
    by (apply Z.pow_pos_nonneg; lia).
  all: etransitivity; [|apply IHd; lia].
  all: nia.
Qed.

Lemma value_head (d : Decimal.uint) :
  match d with Decimal.Nil | Decimal.D0 _ => False | _ => True end →
  10 ^ (Z.of_nat (Decimal.nb_digits d) - 1) <= value d 0.
Proof.
  destruct d; intros []; cbn [value Decimal.nb_digits];
    rewrite Nat2Z.inj_succ;
    replace (Z.succ (Z.of_nat (Decimal.nb_digits d)) - 1)
      with (Z.of_nat (Decimal.nb_digits d)) by lia.
  all: etransitivity; [|apply value_lower; lia].
  all: assert (0 < 10 ^ Z.of_nat (Decimal.nb_digits d))
    by (apply Z.pow_pos_nonneg; lia); nia.
Qed.

(** A positive number below [10 ^ j] has at most [j] digits. *)
Lemma digits_bound (p : positive) (j : Z) :
  0 <= j → Z.pos p < 10 ^ j →
  Z.of_nat (Decimal.nb_digits (Pos.to_uint p)) <= j.
Proof.
  intros Hj Hp.
  pose proof (value_head _ (to_uint_head p)) as Hlow.
  rewrite value_to_uint in Hlow.
  destruct (Z_le_gt_dec (Z.of_nat (Decimal.nb_digits (Pos.to_uint p))) j)
    as [|Hgt]; [done|].
  exfalso.
  assert (10 ^ j <= 10 ^ (Z.of_nat (Decimal.nb_digits (Pos.to_uint p)) - 1))
    by (apply Z.pow_le_mono_r; lia).
  lia.
Qed.

Lemma toString_pos (p : positive) : toString (Z.pos p) = units (Pos.to_uint p).
Proof.
  unfold toString. cbn [Z.to_int NilZero.string_of_int].
  unfold NilZero.string_of_uint.
  pose proof (Unsigned.to_uint_nonnil p).
  destruct (Pos.to_uint p) eqn:Hd; [done|..]; rewrite <- Hd; apply lit_units.
Qed.

Lemma read_digits_units (d : Decimal.uint) (rest : jsstring) (acc : Z)
    (cnt : nat) :
  read_digits (units d ++ rest) acc cnt
  = read_digits rest (value d acc) (Decimal.nb_digits d + cnt)%nat.
Proof.
  revert acc cnt. induction d; intros acc cnt; cbn [units value app];
    [reflexivity|..];
    cbn [read_digits]; unfold digit_val; cbn [N.leb N.compare Pos.compare
      Pos.compare_cont andb]; rewrite IHd; cbn [Decimal.nb_digits];
    rewrite Nat.add_succ_r; reflexivity.
Qed.

Lemma read_digits_zeros (n : nat) (rest : jsstring) (acc : Z) (cnt : nat) :
  read_digits (replicate n 48%N ++ rest) acc cnt
  = read_digits rest (acc * 10 ^ Z.of_nat n) (n + cnt)%nat.
Proof.
  revert acc cnt. induction n as [|n IH]; intros acc cnt.
  - cbn [replicate app]. f_equal. change (Z.of_nat 0) with 0. lia.
  - cbn [replicate app read_digits]. unfold digit_val.
    cbn [N.leb N.compare Pos.compare Pos.compare_cont andb].
    rewrite IH, Nat2Z.inj_succ, Z.pow_succ_r by lia.
    rewrite Nat.add_succ_r. f_equal. change (Z.of_N (48 - 48)) with 0. lia.
Qed.

Lemma strip_zeros_value (fuel : nat) (m e m' e' : Z) :
  strip_zeros fuel m e = (m', e') → 0 < m →
  0 < m' ∧ e <= e' ∧ m' * 10 ^ (e' - e) = m.
Proof.
  revert m e. induction fuel as [|fuel IH]; intros m e Hs Hm;
    cbn [strip_zeros] in Hs.
  - inversion Hs; subst. rewrite Z.sub_diag. split_and!; lia.
  - destruct (Z.eqb_spec m 0) as [|_]; [lia|].
    destruct (Z.eqb_spec (m mod 10) 0) as [Hmod|_].
    + assert (Hdiv : m = 10 * (m / 10)).
      { pose proof (Z.div_mod m 10). lia. }
      apply IH in Hs as (Hpos & Hle & Hval); [|lia].
      split_and!; [exact Hpos|lia|].
      replace (e' - e) with (Z.succ (e' - (e + 1))) by lia.
      rewrite Z.pow_succ_r by lia. lia.
    + inversion Hs; subst. rewrite Z.sub_diag. split_and!; lia.
Qed.

(** The normal form of a positive integer. *)
Lemma normal_number_pos (c : Z) :
  0 < c →
  ∃ (p : positive) (e : Z),
    normal_number c 0 = JNumber (Z.pos p) e ∧ 0 <= e ∧ Z.pos p * 10 ^ e = c.
Proof.
  intros Hc. unfold normal_number.
  destruct (strip_zeros _ c 0) as [m e] eqn:Hs.
  apply strip_zeros_value in Hs as (Hm & He & Hval); [|exact Hc].
  rewrite Z.sub_0_r in Hval.
  destruct m as [|p|p]; try lia. by exists p, e.
Qed.

Lemma number_toString_plain (p : positive) (e : Z) :
  0 <= e → Z.pos p * 10 ^ e < 10 ^ 21 →
  number_toString (Z.pos p) e
  = units (Pos.to_uint p) ++ replicate (Z.to_nat e) 48%N.
Proof.
  intros He Hlt. unfold number_toString.
  change (Z.pos p =? 0) with false. change (Z.pos p <? 0) with false.
  cbv iota. change (Z.abs (Z.pos p)) with (Z.pos p).
  rewrite toString_pos. unfold JS.length. rewrite units_length.
  assert (Hpow : 0 < 10 ^ e) by (apply Z.pow_pos_nonneg; lia).
  assert (He21 : e < 21).
  { apply (Z.pow_lt_mono_r_iff 10); [lia|lia|]. nia. }
  assert (Hk : Z.of_nat (Decimal.nb_digits (Pos.to_uint p)) <= 21 - e).
  { apply digits_bound; [lia|].
    apply (Z.mul_lt_mono_pos_r (10 ^ e)); [exact Hpow|].
    rewrite <- Z.pow_add_r by lia. by replace (21 - e + e) with 21 by lia. }
  rewrite (proj2 (Z.leb_le _ _)) by lia.
  rewrite (proj2 (Z.leb_le _ _)) by lia.
  cbn [andb app]. do 2 f_equal. lia.
Qed.

Lemma closes_number_cases (c : N) :
  closes_number c = true → c = 44%N ∨ c = 93%N ∨ c = 125%N.
Proof.
  unfold closes_number. intros H. apply bool_decide_eq_true in H.
  rewrite !elem_of_cons in H. rewrite elem_of_nil in H. tauto.
Qed.

Lemma parse_number_read (c0 : N) (t : jsstring) (i : Z) (n : nat)
    (s3 : jsstring) :
  is_ch "-" c0 = false → is_ch "0" c0 = false →
  read_digits (c0 :: t) 0 0 = (i, S n, s3) →
  read_fraction i s3 = Some (i, 0, s3) →
  read_exponent s3 = Some (0, s3) →
  parse_number (c0 :: t) = Some (normal_number i 0, s3).
Proof.
  intros H1 H2 H3 H4 H5. unfold parse_number.
  rewrite H1, H2, H3, H4, H5. reflexivity.
Qed.

(** The parser reads the decimal of a positive integer back. *)
Lemma parse_number_plain (p : positive) (e : Z) (c : N) (rest : jsstring) :
  0 <= e → closes_number c = true →
  parse_number (units (Pos.to_uint p) ++ replicate (Z.to_nat e) 48%N
                ++ c :: rest)
  = Some (normal_number (Z.pos p * 10 ^ e) 0, c :: rest).
Proof.
  intros He Hc.
  assert (Hread :
    read_digits (units (Pos.to_uint p) ++ replicate (Z.to_nat e) 48%N
                 ++ c :: rest) 0 0
    = (Z.pos p * 10 ^ e,
       (Z.to_nat e + (Decimal.nb_digits (Pos.to_uint p) + 0))%nat,
       c :: rest)).
  { rewrite read_digits_units, read_digits_zeros, value_to_uint.
    rewrite Z2Nat.id by exact He.
    apply closes_number_cases in Hc as [->|[->| ->]]; reflexivity. }
  pose proof (to_uint_head p) as Hhead.
  assert (Hcnt : ∃ n, (Z.to_nat e + (Decimal.nb_digits (Pos.to_uint p) + 0))%nat
                      = S n).
  { destruct (Pos.to_uint p); try done; cbn [Decimal.nb_digits];
      eexists; rewrite Nat.add_0_r, Nat.add_succ_r; reflexivity. }
  destruct Hcnt as [n Hn]. rewrite Hn in Hread.
  assert (Htail :
    read_fraction (Z.pos p * 10 ^ e) (c :: rest)
    = Some (Z.pos p * 10 ^ e, 0, c :: rest)
    ∧ read_exponent (c :: rest) = Some (0, c :: rest)).
  { apply closes_number_cases in Hc as [->|[->| ->]]; split; reflexivity. }
  destruct Htail as [Hfrac Hexp].
  destruct (Pos.to_uint p) as [|d|d|d|d|d|d|d|d|d|d]; try done;
    cbn [units app] in *;
    (eapply parse_number_read;
       [reflexivity|reflexivity|exact Hread|exact Hfrac|exact Hexp]).
Qed.

End NumeralFacts.

(* ================================================================== *)
(** * A quoted string is read back *)
(* ================================================================== *)

Module QuoteFacts.
Import Json.

Lemma hex_round (n : N) : (n < 16)%N → hex_val (hex_digit n) = Some n.
Proof.
  intros Hn.
  assert (Hcases : Forall (λ k, hex_val (hex_digit k) = Some k)
                     (N.of_nat <$> seq 0 16)).
  { vm_compute. repeat constructor. }
  rewrite Forall_forall in Hcases. apply Hcases.
  apply list_elem_of_fmap. exists (N.to_nat n). split; [lia|].
  apply elem_of_seq. lia.
Qed.

Lemma hex_digits (c : N) :
  (c < 65536)%N →
  (c / 4096 * 4096 + c / 256 mod 16 * 256 + c / 16 mod 16 * 16 + c mod 16
   = c)%N
  ∧ (c / 4096 < 16)%N.
Proof.
  intros Hc.
  pose proof (N.div_mod c 16 ltac:(lia)) as H0.
  pose proof (N.div_mod (c / 16) 16 ltac:(lia)) as H1.
  pose proof (N.div_mod (c / 16 / 16) 16 ltac:(lia)) as H2.
  rewrite !N.Div0.div_div in H1, H2.
  change (16 * 16)%N with 256%N in *.
  rewrite ?N.Div0.div_div in H2. change (256 * 16)%N with 4096%N in *.
  pose proof (N.mod_lt c 16 ltac:(lia)).
  pose proof (N.mod_lt (c / 16) 16 ltac:(lia)).
  pose proof (N.mod_lt (c / 256) 16 ltac:(lia)).
  assert (c / 4096 < 16)%N by (apply N.Div0.div_lt_upper_bound; lia).
  split; [|done]. lia.
Qed.

Lemma parse_string_escape_u (c : N) (t s r : jsstring) :
  (c < 65536)%N →
  parse_string t = Some (s, r) →
  parse_string (escape_u c ++ t) = Some (c :: s, r).
Proof.
  intros Hc Ht. destruct (hex_digits c Hc) as [Hsum Hhigh].
  unfold escape_u. cbn [app].
  change (parse_string (92%N :: 117%N :: ?h1 :: ?h2 :: ?h3 :: ?h4 :: t))
    with (match hex_val h1, hex_val h2, hex_val h3, hex_val h4 with
          | Some a, Some b, Some c', Some d =>
            match parse_string t with
            | Some (t', r') =>
              Some ((a * 4096 + b * 256 + c' * 16 + d)%N :: t', r')
            | None => None
            end
          | _, _, _, _ => None
          end).
  rewrite !hex_round, Ht, Hsum; try reflexivity; try exact Hhigh;
    apply N.mod_lt; lia.
Qed.

Lemma parse_string_plain (c : N) (t s r : jsstring) :
  (c =? 34)%N = false → (c <? 32)%N = false → (c =? 92)%N = false →
  parse_string t = Some (s, r) →
  parse_string (c :: t) = Some (c :: s, r).
Proof. intros H1 H2 H3 Ht. cbn [parse_string]. by rewrite H1, H2, H3, Ht. Qed.

Lemma parse_string_simple (x u : N) (t s r : jsstring) :
  (x, u) ∈ [(34, 34); (92, 92); (98, 8); (102, 12); (110, 10); (114, 13);
            (116, 9)]%N →
  parse_string t = Some (s, r) →
  parse_string (92%N :: x :: t) = Some (u :: s, r).
Proof.
  intros Hx Ht. rewrite !elem_of_cons, elem_of_nil in Hx.
  destruct Hx as [Hx|[Hx|[Hx|[Hx|[Hx|[Hx|[Hx|[]]]]]]]]; inversion Hx; subst;
    match goal with
    | |- parse_string (_ :: _ :: t) = Some (?u :: _, _) =>
      transitivity (match parse_string t with
                    | Some (t', r') => Some (u :: t', r')
                    | None => None
                    end); [reflexivity|by rewrite Ht]
    end.
Qed.

Ltac pick :=
  repeat first [apply list_elem_of_here | apply list_elem_of_further].

(** What [stringify] writes between the quotes of a string, the parser
    reads back as the string. *)
Lemma parse_string_quote (s rest : jsstring) :
  parse_string (quote_chars s ++ 34%N :: rest) = Some (s, rest).
Proof.
  remember (List.length s) as n eqn:Hn.
  assert (Hle : (List.length s <= n)%nat) by lia. clear Hn.
  revert s Hle. induction n as [|n IH]; intros s Hle.
  { destruct s; [reflexivity|simpl in Hle; lia]. }
  destruct s as [|c s1]; [reflexivity|].
  cbn [List.length] in Hle.
  assert (IH1 : parse_string (quote_chars s1 ++ 34%N :: rest) = Some (s1, rest))
    by (apply IH; lia).
  cbn [quote_chars].
  destruct (N.eqb_spec c 34) as [->|H34].
  { cbn [app]. apply parse_string_simple; [pick|exact IH1]. }
  destruct (N.eqb_spec c 92) as [->|H92].
  { cbn [app]. apply parse_string_simple; [pick|exact IH1]. }
  destruct (N.eqb_spec c 8) as [->|H8].
  { cbn [app]. apply parse_string_simple; [pick|exact IH1]. }
  destruct (N.eqb_spec c 12) as [->|H12].
  { cbn [app]. apply parse_string_simple; [pick|exact IH1]. }
  destruct (N.eqb_spec c 10) as [->|H10].
  { cbn [app]. apply parse_string_simple; [pick|exact IH1]. }
  destruct (N.eqb_spec c 13) as [->|H13].
  { cbn [app]. apply parse_string_simple; [pick|exact IH1]. }
  destruct (N.eqb_spec c 9) as [->|H9].
  { cbn [app]. apply parse_string_simple; [pick|exact IH1]. }
  assert (Hne34 : (c =? 34)%N = false) by (by apply N.eqb_neq).
  assert (Hne92 : (c =? 92)%N = false) by (by apply N.eqb_neq).
  destruct (N.ltb_spec c 32) as [Hctl|Hge32].
  { rewrite <- app_assoc. apply parse_string_escape_u; [lia|exact IH1]. }
  assert (Hnc : (c <? 32)%N = false) by (by apply N.ltb_ge).
  destruct ((55296 <=? c)%N && (c <=? 56319)%N) eqn:Hhigh.
  { apply andb_true_iff in Hhigh as [Hlo Hhi].
    apply N.leb_le in Hlo, Hhi.
    destruct s1 as [|d s2].
    - apply parse_string_escape_u; [lia|reflexivity].
    - destruct ((56320 <=? d)%N && (d <=? 57343)%N) eqn:Hlow.
      + apply andb_true_iff in Hlow as [Hdlo Hdhi].
        apply N.leb_le in Hdlo, Hdhi.
        cbn [app]. apply parse_string_plain; try done.
        apply parse_string_plain.
        * apply N.eqb_neq. lia.
        * apply N.ltb_ge. lia.
        * apply N.eqb_neq. lia.
        * apply IH. cbn [List.length] in Hle. lia.
      + rewrite <- app_assoc. apply parse_string_escape_u; [lia|exact IH1]. }
  destruct ((56320 <=? c)%N && (c <=? 57343)%N) eqn:Hlow.
  { apply andb_true_iff in Hlow as [Hlo Hhi].
    apply N.leb_le in Hlo, Hhi.
    rewrite <- app_assoc. apply parse_string_escape_u; [lia|exact IH1]. }
  cbn [app]. by apply parse_string_plain.
Qed.

Lemma parse_value_quote (n : nat) (s rest : jsstring) :
  parse_value (S n) (quote s ++ rest) = Some (JString s, rest).
Proof.
  unfold quote. rewrite <- !app_assoc. cbn [app parse_value].
  change (34 =? 34)%N with true. cbv iota.
  by rewrite parse_string_quote.
Qed.

Lemma skip_ws_quote (s rest : jsstring) :
  skip_ws (quote s ++ rest) = quote s ++ rest.
Proof. reflexivity. Qed.

End QuoteFacts.

(* ================================================================== *)
(** * The stored list is read back *)
(* ================================================================== *)

Module StoreFacts.
Import Json SessionList Numeral NumeralFacts QuoteFacts.

Lemma lift_value (n : nat) (s : jsstring) (a : JSValue) (r : jsstring) :
  parse_value n s = Some (a, r) →
  ∀ m, (2 * List.length s <= m)%nat → parse_value m s = Some (a, r).
Proof.
  intros H m Hm. destruct (JsonFacts.parse_fuel n) as (Hv & _ & _).
  destruct (Hv _ _ _ H) as [_ Hlift]. apply Hlift. lia.
Qed.

Lemma lift_elements (n : nat) (s : jsstring) (a : list JSValue)
    (r : jsstring) :
  parse_elements n s = Some (a, r) →
  ∀ m, (2 * List.length s <= m)%nat → parse_elements m s = Some (a, r).
Proof.
  intros H m Hm. destruct (JsonFacts.parse_fuel n) as (_ & He & _).
  destruct (He _ _ _ H) as [_ Hlift]. apply Hlift. lia.
Qed.

Lemma members_cons (n : nat) (k : jsstring) (v : JSValue)
    (ms : list (jsstring * JSValue)) (vt more r : jsstring) :
  parse_value n vt = Some (v, 44%N :: more) →
  skip_ws vt = vt → skip_ws more = more →
  parse_members n more = Some (ms, r) →
  parse_members (S n) (quote k ++ 58%N :: vt) = Some ((k, v) :: ms, r).
Proof.
  intros Hv Hvt Hmore Hms. unfold quote. rewrite <- !app_assoc.
  cbn [app parse_members]. change (34 =? 34)%N with true. cbv iota.
  rewrite parse_string_quote. cbn [skip_ws].
  change (is_ws 58) with false. change (is_ch ":" 58%N) with true. cbv iota.
  rewrite Hvt, Hv. cbn [skip_ws].
  change (is_ws 44) with false. change (is_ch "," 44%N) with true. cbv iota.
  by rewrite Hmore, Hms.
Qed.

Lemma members_last (n : nat) (k : jsstring) (v : JSValue)
    (vt rest : jsstring) :
  parse_value n vt = Some (v, 125%N :: rest) →
  skip_ws vt = vt →
  parse_members (S n) (quote k ++ 58%N :: vt) = Some ([(k, v)], rest).
Proof.
  intros Hv Hvt. unfold quote. rewrite <- !app_assoc.
  cbn [app parse_members]. change (34 =? 34)%N with true. cbv iota.
  rewrite parse_string_quote. cbn [skip_ws].
  change (is_ws 58) with false. change (is_ch ":" 58%N) with true. cbv iota.
  rewrite Hvt, Hv. cbn [skip_ws].
  change (is_ws 125) with false. change (is_ch "," 125%N) with false.
  change (is_ch "}" 125%N) with true. reflexivity.
Qed.

Lemma elements_cons (n : nat) (v : JSValue) (vs : list JSValue)
    (vt more r : jsstring) :
  parse_value n vt = Some (v, 44%N :: more) →
  skip_ws more = more →
  parse_elements n more = Some (vs, r) →
  parse_elements (S n) vt = Some (v :: vs, r).
Proof.
  intros Hv Hmore Hvs. cbn [parse_elements]. rewrite Hv. cbn [skip_ws].
  change (is_ws 44) with false. change (is_ch "," 44%N) with true. cbv iota.
  by rewrite Hmore, Hvs.
Qed.

Lemma elements_last (n : nat) (v : JSValue) (vt rest : jsstring) :
  parse_value n vt = Some (v, 93%N :: rest) →
  parse_elements (S n) vt = Some ([v], rest).
Proof.
  intros Hv. cbn [parse_elements]. rewrite Hv. cbn [skip_ws].
  change (is_ws 93) with false. change (is_ch "," 93%N) with false.
  change (is_ch "]" 93%N) with true. reflexivity.
Qed.

(** The text of a count is its decimal, and starts with a digit. *)
Lemma count_text (cnt : Z) :
  0 <= cnt < 10 ^ 21 →
  ∃ c0 t,
    stringify (normal_number cnt 0) = c0 :: t
    ∧ (48 <= c0 <= 57)%N
    ∧ ∀ (c : N) (rest : jsstring),
        closes_number c = true →
        parse_number (c0 :: t ++ c :: rest)
        = Some (normal_number cnt 0, c :: rest).
Proof.
  intros [Hlo Hhi].
  destruct (Z.eq_dec cnt 0) as [->|Hne].
  { exists 48%N, []. split; [reflexivity|]. split; [lia|].
    intros c rest Hc.
    apply closes_number_cases in Hc as [->|[->| ->]]; reflexivity. }
  destruct (normal_number_pos cnt) as (p & e & Hn & He & Hval); [lia|].
  rewrite Hn.
  change (stringify (JNumber (Z.pos p) e)) with (number_toString (Z.pos p) e).
  rewrite number_toString_plain by (rewrite ?Hval; lia).
  pose proof (to_uint_head p) as Hhead.
  pose proof (parse_number_plain p e) as Hparse.
  destruct (Pos.to_uint p) as [|d|d|d|d|d|d|d|d|d|d]; try done;
    cbn [units app] in *;
    (eexists _, _; split; [reflexivity|]; split; [lia|];
     intros c rest Hc; rewrite <- app_assoc, Hparse, Hval, Hn by done;
     reflexivity).
Qed.

Lemma parse_value_digit (n : nat) (c0 : N) (t : jsstring) :
  (48 <= c0 <= 57)%N →
  parse_value (S n) (c0 :: t) = parse_number (c0 :: t)
  ∧ skip_ws (c0 :: t) = c0 :: t.
Proof.
  intros Hc0.
  assert (Hcases : c0 ∈ (N.of_nat <$> seq 48 10)).
  { apply list_elem_of_fmap. exists (N.to_nat c0). split; [lia|].
    apply elem_of_seq. lia. }
  cbn in Hcases. rewrite !elem_of_cons, elem_of_nil in Hcases.
  destruct Hcases as [->|[->|[->|[->|[->|[->|[->|[->|[->|[->|[]]]]]]]]]]];
    split; reflexivity.
Qed.

Lemma parse_value_count (n : nat) (cnt : Z) (c : N) (rest : jsstring) :
  0 <= cnt < 10 ^ 21 → closes_number c = true →
  parse_value (S n) (stringify (normal_number cnt 0) ++ c :: rest)
  = Some (normal_number cnt 0, c :: rest)
  ∧ skip_ws (stringify (normal_number cnt 0) ++ c :: rest)
    = stringify (normal_number cnt 0) ++ c :: rest.
Proof.
  intros Hcnt Hc.
  destruct (count_text cnt Hcnt) as (c0 & t & -> & Hc0 & Hparse).
  cbn [app].
  destruct (parse_value_digit n c0 (t ++ c :: rest) Hc0) as [-> ->].
  split; [by apply Hparse|reflexivity].
Qed.

(** The text [stringify] writes for a summary. *)
Lemma stringify_summary (x : SessionSummary) (rest : jsstring) :
  stringify (toJSON x) ++ rest
  = 123%N :: quote (lit "session_id") ++ 58%N :: quote (session_id x)
    ++ 44%N :: quote (lit "title") ++ 58%N :: quote (title x)
    ++ 44%N :: quote (lit "lastMessage") ++ 58%N :: quote (lastMessage x)
    ++ 44%N :: quote (lit "messageCount")
    ++ 58%N :: stringify (normal_number (messageCount x) 0)
    ++ 44%N :: quote (lit "updated_at") ++ 58%N :: quote (updated_at x)
    ++ 125%N :: rest.
Proof.
  unfold toJSON.
  change (stringify (JObject ?ms))
    with (lit "{"
          ++ join_comma ((λ kv, quote kv.1 ++ lit ":" ++ stringify kv.2)
                           <$> ms)
          ++ lit "}").
  cbn [fmap list_fmap join_comma fst snd].
  change (stringify (JString ?s)) with (quote s).
  change (lit "{") with [123%N]. change (lit "}") with [125%N].
  change (lit ":") with [58%N]. change (lit ",") with [44%N].
  rewrite <- !app_assoc. reflexivity.
Qed.

Lemma parse_value_object (n : nat) (k t : jsstring) :
  parse_value (S n) (123%N :: quote k ++ t)
  = match parse_members n (quote k ++ t) with
    | Some (ms, r) => Some (JObject ms, r)
    | None => None
    end.
Proof. reflexivity. Qed.

(** The parser reads the text of a summary back. *)
Lemma parse_summary (n : nat) (x : SessionSummary) (rest : jsstring) :
  0 <= messageCount x < 10 ^ 21 →
  parse_value (7 + n) (stringify (toJSON x) ++ rest) = Some (toJSON x, rest).
Proof.
  intros Hcnt. rewrite stringify_summary.
  change (7 + n)%nat with (S (S (S (S (S (S (S n))))))).
  rewrite parse_value_object.
  destruct (parse_value_count (S n) (messageCount x) 44
              (quote (lit "updated_at") ++ 58%N :: quote (updated_at x)
               ++ 125%N :: rest) Hcnt eq_refl) as [Hcount Hskip].
  erewrite members_cons; [reflexivity|apply parse_value_quote|reflexivity..|].
  eapply members_cons; [apply parse_value_quote|reflexivity..|].
  eapply members_cons; [apply parse_value_quote|reflexivity..|].
  eapply members_cons;
    [exact Hcount|exact Hskip|reflexivity|].
  eapply members_last; [apply parse_value_quote|reflexivity].
Qed.

Lemma join_head (x : SessionSummary) (l : list SessionSummary)
    (rest : jsstring) :
  ∃ t, join_comma (stringify <$> (toJSON <$> x :: l)) ++ rest = 123%N :: t.
Proof.
  destruct l as [|y l]; cbn [fmap list_fmap join_comma].
  - rewrite stringify_summary. by eexists.
  - rewrite <- app_assoc, stringify_summary. by eexists.
Qed.

(** The parser reads the summaries of a list back, one after the other. *)
Lemma parse_summaries (x : SessionSummary) (l : list SessionSummary)
    (rest : jsstring) :
  Forall (λ s, 0 <= messageCount s < 10 ^ 21) (x :: l) →
  ∃ n, parse_elements n
         (join_comma (stringify <$> (toJSON <$> x :: l)) ++ 93%N :: rest)
       = Some (toJSON <$> x :: l, rest).
Proof.
  revert x. induction l as [|y l IH]; intros x Hall.
  - apply Forall_cons_1 in Hall as [Hx _].
    exists 8%nat. cbn [fmap list_fmap join_comma].
    apply elements_last. by apply (parse_summary 0).
  - apply Forall_cons_1 in Hall as [Hx Hall].
    destruct (IH y Hall) as [n Hn].
    set (more := join_comma (stringify <$> (toJSON <$> y :: l))
                 ++ 93%N :: rest) in *.
    exists (S (7 + 2 * List.length more)).
    change (toJSON <$> x :: y :: l) with (toJSON x :: (toJSON <$> y :: l)).
    change (stringify <$> toJSON x :: (toJSON <$> y :: l))
      with (stringify (toJSON x) :: (stringify <$> (toJSON <$> y :: l))).
    change (join_comma (stringify (toJSON x)
                        :: (stringify <$> (toJSON <$> y :: l))))
      with (stringify (toJSON x) ++ lit ","
            ++ join_comma (stringify <$> (toJSON <$> y :: l))).
    change (lit ",") with [44%N]. rewrite <- !app_assoc. cbn [app].
    fold more.
    eapply elements_cons.
    + by apply parse_summary.
    + destruct (join_head y l (93%N :: rest)) as [t Ht].
      unfold more. by rewrite Ht.
    + apply (lift_elements _ _ _ _ Hn). lia.
Qed.

(** [JSON.parse] reads back what [JSON.stringify] has written for a list
    of summaries. *)
Lemma parse_stringify_sessions (l : list SessionSummary) :
  Forall (λ s, 0 <= messageCount s < 10 ^ 21) l →
  parse (stringify (sessionsToJSON l)) = Normal (sessionsToJSON l).
Proof.
  intros Hall. apply JsonFacts.parse_any_fuel.
  unfold sessionsToJSON.
  change (stringify (JArray ?items))
    with (lit "[" ++ join_comma (stringify <$> items) ++ lit "]").
  change (lit "[") with [91%N]. change (lit "]") with [93%N]. cbn [app].
  destruct l as [|x l].
  { exists 1%nat, []. split; reflexivity. }
  destruct (parse_summaries x l [] Hall) as [n Hn].
  destruct (join_head x l [93%N]) as [t Ht].
  rewrite Ht in Hn |- *.
  exists (S n), []. split; [|reflexivity].
  change (skip_ws (91%N :: 123%N :: t)) with (91%N :: 123%N :: t).
  change (parse_value (S n) (91%N :: 123%N :: t))
    with (match parse_elements n (123%N :: t) with
          | Some (vs, r2) => Some (JArray vs, r2)
          | None => None
          end).
  by rewrite Hn.
Qed.

Lemma strip_zeros_integer (fuel : nat) (m e m' e' : Z) :
  strip_zeros fuel m e = (m', e') → 0 <= e →
  0 <= e' ∧ m' * 10 ^ e' = m * 10 ^ e.
Proof.
  revert m e. induction fuel as [|fuel IH]; intros m e Hs He;
    cbn [strip_zeros] in Hs.
  - by inversion Hs; subst.
  - destruct (Z.eqb_spec m 0) as [->|_].
    { inversion Hs; subst. split; [lia|]. change (10 ^ 0) with 1. lia. }
    destruct (Z.eqb_spec (m mod 10) 0) as [Hmod|_].
    + apply IH in Hs as [He' Hval]; [|lia]. split; [exact He'|].
      rewrite Hval.
      replace (e + 1) with (Z.succ e) by lia. rewrite Z.pow_succ_r by lia.
      pose proof (Z.div_mod m 10). lia.
    + by inversion Hs; subst.
Qed.

(** A summary is what its JSON value denotes, whatever it counts. *)
Lemma asSummary_toJSON (x : SessionSummary) : asSummary (toJSON x) = Some x.
Proof.
  unfold asSummary, toJSON.
  change (get (lit "session_id") (JObject ?ms))
    with (Some (JString (session_id x))).
  change (get (lit "title") (JObject ?ms)) with (Some (JString (title x))).
  change (get (lit "lastMessage") (JObject ?ms))
    with (Some (JString (lastMessage x))).
  change (get (lit "messageCount") (JObject ?ms))
    with (Some (normal_number (messageCount x) 0)).
  change (get (lit "updated_at") (JObject ?ms))
    with (Some (JString (updated_at x))).
  cbn [mbind option_bind asString].
  unfold normal_number.
  destruct (strip_zeros _ (messageCount x) 0) as [m e] eqn:Hs.
  apply strip_zeros_integer in Hs as [He Hval]; [|lia].
  cbn [asInteger]. rewrite (proj2 (Z.leb_le 0 e) He). cbn [option_bind].
  rewrite Hval. change (10 ^ 0) with 1. rewrite Z.mul_1_r. by destruct x.
Qed.

Lemma asSessions_toJSON (l : list SessionSummary) :
  asSessions (sessionsToJSON l) = Some l.
Proof.
  unfold asSessions, sessionsToJSON. apply mapM_Some.
  induction l as [|x l IH]; constructor; [apply asSummary_toJSON|exact IH].
Qed.

End StoreFacts.

(* ================================================================== *)
(** * What is stored is what the next visit loads *)
(* ================================================================== *)

Module ReloadFacts.
Import Json SessionList ChatBot Page Cache Lifecycle Events.

Ltac run_M := ControllerFacts.run_M.

(** [loadSessions] on the text [updateSessionList] and [deleteSession]
    store for a list. *)
Lemma loads_back (l : list SessionSummary) (w : Loaded) :
  Forall (λ s, 0 <= messageCount s < 2 ^ 53) l →
  loadSessions (Some (stringify (sessionsToJSON l))) w
  = (Normal tt,
     {| loaded_sessions := sessionsToJSON l; loaded_isLoading := false;
        loaded_console := loaded_console w |}).
Proof.
  intros Hall.
  assert (Hparse : parse (stringify (sessionsToJSON l))
                   = Normal (sessionsToJSON l)).
  { apply StoreFacts.parse_stringify_sessions.
    eapply Forall_impl; [exact Hall|].
    intros s [Hlo Hhi]. split; [exact Hlo|].
    eapply Z.lt_trans; [exact Hhi|reflexivity]. }
  assert (Htruthy : truthy_opt (Some (stringify (sessionsToJSON l))) = true)
    by reflexivity.
  unfold loadSessions. rewrite Htruthy.
  change (default [] (Some (stringify (sessionsToJSON l))))
    with (stringify (sessionsToJSON l)).
  run_M. by rewrite Hparse.
Qed.

(** Each operation raises a count by one at most. *)
Lemma step_counts (op : Op) (cache cache' : list SessionSummary) (k : Z) :
  0 <= k →
  Forall (λ s, messageCount s <= k) cache →
  step op cache = Normal cache' →
  Forall (λ s, messageCount s <= k + 1) cache'.
Proof.
  intros Hk Hall Hstep.
  assert (Hweak : ∀ l, Forall (λ s, messageCount s <= k) l →
                       Forall (λ s, messageCount s <= k + 1) l).
  { intros l Hl. eapply Forall_impl; [exact Hl|].
    intros s Hs. simpl in *. lia. }
  destruct op as [sid m now|sid]; simpl in Hstep.
  - rewrite CacheFacts.next_spec in Hstep. inversion Hstep as [Hc]. clear Hstep.
    destruct (CacheFacts.first_of_cases sid cache)
      as [[Hf _]|(l1 & e & l2 & -> & H1 & He & Hf)]; rewrite Hf.
    + constructor; [simpl; lia|by apply Hweak].
    + rewrite delete_middle.
      apply Forall_app in Hall as [Hall1 Hall2].
      apply Forall_cons_1 in Hall2 as [Hce Hall2].
      constructor; [simpl; lia|]. apply Hweak. by apply Forall_app.
  - inversion Hstep. apply Hweak. by apply PageFacts.remove_Forall.
Qed.

Lemma run_counts (ops : list Op) (cache cache' : list SessionSummary) (k : Z) :
  0 <= k →
  Forall (λ s, messageCount s <= k) cache →
  run ops cache = Normal cache' →
  Forall (λ s, messageCount s <= k + Z.of_nat (List.length ops)) cache'.
Proof.
  revert cache k. induction ops as [|op ops IH]; intros cache k Hk Hall Hrun.
  - cbn in Hrun. inversion Hrun; subst.
    eapply Forall_impl; [exact Hall|]. intros s Hs. simpl in *. lia.
  - cbn [run] in Hrun. destruct (step op cache) as [c1|] eqn:Hstep;
      [|discriminate Hrun].
    apply (step_counts op cache c1 k Hk Hall) in Hstep.
    apply (IH c1 (k + 1)) in Hrun; [|lia|exact Hstep].
    eapply Forall_impl; [exact Hrun|]. intros s Hs. cbn [List.length] in *. lia.
Qed.

(** What [updateSessionList] and [deleteSession] store under
    ['chatSessions'] for a list whose counts are safe integers,
    [loadSessions] reads back as that list: it does not throw, logs
    nothing, and the value it puts in [sessions] is the list, summary by
    summary and field by field, whatever code units the strings hold. *)
Theorem stored_list_loads_back (l : list SessionSummary) (w : Loaded) :
  Forall (λ s, 0 <= messageCount s < 2 ^ 53) l →
  ∃ w', loadSessions (Some (stringify (sessionsToJSON l))) w = (Normal tt, w')
        ∧ loaded_sessions w' = sessionsToJSON l
        ∧ asSessions (loaded_sessions w') = Some l
        ∧ loaded_isLoading w' = false
        ∧ loaded_console w' = loaded_console w.
Proof.
  intros Hall. eexists. split; [by apply loads_back|].
  cbn. split_and!; try reflexivity. apply StoreFacts.asSessions_toJSON.
Qed.

Lemma stored_list_loads_back_witness :
  Forall (λ s, 0 <= messageCount s < 2 ^ 53)
    [fresh (lit "s1") (lit "C:\docs\a.pdf: 요약") (lit "2023-11-14T22:13:20.850Z")]
  ∧ ∃ w', loadSessions
            (Some (stringify (sessionsToJSON
               [fresh (lit "s1") (lit "C:\docs\a.pdf: 요약")
                  (lit "2023-11-14T22:13:20.850Z")]))) mounted
          = (Normal tt, w')
        ∧ loaded_sessions w'
          = sessionsToJSON
              [fresh (lit "s1") (lit "C:\docs\a.pdf: 요약")
                 (lit "2023-11-14T22:13:20.850Z")]
        ∧ asSessions (loaded_sessions w')
          = Some [fresh (lit "s1") (lit "C:\docs\a.pdf: 요약")
                    (lit "2023-11-14T22:13:20.850Z")]
        ∧ loaded_isLoading w' = false
        ∧ loaded_console w' = loaded_console mounted.
Proof.
  assert (H : Forall (λ s, 0 <= messageCount s < 2 ^ 53)
                [fresh (lit "s1") (lit "C:\docs\a.pdf: 요약")
                   (lit "2023-11-14T22:13:20.850Z")]).
  { constructor; [|constructor]. split; [discriminate|reflexivity]. }
  split; [exact H|].
  exact (stored_list_loads_back _ mounted H).
Defined.

(** On a first visit of fewer than [2 ^ 53] events, whatever the user
    does, the next visit finds the list of this one: [loadSessions], run
    on what local storage holds at the end, does not throw, logs nothing,
    and puts in [sessions] the list the page showed. *)
Theorem reload_restores (now : Z) (created : Fetched ChatSession.t)
    (steps : list Step) :
  Z.of_nat (List.length steps) < 2 ^ 53 →
  ∃ w w',
    play steps (first_visit now created) = (Normal tt, w)
    ∧ loadSessions (localStorage w) mounted = (Normal tt, w')
    ∧ loaded_sessions w' = sessionsToJSON (sessions w)
    ∧ asSessions (loaded_sessions w') = Some (sessions w)
    ∧ loaded_console w' = [].
Proof.
  intros Hsteps.
  destruct (PageFacts.play_reaches steps (first_visit now created)
              (PageFacts.first_visit_consistent now created))
    as (w & ops & Hplay & Hw & Hlen & Hops).
  exists w.
  destruct (storage_mirrors w Hw) as [[Hnone Hempty]|Hsync].
  - rewrite Hnone, Hempty. eexists. split_and!; [exact Hplay|reflexivity..].
  - unfold in_sync in Hsync. rewrite Hsync.
    assert (Hall : Forall (λ s, 0 <= messageCount s < 2 ^ 53) (sessions w)).
    { assert (Hfirst : Forall (λ s, messageCount s <= 0)
                         (sessions (first_visit now created))).
      { unfold first_visit, mount_effect. cbn [truthy_opt negb].
        rewrite ControllerFacts.createNewSession_spec.
        destruct created as [|[[] [session|e]]]; constructor. }
      pose proof (run_counts ops _ _ 0 ltac:(lia) Hfirst Hops) as Hup.
      destruct (list_tidy w Hw) as [Hlow _].
      rewrite Forall_forall in Hup, Hlow. apply Forall_forall.
      intros s Hs. specialize (Hup s Hs). destruct (Hlow s Hs) as [Hone _].
      simpl in Hup. lia. }
    eexists. split; [exact Hplay|]. split; [by apply loads_back|].
    cbn [loaded_sessions loaded_console mounted].
    split; [reflexivity|]. split; [|reflexivity].
    apply StoreFacts.asSessions_toJSON.
Qed.

Lemma reload_restores_witness :
  Z.of_nat (List.length sample_visit) < 2 ^ 53
  ∧ ∃ w w',
      play sample_visit
        (first_visit 1699999999000
           (Responded
              {| ok := true;
                 json := Normal {| ChatSession.session_id := lit "s1";
                                   ChatSession.messages := [];
                                   ChatSession.created_at := lit "t0";
                                   ChatSession.updated_at := lit "t0" |} |}))
      = (Normal tt, w)
      ∧ loadSessions (localStorage w) mounted = (Normal tt, w')
      ∧ loaded_sessions w' = sessionsToJSON (sessions w)
      ∧ asSessions (loaded_sessions w') = Some (sessions w)
      ∧ loaded_console w' = [].
Proof.
  split; [reflexivity|].
  exact (reload_restores 1699999999000 _ sample_visit eq_refl).
Defined.

End ReloadFacts.

(* ================================================================== *)
(** * A summary tells the history of its session *)
(* ================================================================== *)

Module HistoryFacts.
Import SessionList Cache History.

Lemma filter_none (sid : jsstring) (l : list SessionSummary) :
  Forall (λ s, session_id s ≠ sid) l →
  filter (λ s, session_id s = sid) l = [].
Proof.
  induction 1 as [|x l Hx _ IH]; [reflexivity|].
  by rewrite filter_cons_False.
Qed.

Lemma summary_of_snoc (sid : jsstring) (h : list (jsstring * jsstring))
    (m now : jsstring) (e : SessionSummary) :
  summary_of sid h = [e] →
  summary_of sid (h ++ [(m, now)]) = [touch m now e].
Proof.
  destruct h as [|[first t] h]; [discriminate|].
  intros [= <-].
  cbn [app summary_of]. unfold touch. cbn [messageCount session_id title].
  rewrite app_comm_cons, List.last_last. cbn [fst snd].
  rewrite length_app. cbn [List.length].
  destruct (Z.eqb_spec (Z.of_nat (S (List.length h))) 0) as [Hz|_]; [lia|].
  do 2 f_equal. lia.
Qed.

(** One operation, on the summaries of the session [sid]. *)
Lemma step_history (sid : jsstring) (op : Op) (h : list (jsstring * jsstring))
    (cache cache' : list SessionSummary) :
  filter (λ s, session_id s = sid) cache = summary_of sid h →
  step op cache = Normal cache' →
  filter (λ s, session_id s = sid) cache' = summary_of sid (record sid h op).
Proof.
  intros Hh Hstep. destruct op as [b m now|b]; cbn [step record] in *.
  - rewrite CacheFacts.next_spec in Hstep. inversion Hstep as [Hc]. clear Hstep Hc.
    destruct (CacheFacts.first_of_cases b cache)
      as [[Hf Hnone]|(l1 & e & l2 & -> & H1 & He & Hf)]; rewrite Hf.
    + case_bool_decide as Hb.
      * subst b. rewrite filter_none in Hh by exact Hnone.
        destruct h as [|[first t] h]; [|discriminate Hh].
        rewrite filter_cons_True by reflexivity.
        by rewrite filter_none by exact Hnone.
      * rewrite filter_cons_False by exact Hb. exact Hh.
    + rewrite delete_middle.
      rewrite filter_app, filter_cons in Hh.
      rewrite filter_cons, filter_app.
      change (session_id (touch m now e)) with (session_id e).
      case_bool_decide as Hb.
      * subst sid. rewrite decide_True in Hh |- * by exact He.
        rewrite filter_none in Hh |- * by exact H1.
        cbn [app] in *.
        destruct h as [|[first t] h]; [discriminate Hh|].
        assert (Hrest : filter (λ s, session_id s = b) l2 = []).
        { cbn [summary_of] in Hh. by inversion Hh. }
        rewrite Hrest in Hh |- *.
        symmetry. by apply summary_of_snoc.
      * rewrite decide_False in Hh |- * by congruence. exact Hh.
  - inversion Hstep as [Hc]. clear Hstep Hc. unfold deleteSession_next.
    rewrite list_filter_filter.
    case_bool_decide as Hb.
    + subst b. cbn [summary_of]. clear Hh.
      induction cache as [|x l IH]; [reflexivity|].
      rewrite filter_cons_False by (intros [Hs Hne]; by apply Hne). exact IH.
    + rewrite <- Hh. apply list_filter_iff. intros s. split; [tauto|].
      intros Hs. split; [exact Hs|congruence].
Qed.

Lemma run_history (sid : jsstring) (ops : list Op)
    (h : list (jsstring * jsstring)) (cache cache' : list SessionSummary) :
  filter (λ s, session_id s = sid) cache = summary_of sid h →
  run ops cache = Normal cache' →
  filter (λ s, session_id s = sid) cache'
  = summary_of sid (foldl (record sid) h ops).
Proof.
  revert h cache. induction ops as [|op ops IH]; intros h cache Hh Hrun.
  - cbn in Hrun. inversion Hrun; subst. exact Hh.
  - cbn [run foldl] in *.
    destruct (step op cache) as [c1|] eqn:Hstep; [|discriminate Hrun].
    eapply IH; [|exact Hrun]. by eapply step_history.
Qed.

(** After any upserts and removals from the empty list, what the list
    holds for a session is told by the upserts the session has had since
    it was last removed: nothing when there were none; otherwise one
    summary, with the title of the first of these messages, the last of
    them as [lastMessage] with its time as [updated_at], and their number
    as [messageCount].  What was done for other sessions does not
    matter. *)
Theorem summary_tells_history (sid : jsstring) (ops : list Op) :
  ∃ cache,
    run ops [] = Normal cache
    ∧ filter (λ s, session_id s = sid) cache
      = summary_of sid (history sid ops).
Proof.
  destruct (CacheFacts.run_well_formed ops []) as (cache & Hrun & _).
  { split; constructor. }
  exists cache. split; [exact Hrun|].
  by apply (run_history sid ops [] []).
Qed.

End HistoryFacts.

(* ================================================================== *)
(** * The keys of a loaded transcript *)
(* ================================================================== *)

Module KeyFacts.
Import ChatBot Page Numeral.

Lemma units_inj (d d' : Decimal.uint) : units d = units d' → d = d'.
Proof.
  revert d'. induction d; intros d' H; destruct d'; cbn [units] in H;
    try discriminate H; try reflexivity;
    injection H as H; f_equal; by apply IHd.
Qed.

(** [toString] gives different numbers different texts. *)
Lemma toString_inj (a b : Z) :
  0 <= a → 0 <= b → toString a = toString b → a = b.
Proof.
  assert (Hzero : ∀ p, toString (Z.pos p) ≠ toString 0).
  { intros p H. rewrite NumeralFacts.toString_pos in H.
    change (toString 0) with (units (Decimal.D0 Decimal.Nil)) in H.
    apply units_inj in H. by apply (Unsigned.to_uint_nonzero p). }
  intros Ha Hb H. destruct a as [|p|p], b as [|q|q]; try lia.
  - symmetry in H. by apply Hzero in H.
  - by apply Hzero in H.
  - rewrite !NumeralFacts.toString_pos in H. apply units_inj in H.
    by apply DecimalPos.Unsigned.to_uint_inj in H as ->.
Qed.

(** However the request ends, the messages [loadSession] leaves in the
    transcript have different ids: React renders the transcript with
    these as keys. *)
Theorem loaded_keys_distinct (dateOf : jsstring → Z)
    (fetched : Fetched ChatSession.t) (sid : jsstring) (w : World) :
  ∃ w', loadSession dateOf fetched sid w = (Normal tt, w')
        ∧ NoDup (id <$> messages w').
Proof.
  destruct (LifecycleFacts.loadSession_fields dateOf fetched sid w)
    as (w' & Hrun & _ & _ & Hid & _).
  exists w'. split; [exact Hrun|].
  apply NoDup_alt. intros i j x Hi Hj.
  apply list_lookup_fmap_Some in Hi as (mi & -> & Hmi).
  apply list_lookup_fmap_Some in Hj as (mj & Heq & Hmj).
  destruct (Hid i mi Hmi) as [Hki _]. destruct (Hid j mj Hmj) as [Hkj _].
  rewrite Hki, Hkj in Heq. apply app_inv_head in Heq.
  apply toString_inj in Heq; lia.
Qed.

End KeyFacts.
